(** * opencode-comments-plugin: a shallow embedding and its properties

    The plugin intercepts file-mutating tool calls, pairs every "before"
    event with its "after" event through an in-memory table, and runs an
    external comment-checker binary that it locates on disk or downloads.

    Definitions, following the source files:
    - [Js]          the fragments of JavaScript semantics the code relies on
                    (truthiness, [??], string methods, exceptions);
    - [Types]       src/types.ts;
    - [Sys]         the external collaborators: file system, network,
                    subprocesses, with a state-and-exception monad;
    - [Downloader]  src/downloader.ts;
    - [Cli]         src/cli.ts (binary resolver and check invoker);
    - [Hook]        src/index.ts (pending-call table and the two hooks);
    - [Scenario]    concrete machines, disks and calls.

    Properties: [JsFacts], [DownloaderSpec], [CliSpec], [HookSpec], and
    further [FootprintFacts], [DownloaderFacts], [ResolverFacts],
    [InvokerFacts], [TableFacts].

    [debugLog] is a diagnostic side channel that returns at once unless
    COMMENT_CHECKER_DEBUG is "1"; the embedding is of the default
    configuration and leaves it out, as it leaves out the console lines. *)

From Stdlib Require Import ZArith String Ascii List Bool Lia.
From stdpp Require Import base option list gmap strings fin_maps.

Open Scope string_scope.
Open Scope Z_scope.

(* ===================================================================== *)
(** * JavaScript fragments *)
(* ===================================================================== *)

Module Js.

(** Run-time values reaching the plugin through [Record<string, unknown>]
    and [unknown]. Objects and arrays are opaque: the plugin only forwards
    them. *)
Inductive jsval : Type :=
| JUndefined
| JNull
| JBool (b : bool)
| JNum (n : Z)
| JBigInt (n : Z)
| JStr (s : string)
| JObject (id : nat).

(** ToBoolean. *)
Definition truthy (v : jsval) : bool :=
  match v with
  | JUndefined | JNull => false
  | JBool b => b
  | JNum n => negb (n =? 0)
  | JBigInt n => negb (n =? 0)
  | JStr s => negb (String.eqb s "")
  | JObject _ => true
  end.

(** [a ?? b]. *)
Definition nullish (a b : jsval) : jsval :=
  match a with
  | JUndefined | JNull => b
  | _ => a
  end.

(** Truthiness of a [string | null] / [string | undefined] value. *)
Definition truthy_str (o : option string) : bool :=
  match o with
  | Some s => negb (String.eqb s "")
  | None => false
  end.

(** [a ?? b] and [a || b] on [string | null]. *)
Definition nullish_str (a b : option string) : option string :=
  match a with Some _ => a | None => b end.

Definition or_str (a b : option string) : option string :=
  if truthy_str a then a else b.

(** Property read on a plain object: a missing key reads [undefined]. *)
Definition prop (o : gmap string jsval) (k : string) : jsval :=
  default JUndefined (o !! k).

(** ** String methods

    A string is the sequence of its code units, and the embedding has the
    code units below 256 (Latin-1): an element of [ascii] is the code
    unit of that number. The methods below are the ECMAScript ones on
    such strings. *)

(** The lower-case form of a code unit: A to Z, and the capitals from
    192 to 222 without the multiplication sign (215). *)
Definition lower_unit (c : ascii) : ascii :=
  let n := nat_of_ascii c in
  if (((65 <=? n) && (n <=? 90))
      || ((192 <=? n) && (n <=? 222) && negb (n =? 215)))%nat
  then ascii_of_nat (n + 32) else c.

(** The upper-case form of a code unit: a to z, the small letters from
    224 to 254 without the division sign (247), and the sharp s (223),
    which becomes two code units. The capitals of the micro sign (181)
    and of the y with diaeresis (255) are code units above 255; these two
    are left as they are, and a statement that depends on them says so. *)
Definition upper_unit (c : ascii) : string :=
  let n := nat_of_ascii c in
  if (n =? 223)%nat then "SS"
  else if (((97 <=? n) && (n <=? 122))
           || ((224 <=? n) && (n <=? 254) && negb (n =? 247)))%nat
  then String (ascii_of_nat (n - 32)) EmptyString
  else String c EmptyString.

Fixpoint toLowerCase (s : string) : string :=
  match s with
  | EmptyString => EmptyString
  | String c r => String (lower_unit c) (toLowerCase r)
  end.

Fixpoint toUpperCase (s : string) : string :=
  match s with
  | EmptyString => EmptyString
  | String c r => upper_unit c +:+ toUpperCase r
  end.


(** [s.startsWith(p)]. *)
Fixpoint startsWith (s p : string) : bool :=
  match p, s with
  | EmptyString, _ => true
  | String _ _, EmptyString => false
  | String a p', String b s' => Ascii.eqb a b && startsWith s' p'
  end.

(** [s.includes(p)]. *)
Fixpoint includes (s p : string) : bool :=
  startsWith s p ||
  match s with
  | EmptyString => false
  | String _ s' => includes s' p
  end.

(** [s.charAt(0)] and [s.slice(1)]. *)
Definition charAt0 (s : string) : string :=
  match s with EmptyString => EmptyString | String c _ => String c EmptyString end.

Definition slice1 (s : string) : string :=
  match s with EmptyString => EmptyString | String _ r => r end.

(** [s.trim().length > 0]: some code unit is not among those [trim]
    removes. Below 256 these are the white space (9, 11, 12, 32 and the
    no-break space 160) and the line terminators (10, 13). *)
Definition is_space (c : ascii) : bool :=
  let n := nat_of_ascii c in
  ((n =? 32) || ((9 <=? n) && (n <=? 13)) || (n =? 160))%nat.

Fixpoint nonblank (s : string) : bool :=
  match s with
  | EmptyString => false
  | String c r => negb (is_space c) || nonblank r
  end.

(** Completion of a computation that may throw. *)
Inductive outcome (A : Type) : Type :=
| Ok (a : A)
| Throw (e : string).
Arguments Ok {A} a.
Arguments Throw {A} e.

End Js.

(* ===================================================================== *)
(** * src/types.ts *)
(* ===================================================================== *)

Module Types.
Import Js.

(** The optional fields are filled by casts from [unknown]; at run time
    they hold whatever the host passed. *)
Record PendingCall : Type := {
  filePath : jsval;
  content : jsval;
  oldString : jsval;
  newString : jsval;
  edits : jsval;
  tool : string;
  sessionID : string;
  timestamp : Z
}.

Record ToolInput : Type := {
  file_path : jsval;
  ti_content : jsval;
  old_string : jsval;
  new_string : jsval;
  ti_edits : jsval
}.

(** [tool_response?: unknown]: [JUndefined] when the property is absent. *)
Record HookInput : Type := {
  session_id : string;
  tool_name : string;
  transcript_path : string;
  hi_cwd : string;
  hook_event_name : string;
  tool_input : ToolInput;
  tool_response : jsval
}.

Record CheckResult : Type := {
  hasComments : bool;
  message : string
}.

End Types.

(* ===================================================================== *)
(** * External collaborators *)
(* ===================================================================== *)

Module Sys.
Import Js Types.

(** What a [fetch] resolves to. The numeric status is used for the
    text of a logged message only. *)
Record Response : Type := {
  ok : bool;
  statusText : string;
  arrayBuffer : outcome string
}.

(** A spawned child, seen through the handles the code reads. [written]
    lists the paths the child leaves on disk. *)
Record Subprocess : Type := {
  stdin_write : string -> outcome unit;
  stdin_end : outcome unit;
  stdout_text : outcome string;
  stderr_text : outcome string;
  exited : outcome Z;
  written : list string
}.

(** The process environment and the answers of the outside world. *)
Record Host : Type := {
  platform : string;
  arch : string;
  XDG_CACHE_HOME : option string;
  homedir : string;
  cwd : string;
  (** [dirname(require.resolve("@code-yeongyu/comment-checker/package.json"))] *)
  pkg_dir : outcome string;
  (** [require("@code-yeongyu/comment-checker/package.json").version] *)
  pkg_version : outcome string;
  (** [JSON.stringify] on a hook input: the text, or the [TypeError] it
      throws on a value it cannot serialise (a BigInt, an object that
      contains itself) *)
  stringify : HookInput -> outcome string;
  net : string -> outcome Response;
  child : list string -> outcome Subprocess;
  mkdir_result : string -> outcome unit;
  write_result : string -> outcome unit;
  unlink_result : string -> outcome unit;
  chmod_result : string -> outcome unit
}.

(** Observable actions, in the order they happen. *)
Inductive effect : Type :=
| EFetch (url : string)
| ESpawn (argv : list string)
| EStdin (payload : string)
| EMkdir (path : string)
| EWrite (path : string)
| EUnlink (path : string)
| EChmod (path : string)
| ECheck (input : HookInput).

Record World : Type := {
  files : gset string;
  trace : list effect
}.

Definition emit (e : effect) (w : World) : World :=
  {| files := files w; trace := trace w ++ [e] |}.

Definition with_files (f : gset string -> gset string) (w : World) : World :=
  {| files := f (files w); trace := trace w |}.

Definition is_fetch (e : effect) : bool :=
  match e with EFetch _ => true | _ => false end.

Definition is_check (e : effect) : bool :=
  match e with ECheck _ => true | _ => false end.

(** Number of network requests in a history. *)
Definition requests (w : World) : nat := length (filter is_fetch (trace w)).

(** Number of calls of the check invoker in a history. *)
Definition checks (w : World) : nat := length (filter is_check (trace w)).

(** ** State and exceptions *)

Definition M (A : Type) : Type := World -> outcome A * World.

Definition ret {A} (a : A) : M A := fun w => (Ok a, w).

Definition throw {A} (e : string) : M A := fun w => (Throw e, w).

Definition bind {A B} (m : M A) (k : A -> M B) : M B :=
  fun w =>
    match m w with
    | (Ok a, w') => k a w'
    | (Throw e, w') => (Throw e, w')
    end.

(** [try { body } catch (err) { handler }] *)
Definition try_catch {A} (body : M A) (handler : string -> M A) : M A :=
  fun w =>
    match body w with
    | (Ok a, w') => (Ok a, w')
    | (Throw e, w') => handler e w'
    end.

Definition lift {A} (o : outcome A) : M A := fun w => (o, w).

Definition when (b : bool) (m : M unit) : M unit :=
  if b then m else ret tt.

Declare Scope sys_scope.
Delimit Scope sys_scope with sys.
Notation "'do' x <- m ; k" := (bind m (fun x => k))
  (at level 10, x name, m at level 100, k at level 200) : sys_scope.
Notation "'exec' m ; k" := (bind m (fun _ => k))
  (at level 10, m at level 100, k at level 200) : sys_scope.

(** ** Primitive actions

    The host decides whether a call succeeds. A call that throws is
    entered in the history and leaves the files as they were. *)

Definition existsSync (p : string) : M bool :=
  fun w => (Ok (bool_decide (p ∈ files w)), w).

(** [s] ends in a separator. *)
Fixpoint ends_in_sep (s : string) : bool :=
  match s with
  | EmptyString => false
  | String c EmptyString => Ascii.eqb c "/"
  | String _ r => ends_in_sep r
  end.

(** The directories above a path: its prefixes that a separator
    follows, the root and prefixes that end in a separator left out.
    [parents prefix rest] reads [rest], the part after [prefix]. *)
Fixpoint parents (prefix rest : string) : list string :=
  match rest with
  | EmptyString => []
  | String c r =>
      (if Ascii.eqb c "/" && negb (String.eqb prefix "")
          && negb (ends_in_sep prefix)
       then [prefix] else [])
      ++ parents (prefix +:+ String c EmptyString) r
  end%list.

(** [mkdirSync(p, { recursive: true })]: the directory and every
    directory above it that is missing. *)
Definition mkdirSync (h : Host) (p : string) : M unit :=
  fun w =>
    match mkdir_result h p with
    | Ok _ => (Ok tt, with_files (union (list_to_set (p :: parents "" p)))
                        (emit (EMkdir p) w))
    | Throw e => (Throw e, emit (EMkdir p) w)
    end.

Definition fetch (h : Host) (url : string) : M Response :=
  fun w => (net h url, emit (EFetch url) w).

Definition bun_write (h : Host) (p : string) : M unit :=
  fun w =>
    match write_result h p with
    | Ok _ => (Ok tt, with_files (union {[p]}) (emit (EWrite p) w))
    | Throw e => (Throw e, emit (EWrite p) w)
    end.

Definition unlinkSync (h : Host) (p : string) : M unit :=
  fun w =>
    match unlink_result h p with
    | Ok _ => (Ok tt, with_files (fun fs => fs ∖ {[p]}) (emit (EUnlink p) w))
    | Throw e => (Throw e, emit (EUnlink p) w)
    end.

Definition chmodSync (h : Host) (p : string) : M unit :=
  fun w => (chmod_result h p, emit (EChmod p) w).

(** [spawn(argv, ...)]: the child's files are on disk by the time the
    caller has awaited its exit, which every caller does before it looks
    at the disk again. *)
Definition spawn (h : Host) (argv : list string) : M Subprocess :=
  fun w =>
    match child h argv with
    | Ok p => (Ok p, with_files (union (list_to_set (written p))) (emit (ESpawn argv) w))
    | Throw e => (Throw e, emit (ESpawn argv) w)
    end.

Definition write_stdin (p : Subprocess) (payload : string) : M unit :=
  fun w => (stdin_write p payload, emit (EStdin payload) w).

(** Bookkeeping: an entry in the history, no action. *)
Definition note (e : effect) : M unit :=
  fun w => (Ok tt, emit e w).

(** [join(a, b)] as the segments with a separator between them, which is
    what [path.join] gives when [a] and [b] are normalised already (no
    empty, [.] or [..] segment and no separator at an end); [path.join]
    would normalise the result otherwise. *)
Definition join (a b : string) : string := a +:+ "/" +:+ b.

End Sys.

(* ===================================================================== *)
(** * src/downloader.ts *)
(* ===================================================================== *)

Module Downloader.
Import Js Types Sys.
Local Open Scope sys_scope.

Definition REPO : string := "code-yeongyu/go-claude-code-comment-checker".

Inductive Ext : Type := TarGz | Zip.

Definition ext_string (e : Ext) : string :=
  match e with TarGz => "tar.gz" | Zip => "zip" end.

Record PlatformInfo : Type := {
  os : string;
  pi_arch : string;
  ext : Ext
}.

(** The keys are [`${process.platform}-${process.arch}`]; no inherited
    property of a plain object has a hyphen in its name, so a read of
    [PLATFORM_MAP[platformKey]] is a read of these five entries. *)
Definition PLATFORM_MAP : gmap string PlatformInfo :=
  <["darwin-arm64" := {| os := "darwin"; pi_arch := "arm64"; ext := TarGz |}]>
  (<["darwin-x64" := {| os := "darwin"; pi_arch := "amd64"; ext := TarGz |}]>
  (<["linux-arm64" := {| os := "linux"; pi_arch := "arm64"; ext := TarGz |}]>
  (<["linux-x64" := {| os := "linux"; pi_arch := "amd64"; ext := TarGz |}]>
  (<["win32-x64" := {| os := "windows"; pi_arch := "amd64"; ext := Zip |}]> ∅)))).

Definition getCacheDir (h : Host) : string :=
  let xdgCache := XDG_CACHE_HOME h in
  let base :=
    match or_str xdgCache (Some (join (homedir h) ".cache")) with
    | Some b => b
    | None => ""
    end in
  join (join base "opencode-comments-plugin") "bin".

Definition getBinaryName (h : Host) : string :=
  if String.eqb (platform h) "win32" then "comment-checker.exe" else "comment-checker".

Definition getCachedBinaryPath (h : Host) : M (option string) :=
  let binaryPath := join (getCacheDir h) (getBinaryName h) in
  do present <- existsSync binaryPath;
  ret (if present then Some binaryPath else None).

Definition getPackageVersion (h : Host) : string :=
  match pkg_version h with
  | Ok v => v
  | Throw _ => "0.7.0"
  end.

Definition tar_argv (archivePath destDir : string) : list string :=
  ["tar"; "-xzf"; archivePath; "-C"; destDir].

Definition zip_argv (h : Host) (archivePath destDir : string) : list string :=
  if String.eqb (platform h) "win32"
  then ["powershell"; "-command";
        "Expand-Archive -Path '" +:+ archivePath +:+
        "' -DestinationPath '" +:+ destDir +:+ "' -Force"]
  else ["unzip"; "-o"; archivePath; "-d"; destDir].

Definition extractTarGz (h : Host) (archivePath destDir : string) : M unit :=
  do proc <- spawn h (tar_argv archivePath destDir);
  do exitCode <- lift (exited proc);
  if negb (exitCode =? 0) then
    do stderr <- lift (stderr_text proc);
    throw ("tar extraction failed: " +:+ stderr)
  else ret tt.

Definition extractZip (h : Host) (archivePath destDir : string) : M unit :=
  do proc <- spawn h (zip_argv h archivePath destDir);
  do exitCode <- lift (exited proc);
  if negb (exitCode =? 0) then
    do stderr <- lift (stderr_text proc);
    throw ("zip extraction failed: " +:+ stderr)
  else ret tt.

Definition platformKey (h : Host) : string := platform h +:+ "-" +:+ arch h.

Definition assetName (version : string) (p : PlatformInfo) : string :=
  "comment-checker_v" +:+ version +:+ "_" +:+ os p +:+ "_" +:+ pi_arch p
    +:+ "." +:+ ext_string (ext p).

Definition downloadUrl (version asset : string) : string :=
  "https://github.com/" +:+ REPO +:+ "/releases/download/v" +:+ version
    +:+ "/" +:+ asset.

Definition downloadCommentChecker (h : Host) : M (option string) :=
  match PLATFORM_MAP !! platformKey h with
  | None => ret None
  | Some platformInfo =>
    let cacheDir := getCacheDir h in
    let binaryName := getBinaryName h in
    let binaryPath := join cacheDir binaryName in
    do cached <- existsSync binaryPath;
    if cached then ret (Some binaryPath)
    else
      let version := getPackageVersion h in
      let asset := assetName version platformInfo in
      let url := downloadUrl version asset in
      try_catch
        (do dirPresent <- existsSync cacheDir;
         exec when (negb dirPresent) (mkdirSync h cacheDir);
         do response <- fetch h url;
         exec when (negb (ok response)) (throw ("HTTP " +:+ statusText response));
         let archivePath := join cacheDir asset in
         do buffer <- lift (arrayBuffer response);
         exec bun_write h archivePath;
         exec (match ext platformInfo with
               | TarGz => extractTarGz h archivePath cacheDir
               | Zip => extractZip h archivePath cacheDir
               end);
         do archivePresent <- existsSync archivePath;
         exec when archivePresent (unlinkSync h archivePath);
         do binaryPresent <- existsSync binaryPath;
         exec when (negb (String.eqb (platform h) "win32") && binaryPresent)
                   (chmodSync h binaryPath);
         ret (Some binaryPath))
        (fun _ => ret None)
  end.

(** Names for what [downloadCommentChecker] computes on its way: the
    executable's place in the cache, the archive's, the release URL and
    the command line of the extraction. *)
Definition binaryPath_of (h : Host) : string :=
  join (getCacheDir h) (getBinaryName h).

Definition archivePath_of (h : Host) (p : PlatformInfo) : string :=
  join (getCacheDir h) (assetName (getPackageVersion h) p).

Definition url_of (h : Host) (p : PlatformInfo) : string :=
  downloadUrl (getPackageVersion h) (assetName (getPackageVersion h) p).

Definition extract_argv (h : Host) (p : PlatformInfo) : list string :=
  match ext p with
  | TarGz => tar_argv (archivePath_of h p) (getCacheDir h)
  | Zip => zip_argv h (archivePath_of h p) (getCacheDir h)
  end.

Definition ensureCommentCheckerBinary (h : Host) : M (option string) :=
  do cachedPath <- getCachedBinaryPath h;
  if truthy_str cachedPath then ret cachedPath
  else downloadCommentChecker h.

(** The world a download leaves when it gets as far as the extraction:
    the cache directory made if need be, the request, the archive
    written, and the files of the extraction utility. *)
Definition staged (h : Host) (info : PlatformInfo) (proc : Subprocess)
    (w : World) : World :=
  let w1 :=
    if bool_decide (getCacheDir h ∈ files w) then w
    else with_files (union (list_to_set (getCacheDir h :: parents "" (getCacheDir h))))
           (emit (EMkdir (getCacheDir h)) w) in
  let w2 := emit (EFetch (url_of h info)) w1 in
  let w3 := with_files (union {[archivePath_of h info]})
              (emit (EWrite (archivePath_of h info)) w2) in
  with_files (union (list_to_set (written proc)))
    (emit (ESpawn (extract_argv h info)) w3).

End Downloader.

(* ===================================================================== *)
(** * src/cli.ts *)
(* ===================================================================== *)

Module Cli.
Import Js Types Sys.
Local Open Scope sys_scope.

Definition getBinaryName (h : Host) : string :=
  if String.eqb (platform h) "win32" then "comment-checker.exe" else "comment-checker".

Definition findCommentCheckerPathSync (h : Host) : M (option string) :=
  let binaryName := getBinaryName h in
  do bundled <-
    try_catch
      (do cliDir <- lift (pkg_dir h);
       let binaryPath := join (join cliDir "bin") binaryName in
       do present <- existsSync binaryPath;
       ret (if present then Some binaryPath else None))
      (fun _ => ret None);
  match bundled with
  | Some binaryPath => ret (Some binaryPath)
  | None =>
    do cachedPath <- Downloader.getCachedBinaryPath h;
    if truthy_str cachedPath then ret cachedPath else ret None
  end.

(** ** The resolver: [resolvedCliPath], [initPromise], [getCommentCheckerPath]

    The run time is single-threaded: code runs to its next [await], so
    the resolver is a machine whose steps are the synchronous stretches.
    A call of the async function hands its caller a promise that adopts
    what the body returns; a [handle] is that adopted value. *)

Inductive handle : Type :=
| HValue (v : option string)
| HPromise (p : nat).

Inductive cell : Type :=
| Pending
| Fulfilled (v : option string).

(** Bookkeeping of what a step started. *)
Inductive started : Type :=
| SLookup
| SDownload (p : nat).

Record Resolver : Type := {
  resolvedCliPath : option string;
  initPromise : option handle;
  promises : list cell;
  log : list started
}.

Definition initial : Resolver :=
  {| resolvedCliPath := None; initPromise := None; promises := []; log := [] |}.

(** The body of the async arrow function up to its [await]: the lookup in
    the known locations seen in world [w], then either the result or the
    start of [ensureCommentCheckerBinary]. *)
Definition syncPath (h : Host) (w : World) : option string :=
  match findCommentCheckerPathSync h w with
  | (Ok (Some p), w') =>
      if truthy_str (Some p) && bool_decide (p ∈ files w') then Some p else None
  | _ => None
  end.

Definition getCommentCheckerPath (h : Host) (w : World) (s : Resolver)
  : Resolver * handle :=
  match resolvedCliPath s with
  | Some path => (s, HValue (Some path))
  | None =>
    match initPromise s with
    | Some pr => (s, pr)
    | None =>
      let p := length (promises s) in
      match syncPath h w with
      | Some path =>
          ({| resolvedCliPath := Some path;
              initPromise := Some (HPromise p);
              promises := promises s ++ [Fulfilled (Some path)];
              log := log s ++ [SLookup] |}, HPromise p)
      | None =>
          ({| resolvedCliPath := None;
              initPromise := Some (HPromise p);
              promises := promises s ++ [Pending];
              log := log s ++ [SLookup; SDownload p] |}, HPromise p)
      end
    end
  end.

(** The rest of the arrow function, run when the download that promise
    [p] waits for has settled with [downloadedPath]. *)
Definition resume (p : nat) (downloadedPath : option string) (s : Resolver)
  : Resolver :=
  match promises s !! p with
  | Some Pending =>
      if truthy_str downloadedPath then
        {| resolvedCliPath := downloadedPath;
           initPromise := initPromise s;
           promises := <[p := Fulfilled downloadedPath]> (promises s);
           log := log s |}
      else
        {| resolvedCliPath := resolvedCliPath s;
           initPromise := initPromise s;
           promises := <[p := Fulfilled None]> (promises s);
           log := log s |}
  | _ => s
  end.

Definition getCommentCheckerPathSync (h : Host) (resolved : option string)
  : M (option string) :=
  match resolved with
  | Some path => ret (Some path)
  | None => findCommentCheckerPathSync h
  end.

Definition startBackgroundInit (h : Host) (w : World) (s : Resolver) : Resolver :=
  match initPromise s with
  | Some _ => s
  | None =>
    let '(s', pr) := getCommentCheckerPath h w s in
    {| resolvedCliPath := resolvedCliPath s';
       initPromise := Some pr;
       promises := promises s';
       log := log s' |}
  end.

(** What awaiting a handle yields in a state; [None] while it is pending. *)
Definition await (s : Resolver) (pr : handle) : option (option string) :=
  match pr with
  | HValue v => Some v
  | HPromise p =>
      match promises s !! p with
      | Some (Fulfilled v) => Some v
      | _ => None
      end
  end.

(** What can happen to the resolver: a caller invokes
    [getCommentCheckerPath] or [startBackgroundInit] while the disk is as
    in [w], or the [ensureCommentCheckerBinary] that promise [p] waits for
    completes with [downloadedPath]. *)
Inductive event : Type :=
| EvCall (w : World)
| EvBackground (w : World)
| EvSettled (p : nat) (downloadedPath : option string).

(** One step; a call also yields the handle its caller holds. *)
Definition step (h : Host) (s : Resolver) (e : event) : Resolver * list handle :=
  match e with
  | EvCall w => let '(s', pr) := getCommentCheckerPath h w s in (s', [pr])
  | EvBackground w => (startBackgroundInit h w s, [])
  | EvSettled p r => (resume p r s, [])
  end.

Fixpoint run (h : Host) (s : Resolver) (es : list event) : Resolver * list handle :=
  match es with
  | [] => (s, [])
  | e :: es' =>
      let '(s1, hs1) := step h s e in
      let '(s2, hs2) := run h s1 es' in
      (s2, (hs1 ++ hs2)%list)
  end.

Definition is_lookup (x : started) : bool :=
  match x with SLookup => true | _ => false end.

Definition is_download (x : started) : bool :=
  match x with SDownload _ => true | _ => false end.

Definition lookups (s : Resolver) : nat := length (filter is_lookup (log s)).
Definition downloads (s : Resolver) : nat := length (filter is_download (log s)).

(** ** The check invoker *)

Record RunOptions : Type := {
  cliPath : option string;
  prompt : option string
}.

Definition no_comments : CheckResult := {| hasComments := false; message := "" |}.

(** [options.cliPath ?? resolvedCliPath ?? getCommentCheckerPathSync()] *)
Definition binaryPath_of (h : Host) (resolved : option string)
    (options : RunOptions) : M (option string) :=
  match nullish_str (cliPath options) resolved with
  | Some path => ret (Some path)
  | None => getCommentCheckerPathSync h resolved
  end.

(** The argument vector: the binary, then the prompt when there is one. *)
Definition argv_of (path : string) (options : RunOptions) : list string :=
  match prompt options with
  | Some text =>
      if truthy_str (Some text) && nonblank text
      then [path; "--prompt"; text] else [path]
  | None => [path]
  end.

Definition runCommentChecker (h : Host) (resolved : option string)
    (input : HookInput) (options : RunOptions) : M CheckResult :=
  exec note (ECheck input);
  do binaryPath <- binaryPath_of h resolved options;
  match binaryPath with
  | None => ret no_comments
  | Some path =>
    if negb (truthy_str (Some path)) then ret no_comments
    else
      do present <- existsSync path;
      if negb present then ret no_comments
      else
        do jsonInput <- lift (stringify h input);
        try_catch
          (let args := argv_of path options in
           do proc <- spawn h args;
           exec write_stdin proc jsonInput;
           exec lift (stdin_end proc);
           do stdout <- lift (stdout_text proc);
           do stderr <- lift (stderr_text proc);
           do exitCode <- lift (exited proc);
           if exitCode =? 0 then ret no_comments
           else if exitCode =? 2 then ret {| hasComments := true; message := stderr |}
           else ret no_comments)
          (fun _ => ret no_comments)
  end.

(** ** Vocabulary of the statements about this file *)

(** What the reads of the child's streams give when none of them
    throws: the standard-error text and the exit code. *)
Definition conversation (proc : Subprocess) (payload : string)
  : outcome (string * Z) :=
  match stdin_write proc payload, stdin_end proc, stdout_text proc,
        stderr_text proc, exited proc with
  | Ok _, Ok _, Ok _, Ok stderr, Ok exitCode => Ok (stderr, exitCode)
  | Throw e, _, _, _, _ => Throw e
  | _, Throw e, _, _, _ => Throw e
  | _, _, Throw e, _, _ => Throw e
  | _, _, _, Throw e, _ => Throw e
  | _, _, _, _, Throw e => Throw e
  end.

(** The result of a check, and the binary path it settles on. *)
Definition checked (h : Host) (resolved : option string) (input : HookInput)
    (options : RunOptions) (w : World) : outcome CheckResult :=
  fst (runCommentChecker h resolved input options w).

Definition located (h : Host) (resolved : option string) (options : RunOptions)
    (w : World) : outcome (option string) :=
  fst (binaryPath_of h resolved options w).

(** What holds of every reachable state [s] and of the handles [hs] given
    out so far: before the first call nothing has happened; after it
    there is one promise, number 0, one lookup and at most one download
    in the log, and a handle is that promise or the cached path that the
    promise was fulfilled with. *)
Definition consistent (s : Resolver) (hs : list handle) : Prop :=
  match initPromise s with
  | None =>
      resolvedCliPath s = None /\ promises s = [] /\ log s = [] /\ hs = []
  | Some pr =>
      pr = HPromise 0 /\
      exists c,
        promises s = [c] /\
        (log s = [SLookup] /\ c <> Pending \/ log s = [SLookup; SDownload 0]) /\
        (forall v, resolvedCliPath s = Some v -> c = Fulfilled (Some v)) /\
        Forall (fun hd => hd = HPromise 0 \/
                          exists v, hd = HValue (Some v) /\ c = Fulfilled (Some v)) hs
  end.

End Cli.

(* ===================================================================== *)
(** * src/index.ts *)
(* ===================================================================== *)

Module Hook.
Import Js Types Sys.
Local Open Scope sys_scope.

Definition PENDING_CALL_TTL : Z := 60000.

(** Period of the [setInterval] that runs the sweep. *)
Definition CLEANUP_PERIOD : Z := 10000.

Definition nl : string := String "010"%char EmptyString.

(** Module state: [pendingCalls] and [customPrompt]. *)
Record Plugin : Type := {
  pendingCalls : gmap string PendingCall;
  customPrompt : option string
}.

Definition empty_plugin : Plugin :=
  {| pendingCalls := ∅; customPrompt := None |}.

Definition with_pending (f : gmap string PendingCall -> gmap string PendingCall)
    (st : Plugin) : Plugin :=
  {| pendingCalls := f (pendingCalls st); customPrompt := customPrompt st |}.

(** [now - call.timestamp > PENDING_CALL_TTL] *)
Definition expired (now : Z) (call : PendingCall) : bool :=
  now - timestamp call >? PENDING_CALL_TTL.

(** The loop visits every entry of the table once and deletes in place. *)
Definition cleanupOldPendingCalls (now : Z) (st : Plugin) : Plugin :=
  with_pending
    (fun table =>
       map_fold
         (fun callID call acc => if expired now call then delete callID acc else acc)
         table table)
    st.

(** Arguments of the hooks. *)
Record HookIn : Type := {
  in_tool : string;
  in_sessionID : string;
  in_callID : string
}.

Record ToolOutput : Type := {
  title : string;
  output : string;
  metadata : jsval
}.

Definition set_output (o : ToolOutput) (text : string) : ToolOutput :=
  {| title := title o; output := text; metadata := metadata o |}.

(** [pendingCalls.get(callID)] followed by [pendingCalls.delete(callID)]
    when the entry is there. *)
Definition take (callID : string) (st : Plugin) : option PendingCall * Plugin :=
  match pendingCalls st !! callID with
  | None => (None, st)
  | Some pendingCall => (Some pendingCall, with_pending (delete callID) st)
  end.

(** [tool.charAt(0).toUpperCase() + tool.slice(1)] *)
Definition capitalize (s : string) : string :=
  toUpperCase (charAt0 s) +:+ slice1 s.

(** [output.args.filePath ?? output.args.file_path ?? output.args.path] *)
Definition filePath_arg (args : gmap string jsval) : jsval :=
  nullish (nullish (prop args "filePath") (prop args "file_path")) (prop args "path").

(** The object literal the before-hook stores, at time [now]. *)
Definition pendingCall_of (now : Z) (input : HookIn) (args : gmap string jsval)
  : PendingCall :=
  {| filePath := filePath_arg args;
     content := prop args "content";
     oldString := nullish (prop args "oldString") (prop args "old_string");
     newString := nullish (prop args "newString") (prop args "new_string");
     edits := prop args "edits";
     tool := toLowerCase (in_tool input);
     sessionID := in_sessionID input;
     timestamp := now |}.

Section WithConstants.

(** src/constants.ts is not part of the sources at hand; its three
    exports are parameters. *)
Variable COMMENT_CHECKER_EVENT : string.
Variable OUTPUT_FAILURE_PATTERNS : list string.
Variable TOOL_NAMES : gset string.

(** ["tool.execute.before"], called at time [now]. *)
Definition before (now : Z) (input : HookIn) (args : gmap string jsval)
    (st : Plugin) : Plugin :=
  let toolLower := toLowerCase (in_tool input) in
  if negb (bool_decide (toolLower ∈ TOOL_NAMES)) then st
  else
    let filePath := filePath_arg args in
    if negb (truthy filePath) then st
    else with_pending (insert (in_callID input) (pendingCall_of now input args)) st.

Definition isToolFailure (text : string) : bool :=
  let outputLower := toLowerCase text in
  startsWith outputLower "error"
  || existsb (fun pattern => includes outputLower pattern) OUTPUT_FAILURE_PATTERNS.

Definition hookInput_of (h : Host) (pendingCall : PendingCall) : HookInput :=
  {| session_id := sessionID pendingCall;
     tool_name := capitalize (tool pendingCall);
     transcript_path := "";
     hi_cwd := cwd h;
     hook_event_name := COMMENT_CHECKER_EVENT;
     tool_input :=
       {| file_path := filePath pendingCall;
          ti_content := content pendingCall;
          old_string := oldString pendingCall;
          new_string := newString pendingCall;
          ti_edits := edits pendingCall |};
     tool_response := JUndefined |}.

(** ["tool.execute.after"]. [cliPathPromise] is what awaiting the
    promise of that name yields ([Throw] when it is rejected) and
    [resolved] is [resolvedCliPath] of cli.ts at that time. The result
    is the module state and the [output] object the host passed in. *)
Definition after (h : Host) (cliPathPromise : outcome (option string))
    (resolved : option string) (input : HookIn) (out : ToolOutput)
    (st : Plugin) : M (Plugin * ToolOutput) :=
  match take (in_callID input) st with
  | (None, st') => ret (st', out)
  | (Some pendingCall, st') =>
    if isToolFailure (output out) then ret (st', out)
    else
      try_catch
        (do cliPath <- lift cliPathPromise;
         match cliPath with
         | None => ret (st', out)
         | Some path =>
           do missing <-
             (if negb (truthy_str (Some path)) then ret true
              else do present <- existsSync path; ret (negb present));
           if missing then ret (st', out)
           else
             let hookInput := hookInput_of h pendingCall in
             do result <-
               Cli.runCommentChecker h resolved hookInput
                 {| Cli.cliPath := None; Cli.prompt := customPrompt st' |};
             if hasComments result && negb (String.eqb (message result) "")
             then ret (st', set_output out (output out +:+ nl +:+ nl +:+ message result))
             else ret (st', out)
         end)
        (fun _ => ret (st', out))
  end.

(** ** Interleavings on the table

    Hooks of several calls and the periodic sweep run one after the
    other on the same table. An after-hook acts on the table as
    [take] does, whatever else it goes on to do. *)

Inductive table_event : Type :=
| TBefore (now : Z) (input : HookIn) (args : gmap string jsval)
| TAfter (callID : string)
| TSweep (now : Z).

Definition table_step (st : Plugin) (e : table_event) : Plugin :=
  match e with
  | TBefore now input args => before now input args st
  | TAfter callID => snd (take callID st)
  | TSweep now => cleanupOldPendingCalls now st
  end.

(** An event that leaves the entry [call] of [c] alone: a hook of
    another call, or a sweep while [call] is no older than the TTL. *)
Definition spares (c : string) (call : PendingCall) (e : table_event) : Prop :=
  match e with
  | TBefore _ input _ => in_callID input <> c
  | TAfter callID => callID <> c
  | TSweep now => now - timestamp call <= PENDING_CALL_TTL
  end.

(** An event that does not record call [c]: anything but its before-hook. *)
Definition records_other (c : string) (e : table_event) : Prop :=
  match e with
  | TBefore _ input _ => in_callID input <> c
  | _ => True
  end.

End WithConstants.

(** What the after-hook does with the result of the checker. *)
Definition merged (out : ToolOutput) (result : CheckResult) : ToolOutput :=
  if hasComments result && negb (String.eqb (message result) "")
  then set_output out (output out +:+ nl +:+ nl +:+ message result)
  else out.

End Hook.

(* ===================================================================== *)
(** * What a computation leaves behind *)
(* ===================================================================== *)

Module Footprint.
Import Js Types Sys.

Definition is_spawn (e : effect) : bool :=
  match e with ESpawn _ => true | _ => false end.

Definition is_unlink (e : effect) : bool :=
  match e with EUnlink _ => true | _ => false end.

(** Number of actions of kind [P] in a history. *)
Definition tally (P : effect -> bool) (w : World) : nat :=
  length (filter P (trace w)).

(** [m] performs at most [n] actions of kind [P], whatever the world. *)
Definition adds {A} (P : effect -> bool) (n : nat) (m : M A) : Prop :=
  forall w, (tally P (snd (m w)) <= tally P w + n)%nat.

(** [m] leaves on disk every file that satisfies [Q]. *)
Definition keeps {A} (Q : string -> Prop) (m : M A) : Prop :=
  forall w f, Q f -> f ∈ files w -> f ∈ files (snd (m w)).

(** When [m] returns, it returns a value that satisfies [R]. *)
Definition only {A} (R : A -> Prop) (m : M A) : Prop :=
  forall w a, fst (m w) = Ok a -> R a.

(** [m] returns, never throws, and its value satisfies [R]. *)
Definition yields {A} (R : A -> Prop) (m : M A) : Prop :=
  forall w, exists a, fst (m w) = Ok a /\ R a.

End Footprint.

(* ===================================================================== *)
(** * The worlds a download goes through *)
(* ===================================================================== *)

Module Stages.
Import Js Types Sys Downloader.

(** The cache directory made if need be. *)
Definition prepared (h : Host) (w : World) : World :=
  if bool_decide (getCacheDir h ∈ files w) then w
  else with_files (union (list_to_set (getCacheDir h :: parents "" (getCacheDir h))))
         (emit (EMkdir (getCacheDir h)) w).

(** The request sent. *)
Definition requested (h : Host) (info : PlatformInfo) (w : World) : World :=
  emit (EFetch (url_of h info)) (prepared h w).

(** After a successful extraction: the archive deleted, and then the
    executable, when it is there and the platform has permission bits,
    made executable. *)
Definition cleaned (h : Host) (info : PlatformInfo) (proc : Subprocess)
    (w : World) : World :=
  with_files (fun fs => fs ∖ {[archivePath_of h info]})
    (emit (EUnlink (archivePath_of h info)) (staged h info proc w)).

Definition installed (h : Host) (info : PlatformInfo) (proc : Subprocess)
    (w : World) : World :=
  let w5 := cleaned h info proc w in
  if negb (String.eqb (platform h) "win32") && bool_decide (binaryPath_of h ∈ files w5)
  then emit (EChmod (binaryPath_of h)) w5
  else w5.

(** The part of [downloadCommentChecker] inside its [try], from the
    request on. *)
Definition from_request (h : Host) (info : PlatformInfo) : M (option string) :=
  (do response <- fetch h (url_of h info);
   exec when (negb (ok response)) (throw ("HTTP " +:+ statusText response));
   exec lift (arrayBuffer response);
   exec bun_write h (archivePath_of h info);
   exec match ext info with
        | TarGz => extractTarGz h (archivePath_of h info) (getCacheDir h)
        | Zip => extractZip h (archivePath_of h info) (getCacheDir h)
        end;
   do archivePresent <- existsSync (archivePath_of h info);
   exec when archivePresent (unlinkSync h (archivePath_of h info));
   do binaryPresent <- existsSync (binaryPath_of h);
   exec when (negb (String.eqb (platform h) "win32") && binaryPresent)
          (chmodSync h (binaryPath_of h));
   ret (Some (binaryPath_of h)))%sys.

(** The part inside the [try]. *)
Definition attempt (h : Host) (info : PlatformInfo) : M (option string) :=
  (do dirPresent <- existsSync (getCacheDir h);
   exec when (negb dirPresent) (mkdirSync h (getCacheDir h));
   from_request h info)%sys.

(** A request that brings no archive: [fetch] throws, the status is not a
    success, or the body cannot be read. *)
Definition no_archive (h : Host) (info : PlatformInfo) : Prop :=
  match net h (url_of h info) with
  | Throw _ => True
  | Ok response => ok response = false \/ exists e, arrayBuffer response = Throw e
  end.

(** The actions of kind [P] among those a download can perform. *)
Definition cost (P : effect -> bool) (h : Host) (info : PlatformInfo) : nat :=
  ((if P (EMkdir (getCacheDir h)) then 1 else 0)
   + (if P (EFetch (url_of h info)) then 1 else 0)
   + (if P (EWrite (archivePath_of h info)) then 1 else 0)
   + (if P (ESpawn (extract_argv h info)) then 1 else 0)
   + (if P (EUnlink (archivePath_of h info)) then 1 else 0)
   + (if P (EChmod (binaryPath_of h)) then 1 else 0))%nat.

End Stages.

(* ===================================================================== *)
(** * The plugin's start and its resolver *)
(* ===================================================================== *)

Module Startup.
Import Js Types Sys Cli.

(** The plugin function of src/index.ts up to its [return]:
    [startBackgroundInit()], then [cliPathPromise = getCommentCheckerPath()],
    with the disk as in [w]. The result is the resolver's state and
    [cliPathPromise]. *)
Definition CommentCheckerPlugin (h : Host) (w : World) : Resolver * handle :=
  getCommentCheckerPath h w (startBackgroundInit h w initial).

(** What the first download to settle in [es] settles promise 0 with, as
    the arrow function of [getCommentCheckerPath] turns it into its
    result; [None] when no download settles. *)
Fixpoint settled_with (es : list event) : option (option string) :=
  match es with
  | [] => None
  | EvSettled 0 downloadedPath :: _ =>
      Some (if truthy_str downloadedPath then downloadedPath else None)
  | _ :: es' => settled_with es'
  end.

(** The cache variable and the promise tell the same story: a promise
    fulfilled with a path means [resolvedCliPath] is that path, and the
    path is not the empty string. *)
Definition agrees (s : Resolver) : Prop :=
  forall v, promises s !! 0%nat = Some (Fulfilled (Some v)) ->
            resolvedCliPath s = Some v /\ v <> "".

End Startup.


(* ===================================================================== *)
(** * src/index.ts: the [config] hook *)
(* ===================================================================== *)

Module Config.
Import Js Types Hook.

(** The configuration the host passes is JSON: values with their fields,
    an object having each key once. No induction over values is needed. *)
Local Unset Elimination Schemes.
Inductive value : Type :=
| VUndefined
| VNull
| VBool (b : bool)
| VNum (n : Z)
| VStr (s : string)
| VObject (fields : list (string * value))
| VArray (items : list value).
Local Set Elimination Schemes.

Definition truthy_value (v : value) : bool :=
  match v with
  | VUndefined | VNull => false
  | VBool b => b
  | VNum n => negb (n =? 0)
  | VStr s => negb (String.eqb s "")
  | VObject _ | VArray _ => true
  end.

(** [typeof v === "object"] *)
Definition is_object (v : value) : bool :=
  match v with
  | VNull | VObject _ | VArray _ => true
  | _ => false
  end.

Fixpoint field (k : string) (fields : list (string * value)) : value :=
  match fields with
  | [] => VUndefined
  | (k', v) :: rest => if String.eqb k k' then v else field k rest
  end.

(** [v.k] for a key that no prototype has: a [TypeError] on [undefined]
    and [null], the field of an object, [undefined] on anything else. *)
Definition member (v : value) (k : string) : outcome value :=
  match v with
  | VUndefined | VNull => Throw "TypeError"
  | VObject fields => Ok (field k fields)
  | _ => Ok VUndefined
  end.

Definition resolveCustomPrompt (config : value) : outcome (option string) :=
  match member config "comment_checker" with
  | Throw e => Throw e
  | Ok raw =>
    if negb (truthy_value raw) || negb (is_object raw) then Ok None
    else
      match member raw "custom_prompt" with
      | Throw e => Throw e
      | Ok (VStr prompt) => if nonblank prompt then Ok (Some prompt) else Ok None
      | Ok _ => Ok None
      end
  end.

(** The [config] hook: [customPrompt = resolveCustomPrompt(config)]. *)
Definition config (cfg : value) (st : Plugin) : outcome Plugin :=
  match resolveCustomPrompt cfg with
  | Ok text => Ok {| pendingCalls := pendingCalls st; customPrompt := text |}
  | Throw e => Throw e
  end.

End Config.

(* ===================================================================== *)
(** * Concrete hosts and worlds *)
(* ===================================================================== *)

Module Scenario.
Import Js Types Sys.

(** A child that accepts its input and exits with [code], having written
    [text] on standard error and left [paths] on disk. *)
Definition child_exiting (code : Z) (text : string) (paths : list string)
  : Subprocess :=
  {| stdin_write := fun _ => Ok tt;
     stdin_end := Ok tt;
     stdout_text := Ok "";
     stderr_text := Ok text;
     exited := Ok code;
     written := paths |}.

(** [JSON.stringify] on the values of the embedding: a BigInt anywhere
    in the input is a [TypeError]. The text itself is of no concern. *)
Definition serialisable (v : jsval) : bool :=
  match v with JBigInt _ => false | _ => true end.

Definition json (input : HookInput) : outcome string :=
  if serialisable (file_path (tool_input input))
     && serialisable (ti_content (tool_input input))
     && serialisable (old_string (tool_input input))
     && serialisable (new_string (tool_input input))
     && serialisable (ti_edits (tool_input input))
     && serialisable (tool_response input)
  then Ok "{}"
  else Throw "TypeError".

(** A machine without the bundled package, where every system call
    succeeds, the release server answers 200 and every child is [proc]. *)
Definition machine (plat cpu : string) (proc : Subprocess) : Host :=
  {| platform := plat;
     arch := cpu;
     XDG_CACHE_HOME := None;
     homedir := "/home/dev";
     cwd := "/work";
     pkg_dir := Throw "MODULE_NOT_FOUND";
     pkg_version := Throw "MODULE_NOT_FOUND";
     stringify := json;
     net := fun _ => Ok {| ok := true; statusText := "OK"; arrayBuffer := Ok "archive" |};
     child := fun _ => Ok proc;
     mkdir_result := fun _ => Ok tt;
     write_result := fun _ => Ok tt;
     unlink_result := fun _ => Ok tt;
     chmod_result := fun _ => Ok tt |}.

Definition disk (paths : list string) : World :=
  {| files := list_to_set paths; trace := [] |}.

Definition cache_binary : string :=
  "/home/dev/.cache/opencode-comments-plugin/bin/comment-checker".

Definition some_input : HookInput :=
  {| session_id := "s1";
     tool_name := "Edit";
     transcript_path := "";
     hi_cwd := "/work";
     hook_event_name := "PostToolUse";
     tool_input :=
       {| file_path := JStr "/work/a.ts";
          ti_content := JUndefined;
          old_string := JStr "// TODO";
          new_string := JStr "// TODO: fix";
          ti_edits := JUndefined |};
     tool_response := JUndefined |}.

(** The same input with a tool response that holds a BigInt. *)
Definition bigint_input : HookInput :=
  {| session_id := "s1";
     tool_name := "Edit";
     transcript_path := "";
     hi_cwd := "/work";
     hook_event_name := "PostToolUse";
     tool_input := tool_input some_input;
     tool_response := JBigInt 10 |}.

(** Stand-ins for the exports of src/constants.ts: the three tools of
    [PendingCall.tool], and sample failure patterns and event name. *)
Definition tool_names : gset string := {[ "write"; "edit"; "multiedit" ]}.
Definition failure_patterns : list string := ["error:"; "failed to"; "could not"].
Definition event_name : string := "PostToolUse".

Definition edit_args : gmap string jsval :=
  <["filePath" := JStr "/work/a.ts"]>
  (<["oldString" := JStr "// TODO"]>
  (<["newString" := JStr "// TODO: fix"]> ∅)).

Definition edit_call : Hook.HookIn :=
  {| Hook.in_tool := "Edit"; Hook.in_sessionID := "s1"; Hook.in_callID := "call-1" |}.

Definition tool_output (text : string) : Hook.ToolOutput :=
  {| Hook.title := "a.ts"; Hook.output := text; Hook.metadata := JNull |}.

End Scenario.
(* ===================================================================== *)
(** * Facts about the string methods *)
(* ===================================================================== *)

Module JsFacts.
Import Js.

Lemma startsWith_toLowerCase (s p : string) :
  startsWith s p = true -> startsWith (toLowerCase s) (toLowerCase p) = true.
Proof.
  revert s. induction p as [|a p IH]; intros s H; [destruct s; reflexivity|].
  destruct s as [|b s]; simpl in *; [discriminate|].
  apply andb_true_iff in H as [Hab Hrest].
  apply Ascii.eqb_eq in Hab. subst b.
  rewrite Ascii.eqb_refl. simpl. auto.
Qed.

Lemma includes_eq (s p : string) :
  includes s p
  = (startsWith s p
     || match s with EmptyString => false | String _ s' => includes s' p end).
Proof. destruct s; reflexivity. Qed.

Lemma includes_toLowerCase (s p : string) :
  includes s p = true -> includes (toLowerCase s) (toLowerCase p) = true.
Proof.
  induction s as [|b s IH]; intros H; rewrite includes_eq in H;
    apply orb_true_iff in H as [H|H]; rewrite includes_eq.
  - by rewrite (startsWith_toLowerCase _ _ H).
  - discriminate.
  - by rewrite (startsWith_toLowerCase _ _ H).
  - cbn [toLowerCase]. rewrite (IH H). apply orb_true_r.
Qed.

Lemma truthy_str_nonempty (s : string) :
  truthy_str (Some s) = true <-> s <> "".
Proof.
  unfold truthy_str. destruct (String.eqb_spec s ""); simpl; split; intros; congruence.
Qed.

End JsFacts.

(* ===================================================================== *)
(** * Properties of the downloader *)
(* ===================================================================== *)

Module DownloaderSpec.
Import Js Types Sys Downloader.

Lemma join_truthy (a b : string) : truthy_str (Some (join a b)) = true.
Proof. unfold join. destruct a; reflexivity. Qed.

(** ** The downloader returns

    Whatever the network, the disk and the extraction utility do,
    [downloadCommentChecker] and [ensureCommentCheckerBinary] complete with
    a path or with absent: the promise that [getCommentCheckerPath] awaits
    is never rejected. *)

Lemma try_catch_returns {A} (body : M A) (handler : string -> M A) (w : World) :
  (forall e w1, exists a w2, handler e w1 = (Ok a, w2)) ->
  exists a w', try_catch body handler w = (Ok a, w').
Proof.
  intros Hhandler. unfold try_catch.
  destruct (body w) as [[a|e] w1]; [eauto|]. apply Hhandler.
Qed.

Lemma downloadCommentChecker_returns (h : Host) (w : World) :
  exists r w', downloadCommentChecker h w = (Ok r, w').
Proof.
  unfold downloadCommentChecker.
  destruct (PLATFORM_MAP !! platformKey h) as [info|]; [|by eexists _, _].
  unfold bind at 1, existsSync at 1.
  destruct (bool_decide _); [by eexists _, _|].
  apply try_catch_returns. intros e w1. by eexists _, _.
Qed.

Lemma ensureCommentCheckerBinary_returns (h : Host) (w : World) :
  exists r w', ensureCommentCheckerBinary h w = (Ok r, w').
Proof.
  unfold ensureCommentCheckerBinary, getCachedBinaryPath.
  unfold bind at 1. unfold bind at 1, existsSync at 1, ret at 1.
  destruct (truthy_str _); [by eexists _, _|].
  apply downloadCommentChecker_returns.
Qed.

(** ** Platform table *)

(** C7. ["darwin-arm64"] is in the table and its asset is
    [comment-checker_v<version>_darwin_arm64.tar.gz]; ["win32-x64"] is in
    the table and its asset is [comment-checker_v<version>_windows_amd64.zip];
    on a platform whose key has no entry, [downloadCommentChecker] returns
    absent and leaves the world, its history of requests included, as it
    found it. *)
Theorem platform_assets_and_unsupported :
  (forall version,
     (fun p => assetName version p) <$> PLATFORM_MAP !! "darwin-arm64"
     = Some ("comment-checker_v" +:+ version +:+ "_darwin_arm64.tar.gz")) /\
  (forall version,
     (fun p => assetName version p) <$> PLATFORM_MAP !! "win32-x64"
     = Some ("comment-checker_v" +:+ version +:+ "_windows_amd64.zip")) /\
  (forall h w,
     PLATFORM_MAP !! platformKey h = None ->
     downloadCommentChecker h w = (Ok None, w)).
Proof.
  split; [|split].
  - intros version. reflexivity.
  - intros version. reflexivity.
  - intros h w Hnone. unfold downloadCommentChecker. rewrite Hnone. reflexivity.
Qed.

Lemma platform_assets_and_unsupported_witness :
  PLATFORM_MAP !! platformKey (Scenario.machine "win32" "arm64"
                                 (Scenario.child_exiting 0 "" [])) = None /\
  downloadCommentChecker
    (Scenario.machine "win32" "arm64" (Scenario.child_exiting 0 "" []))
    (Scenario.disk [])
  = (Ok None, Scenario.disk []).
Proof.
  split; [reflexivity|].
  destruct platform_assets_and_unsupported as (_ & _ & H).
  apply H. reflexivity.
Defined.

(** ** An executable that is already in the cache *)

Lemma existsSync_present (p : string) (w : World) :
  p ∈ files w -> existsSync p w = (Ok true, w).
Proof. intros H. unfold existsSync. by rewrite bool_decide_eq_true_2. Qed.

Lemma existsSync_missing (p : string) (w : World) :
  p ∉ files w -> existsSync p w = (Ok false, w).
Proof. intros H. unfold existsSync. by rewrite bool_decide_eq_false_2. Qed.

(** C4, as the claim has it, fails: with the executable in the cache of a
    Windows machine on arm64, [downloadCommentChecker] does not return
    the existing path. *)
Lemma cached_binary_returned_counterexample :
  ~ (forall h w,
       binaryPath_of h ∈ files w ->
       downloadCommentChecker h w = (Ok (Some (binaryPath_of h)), w) /\
       ensureCommentCheckerBinary h w = (Ok (Some (binaryPath_of h)), w)).
Proof.
  intros Hclaim.
  destruct (Hclaim (Scenario.machine "win32" "arm64" (Scenario.child_exiting 0 "" []))
              (Scenario.disk
                 ["/home/dev/.cache/opencode-comments-plugin/bin/comment-checker.exe"]))
    as [Hdownload _].
  - vm_compute. reflexivity.
  - vm_compute in Hdownload. discriminate.
Qed.

(** C4, amended. With the executable in the cache directory,
    [ensureCommentCheckerBinary] returns its path and leaves the world
    untouched, so no request is made; [downloadCommentChecker] does the
    same on a platform of the table, and on any other platform returns
    absent, again without a request. *)
Theorem cached_binary_skips_download (h : Host) (w : World) :
  binaryPath_of h ∈ files w ->
  ensureCommentCheckerBinary h w = (Ok (Some (binaryPath_of h)), w) /\
  (is_Some (PLATFORM_MAP !! platformKey h) ->
   downloadCommentChecker h w = (Ok (Some (binaryPath_of h)), w)) /\
  (PLATFORM_MAP !! platformKey h = None ->
   downloadCommentChecker h w = (Ok None, w)).
Proof.
  intros Hin. split; [|split].
  - unfold ensureCommentCheckerBinary, getCachedBinaryPath, bind.
    fold (binaryPath_of h). rewrite (existsSync_present _ _ Hin).
    unfold ret. rewrite (join_truthy _ _ : truthy_str (Some (binaryPath_of h)) = true).
    reflexivity.
  - intros [info Hinfo]. unfold downloadCommentChecker. rewrite Hinfo.
    unfold bind. fold (binaryPath_of h). rewrite (existsSync_present _ _ Hin).
    reflexivity.
  - intros Hnone. unfold downloadCommentChecker. rewrite Hnone. reflexivity.
Qed.

Lemma cached_binary_skips_download_witness :
  let h := Scenario.machine "linux" "x64" (Scenario.child_exiting 0 "" []) in
  let w := Scenario.disk [Scenario.cache_binary] in
  ensureCommentCheckerBinary h w = (Ok (Some Scenario.cache_binary), w) /\
  downloadCommentChecker h w = (Ok (Some Scenario.cache_binary), w) /\
  requests (snd (downloadCommentChecker h w)) = 0%nat.
Proof.
  intros h w.
  destruct (cached_binary_skips_download h w) as (Hensure & Hdownload & _).
  - vm_compute. reflexivity.
  - split; [exact Hensure|].
    assert (Hsupported : is_Some (PLATFORM_MAP !! platformKey h))
      by (eexists; reflexivity).
    rewrite (Hdownload Hsupported). split; reflexivity.
Defined.

(** ** An extraction that fails *)

(** C9, as the claim has it, fails: on a Linux machine whose [tar] exits
    with 1 the download returns absent, and the archive it wrote is still
    in the cache directory. *)
Lemma failed_extraction_cleanup_counterexample :
  ~ (forall h w info proc code,
       PLATFORM_MAP !! platformKey h = Some info ->
       binaryPath_of h ∉ files w ->
       child h (extract_argv h info) = Ok proc ->
       exited proc = Ok code -> code <> 0 ->
       fst (downloadCommentChecker h w) = Ok None /\
       archivePath_of h info ∉ files (snd (downloadCommentChecker h w))).
Proof.
  intros Hclaim.
  set (proc := Scenario.child_exiting 1 "tar: Unexpected EOF in archive"
                 ["/home/dev/.cache/opencode-comments-plugin/bin/comment-checker"]).
  set (info := {| os := "linux"; pi_arch := "amd64"; ext := TarGz |}).
  destruct (Hclaim (Scenario.machine "linux" "x64" proc) (Scenario.disk [])
              info proc 1) as [_ Hgone].
  - reflexivity.
  - vm_compute. intros H. discriminate H.
  - reflexivity.
  - reflexivity.
  - discriminate.
  - apply Hgone. vm_compute. reflexivity.
Qed.

Lemma extraction_fails (h : Host) (info : PlatformInfo) (proc : Subprocess)
    (code : Z) (w : World) :
  child h (extract_argv h info) = Ok proc ->
  exited proc = Ok code ->
  code <> 0 ->
  exists e,
    match ext info with
    | TarGz => extractTarGz h (archivePath_of h info) (getCacheDir h)
    | Zip => extractZip h (archivePath_of h info) (getCacheDir h)
    end w
    = (Throw e, with_files (union (list_to_set (written proc)))
                  (emit (ESpawn (extract_argv h info)) w)).
Proof.
  unfold extract_argv. intros Hchild Hexit Hcode.
  apply Z.eqb_neq in Hcode.
  destruct (ext info); unfold extractTarGz, extractZip, bind, spawn, lift, throw;
    rewrite Hchild, Hexit, Hcode; simpl;
    destruct (stderr_text proc); eauto.
Qed.

Lemma failed_extraction_run (h : Host) (w : World) (info : PlatformInfo)
    (response : Response) (buffer : string) (proc : Subprocess) (code : Z) :
  PLATFORM_MAP !! platformKey h = Some info ->
  binaryPath_of h ∉ files w ->
  (getCacheDir h ∈ files w \/ mkdir_result h (getCacheDir h) = Ok tt) ->
  net h (url_of h info) = Ok response ->
  ok response = true ->
  arrayBuffer response = Ok buffer ->
  write_result h (archivePath_of h info) = Ok tt ->
  child h (extract_argv h info) = Ok proc ->
  exited proc = Ok code ->
  code <> 0 ->
  downloadCommentChecker h w = (Ok None, staged h info proc w).
Proof.
  intros Hinfo Hmissing Hdir Hnet Hok Hbuf Hwrite Hchild Hexit Hcode.
  unfold downloadCommentChecker. rewrite Hinfo.
  unfold bind at 1. fold (binaryPath_of h).
  rewrite (existsSync_missing _ _ Hmissing).
  fold (url_of h info). fold (archivePath_of h info).
  unfold staged, try_catch.
  unfold bind at 1. unfold existsSync at 1.
  case_bool_decide as Hpresent; simpl.
  - unfold bind at 1. unfold ret at 1.
    unfold bind at 1. unfold fetch at 1. rewrite Hnet.
    unfold bind at 1. rewrite Hok. simpl. unfold ret at 1.
    unfold bind at 1. unfold lift at 1. rewrite Hbuf.
    unfold bind at 1. unfold bun_write at 1. rewrite Hwrite.
    unfold bind at 1.
    match goal with
    | |- context [match ext info with TarGz => _ | Zip => _ end ?w0] =>
        destruct (extraction_fails h info proc code w0 Hchild Hexit Hcode) as [e ->]
    end.
    reflexivity.
  - destruct Hdir as [Hdir|Hmk]; [contradiction|].
    unfold bind at 1. unfold mkdirSync at 1. rewrite Hmk.
    unfold bind at 1. unfold fetch at 1. rewrite Hnet.
    unfold bind at 1. rewrite Hok. simpl. unfold ret at 1.
    unfold bind at 1. unfold lift at 1. rewrite Hbuf.
    unfold bind at 1. unfold bun_write at 1. rewrite Hwrite.
    unfold bind at 1.
    match goal with
    | |- context [match ext info with TarGz => _ | Zip => _ end ?w0] =>
        destruct (extraction_fails h info proc code w0 Hchild Hexit Hcode) as [e ->]
    end.
    reflexivity.
Qed.

(** C9, amended. When the archive has been fetched and written and the
    extraction utility exits with a code other than 0,
    [downloadCommentChecker] returns absent and does nothing after the
    extraction: no file is deleted, so the archive stays in the cache
    directory, and so does whatever the utility wrote. *)
Theorem failed_extraction_aborts (h : Host) (w : World) (info : PlatformInfo)
    (response : Response) (buffer : string) (proc : Subprocess) (code : Z) :
  PLATFORM_MAP !! platformKey h = Some info ->
  binaryPath_of h ∉ files w ->
  (getCacheDir h ∈ files w \/ mkdir_result h (getCacheDir h) = Ok tt) ->
  net h (url_of h info) = Ok response ->
  ok response = true ->
  arrayBuffer response = Ok buffer ->
  write_result h (archivePath_of h info) = Ok tt ->
  child h (extract_argv h info) = Ok proc ->
  exited proc = Ok code ->
  code <> 0 ->
  fst (downloadCommentChecker h w) = Ok None /\
  archivePath_of h info ∈ files (snd (downloadCommentChecker h w)) /\
  (forall f, f ∈ written proc -> f ∈ files (snd (downloadCommentChecker h w))) /\
  (forall f, f ∈ files w -> f ∈ files (snd (downloadCommentChecker h w))) /\
  (forall f, EUnlink f ∈ trace (snd (downloadCommentChecker h w)) ->
             EUnlink f ∈ trace w).
Proof.
  intros Hinfo Hmissing Hdir Hnet Hok Hbuf Hwrite Hchild Hexit Hcode.
  rewrite (failed_extraction_run h w info response buffer proc code) by assumption.
  clear. unfold staged. simpl.
  split; [reflexivity|]. split; [|split; [|split]].
  - apply elem_of_union_r, elem_of_union_l. by apply elem_of_singleton.
  - intros f Hf. apply elem_of_union_l. by apply elem_of_list_to_set.
  - intros f Hf. do 2 apply elem_of_union_r.
    case_bool_decide; simpl; [assumption|]. by apply elem_of_union_r.
  - intros f Hf.
    rewrite !elem_of_app in Hf. destruct Hf as [[[Hf|Hf]|Hf]|Hf].
    + case_bool_decide; simpl in Hf; [assumption|].
      apply elem_of_app in Hf as [Hf|Hf]; [assumption|].
      apply list_elem_of_singleton in Hf. discriminate.
    + apply list_elem_of_singleton in Hf. discriminate.
    + apply list_elem_of_singleton in Hf. discriminate.
    + apply list_elem_of_singleton in Hf. discriminate.
Qed.

Lemma failed_extraction_aborts_witness :
  let proc := Scenario.child_exiting 1 "tar: Unexpected EOF in archive"
                ["/home/dev/.cache/opencode-comments-plugin/bin/comment-checker"] in
  let h := Scenario.machine "linux" "x64" proc in
  let w' := snd (downloadCommentChecker h (Scenario.disk [])) in
  fst (downloadCommentChecker h (Scenario.disk [])) = Ok None /\
  "/home/dev/.cache/opencode-comments-plugin/bin/comment-checker_v0.7.0_linux_amd64.tar.gz"
    ∈ files w' /\
  "/home/dev/.cache/opencode-comments-plugin/bin/comment-checker" ∈ files w'.
Proof.
  intros proc h w'.
  destruct (failed_extraction_aborts h (Scenario.disk [])
              {| os := "linux"; pi_arch := "amd64"; ext := TarGz |}
              {| ok := true; statusText := "OK"; arrayBuffer := Ok "archive" |}
              "archive" proc 1)
    as (Hres & Harchive & Hpartial & _).
  - reflexivity.
  - vm_compute. intros H. discriminate H.
  - right. reflexivity.
  - reflexivity.
  - reflexivity.
  - reflexivity.
  - reflexivity.
  - reflexivity.
  - reflexivity.
  - discriminate.
  - split; [exact Hres|]. split; [exact Harchive|].
    apply Hpartial. simpl. apply list_elem_of_here.
Defined.

End DownloaderSpec.
(* ===================================================================== *)
(** * Properties of the check invoker and of the resolver *)
(* ===================================================================== *)

Module CliSpec.
Import Js Types Sys Cli.

Ltac unfold_sys :=
  unfold bind, ret, lift, throw, try_catch, when, note, existsSync,
    write_stdin, spawn in *.

(** ** Lookups read the disk and nothing else *)

Lemma findCommentCheckerPathSync_reads (h : Host) (w : World) :
  exists found, findCommentCheckerPathSync h w = (Ok found, w).
Proof.
  unfold findCommentCheckerPathSync. unfold_sys.
  destruct (pkg_dir h) as [dir|e]; simpl.
  - case_bool_decide; simpl; [eauto|].
    case_bool_decide; simpl; eauto. destruct (negb _); eauto.
  - case_bool_decide; simpl; eauto. destruct (negb _); eauto.
Qed.

Lemma findCommentCheckerPathSync_emit (h : Host) (e : effect) (w : World) :
  fst (findCommentCheckerPathSync h (emit e w)) = fst (findCommentCheckerPathSync h w).
Proof.
  unfold findCommentCheckerPathSync. unfold_sys.
  destruct (pkg_dir h) as [dir|err]; simpl.
  - case_bool_decide; simpl; [reflexivity|].
    case_bool_decide; simpl; [|reflexivity]. destruct (negb _); reflexivity.
  - case_bool_decide; simpl; [|reflexivity]. destruct (negb _); reflexivity.
Qed.

Lemma binaryPath_of_reads (h : Host) (resolved : option string)
    (options : RunOptions) (w : World) :
  exists bp, binaryPath_of h resolved options w = (Ok bp, w).
Proof.
  unfold binaryPath_of, getCommentCheckerPathSync.
  destruct (nullish_str _ _); [by eexists|].
  destruct resolved; [by eexists|].
  apply findCommentCheckerPathSync_reads.
Qed.

Lemma binaryPath_of_emit (h : Host) (resolved : option string)
    (options : RunOptions) (e : effect) (w : World) :
  fst (binaryPath_of h resolved options (emit e w))
  = fst (binaryPath_of h resolved options w).
Proof.
  unfold binaryPath_of, getCommentCheckerPathSync.
  destruct (nullish_str _ _); [reflexivity|].
  destruct resolved; [reflexivity|].
  apply findCommentCheckerPathSync_emit.
Qed.

(** The outcome, once the binary path is known. *)
Lemma runCommentChecker_at (h : Host) (resolved : option string)
    (input : HookInput) (options : RunOptions) (w : World) (bp : option string) :
  fst (binaryPath_of h resolved options w) = Ok bp ->
  fst (runCommentChecker h resolved input options w)
  = match bp with
    | None => Ok no_comments
    | Some path =>
      if negb (truthy_str (Some path)) then Ok no_comments
      else if negb (bool_decide (path ∈ files w)) then Ok no_comments
      else match stringify h input with
           | Throw e => Throw e
           | Ok jsonInput =>
             Ok match child h (argv_of path options) with
                | Throw _ => no_comments
                | Ok proc =>
                  match conversation proc jsonInput with
                  | Throw _ => no_comments
                  | Ok (stderr, exitCode) =>
                    if exitCode =? 0 then no_comments
                    else if exitCode =? 2
                         then {| hasComments := true; message := stderr |}
                         else no_comments
                  end
                end
           end
    end.
Proof.
  intros Hbp.
  rewrite <- (binaryPath_of_emit _ _ _ (ECheck input)) in Hbp.
  destruct (binaryPath_of_reads h resolved options (emit (ECheck input) w))
    as [bp' Hrun].
  rewrite Hrun in Hbp; simpl in Hbp. injection Hbp as ->.
  unfold runCommentChecker.
  unfold bind at 1. unfold note. unfold bind at 1. rewrite Hrun.
  destruct bp as [path|]; [|reflexivity].
  destruct (negb (truthy_str (Some path))); [reflexivity|].
  unfold bind at 1. unfold existsSync. simpl.
  destruct (bool_decide (path ∈ files w)); simpl; [|reflexivity].
  unfold bind at 1, lift at 1.
  destruct (stringify h input) as [jsonInput|e]; [|reflexivity].
  unfold try_catch, bind at 1. unfold spawn.
  destruct (child h (argv_of path options)) as [proc|e]; [|reflexivity].
  unfold conversation, bind, write_stdin, lift, ret.
  destruct (stdin_write proc jsonInput); [|reflexivity].
  destruct (stdin_end proc); [|reflexivity].
  destruct (stdout_text proc); [|reflexivity].
  destruct (stderr_text proc) as [stderr|]; [|reflexivity].
  destruct (exited proc) as [exitCode|]; [|reflexivity].
  destruct (exitCode =? 0); [reflexivity|].
  destruct (exitCode =? 2); reflexivity.
Qed.

(** C3. The code does not keep to the claim: [JSON.stringify(input)]
    stands before the [try], so a hook input that cannot be serialised
    makes [runCommentChecker] raise, while the [catch] gives the empty
    result for every later step. With the binary on disk and a tool
    response that holds a BigInt, the check ends in the [TypeError] of
    [JSON.stringify], before any child is spawned, where the claim has the
    empty result. *)
Theorem runCommentChecker_raises_on_unserialisable_input :
  let h := Scenario.machine "linux" "x64" (Scenario.child_exiting 0 "" []) in
  let options := {| cliPath := Some "/opt/cc"; prompt := None |} in
  let w := Scenario.disk ["/opt/cc"] in
  located h None options w = Ok (Some "/opt/cc") /\
  "/opt/cc" ∈ files w /\
  stringify h Scenario.bigint_input = Throw "TypeError" /\
  checked h None Scenario.bigint_input options w = Throw "TypeError" /\
  trace (snd (runCommentChecker h None Scenario.bigint_input options w))
  = [ECheck Scenario.bigint_input].
Proof.
  intros h options w.
  split; [reflexivity|]. split; [vm_compute; reflexivity|].
  split; [reflexivity|]. split; reflexivity.
Qed.

(** ** The resolver *)

Lemma consistent_initial : consistent initial [].
Proof. repeat split. Qed.

Lemma getCommentCheckerPath_consistent (h : Host) (w : World) (s s' : Resolver)
    (hs : list handle) (pr : handle) :
  consistent s hs ->
  getCommentCheckerPath h w s = (s', pr) ->
  consistent s' (hs ++ [pr]) /\ (initPromise s = None -> pr = HPromise 0).
Proof.
  unfold consistent, getCommentCheckerPath. intros Hs Hcall.
  destruct (resolvedCliPath s) as [path|] eqn:Hres.
  - injection Hcall as <- <-.
    destruct (initPromise s) as [pr0|]; [|destruct Hs; discriminate].
    destruct Hs as (-> & c & Hp & Hlog & Hc & Hhs).
    split; [|discriminate].
    split; [reflexivity|]. exists c. repeat split; try assumption.
    + intros v Hv. apply Hc. congruence.
    + apply Forall_app. split; [assumption|].
      constructor; [|constructor]. right. exists path. split; [reflexivity|].
      by apply Hc.
  - destruct (initPromise s) as [pr0|] eqn:Hinit.
    + injection Hcall as <- <-. rewrite Hinit, Hres.
      destruct Hs as (-> & c & Hp & Hlog & Hc & Hhs).
      split; [|discriminate].
      split; [reflexivity|]. exists c. repeat split; try assumption.
      apply Forall_app. split; [assumption|].
      constructor; [|constructor]. left. reflexivity.
    + destruct Hs as (_ & Hp & Hlog & ->). rewrite Hp, Hlog in Hcall. simpl in Hcall.
      destruct (syncPath h w) as [path|]; injection Hcall as <- <-; simpl.
      * split; [|reflexivity]. split; [reflexivity|].
        exists (Fulfilled (Some path)). repeat split.
        -- left. split; [reflexivity|discriminate].
        -- intros v Hv. congruence.
        -- constructor; [|constructor]. left. reflexivity.
      * split; [|reflexivity]. split; [reflexivity|].
        exists Pending. repeat split.
        -- right. reflexivity.
        -- intros v Hv. discriminate.
        -- constructor; [|constructor]. left. reflexivity.
Qed.

Lemma resume_consistent (p : nat) (r : option string) (s : Resolver)
    (hs : list handle) :
  consistent s hs -> consistent (resume p r s) hs.
Proof.
  unfold consistent, resume. intros Hs.
  destruct (promises s !! p) as [[|v]|] eqn:Hp; try assumption.
  destruct (initPromise s) as [pr0|] eqn:Hinit.
  - destruct Hs as (-> & c & Hps & Hlog & Hc & Hhs).
    rewrite Hps in Hp. destruct p as [|p]; [|discriminate].
    injection Hp as ->.
    assert (Hhs' : Forall (fun hd => hd = HPromise 0) hs).
    { eapply Forall_impl; [exact Hhs|]. intros hd [H|(v & _ & H)]; [assumption|discriminate]. }
    destruct (truthy_str r) eqn:Htruthy; simpl; rewrite Hps; simpl.
    + split; [reflexivity|]. exists (Fulfilled r). repeat split.
      * destruct Hlog as [[_ Hne]|Hlog]; [congruence|]. right. assumption.
      * intros v ->. reflexivity.
      * eapply Forall_impl; [exact Hhs'|]. intros hd ->. left. reflexivity.
    + split; [reflexivity|]. exists (Fulfilled None). repeat split.
      * destruct Hlog as [[_ Hne]|Hlog]; [congruence|]. right. assumption.
      * intros v Hv. specialize (Hc v Hv). discriminate.
      * eapply Forall_impl; [exact Hhs'|]. intros hd ->. left. reflexivity.
  - destruct Hs as (_ & Hps & _). rewrite Hps in Hp. discriminate.
Qed.

Lemma step_consistent (h : Host) (e : event) (s s' : Resolver)
    (hs hs1 : list handle) :
  consistent s hs -> step h s e = (s', hs1) -> consistent s' (hs ++ hs1).
Proof.
  intros Hs Hstep. destruct e as [w|w|p r]; simpl in Hstep.
  - destruct (getCommentCheckerPath h w s) as [s1 pr] eqn:Hcall.
    injection Hstep as <- <-.
    eapply getCommentCheckerPath_consistent; eassumption.
  - injection Hstep as <- <-. rewrite app_nil_r.
    unfold startBackgroundInit.
    destruct (initPromise s) as [pr0|] eqn:Hinit; [assumption|].
    destruct (getCommentCheckerPath h w s) as [s1 pr] eqn:Hcall.
    destruct (getCommentCheckerPath_consistent _ _ _ _ _ _ Hs Hcall) as [H1 Hpr].
    specialize (Hpr Hinit). subst pr.
    unfold consistent in Hs. rewrite Hinit in Hs. destruct Hs as (_ & _ & _ & ->).
    unfold consistent in *. simpl in *.
    destruct (initPromise s1) as [pr1|].
    + destruct H1 as (_ & c & Hp & Hlog & Hc & _).
      split; [reflexivity|]. exists c. repeat split; try assumption. constructor.
    + destruct H1 as (_ & _ & _ & H). discriminate.
  - injection Hstep as <- <-. rewrite app_nil_r. by apply resume_consistent.
Qed.

Lemma run_consistent (h : Host) (es : list event) (s s' : Resolver)
    (hs hs' : list handle) :
  consistent s hs -> run h s es = (s', hs') -> consistent s' (hs ++ hs').
Proof.
  revert s hs s' hs'. induction es as [|e es IH]; intros s hs s' hs' Hs Hrun; simpl in Hrun.
  - injection Hrun as <- <-. by rewrite app_nil_r.
  - destruct (step h s e) as [s1 hs1] eqn:Hstep.
    destruct (run h s1 es) as [s2 hs2] eqn:Hrest.
    injection Hrun as <- <-.
    rewrite app_assoc. eapply IH; [|eassumption].
    eapply step_consistent; eassumption.
Qed.

(** A handle of a consistent state awaits like promise 0. *)
Lemma consistent_await (s : Resolver) (hs : list handle) (hd : handle) :
  consistent s hs -> In hd hs -> await s hd = await s (HPromise 0).
Proof.
  unfold consistent. intros Hs Hin.
  destruct (initPromise s) as [pr|].
  - destruct Hs as (_ & c & Hp & _ & _ & Hhs).
    rewrite Forall_forall in Hhs. apply list_elem_of_In in Hin.
    destruct (Hhs _ Hin) as [->|(v & -> & ->)]; [reflexivity|].
    simpl. rewrite Hp. reflexivity.
  - destruct Hs as (_ & _ & _ & ->). destruct Hin.
Qed.

Lemma consistent_started (s : Resolver) (hs : list handle) :
  consistent s hs -> hs <> [] -> exists pr, initPromise s = Some pr.
Proof.
  unfold consistent. intros Hs Hne.
  destruct (initPromise s) as [pr|]; [eauto|].
  destruct Hs as (_ & _ & _ & ->). contradiction.
Qed.

(** Once [initPromise] is set, no step starts anything and no settled
    promise changes. *)
Lemma resume_keeps (p : nat) (r : option string) (s : Resolver) :
  log (resume p r s) = log s /\
  initPromise (resume p r s) = initPromise s /\
  forall hd v, await s hd = Some v -> await (resume p r s) hd = Some v.
Proof.
  unfold resume.
  destruct (promises s !! p) as [[|v0]|] eqn:Hp; try by repeat split.
  assert (Hkeep : forall (c : cell) hd v,
            await s hd = Some v ->
            await {| resolvedCliPath := resolvedCliPath s;
                     initPromise := initPromise s;
                     promises := <[p := c]> (promises s);
                     log := log s |} hd = Some v).
  { intros c [v1|q] v; simpl; [done|].
    destruct (decide (p = q)) as [->|Hne].
    - rewrite Hp. discriminate.
    - rewrite list_lookup_insert_ne by done. done. }
  destruct (truthy_str r); repeat split; try reflexivity.
  - intros hd v Hv. specialize (Hkeep (Fulfilled r) hd v Hv).
    destruct hd; simpl in *; assumption.
  - intros hd v Hv. apply (Hkeep (Fulfilled None) hd v Hv).
Qed.

Lemma step_keeps (h : Host) (e : event) (s : Resolver) (pr : handle) :
  initPromise s = Some pr ->
  log (fst (step h s e)) = log s /\
  initPromise (fst (step h s e)) = Some pr /\
  forall hd v, await s hd = Some v -> await (fst (step h s e)) hd = Some v.
Proof.
  intros Hinit. destruct e as [w|w|p r]; simpl.
  - unfold getCommentCheckerPath. rewrite Hinit.
    destruct (resolvedCliPath s); simpl; by repeat split.
  - unfold startBackgroundInit. rewrite Hinit. by repeat split.
  - destruct (resume_keeps p r s) as (Hlog & Hinit' & Hawait).
    rewrite Hinit' , Hinit. by repeat split.
Qed.

Lemma run_keeps (h : Host) (es : list event) (s : Resolver) (pr : handle) :
  initPromise s = Some pr ->
  log (fst (run h s es)) = log s /\
  forall hd v, await s hd = Some v -> await (fst (run h s es)) hd = Some v.
Proof.
  revert s. induction es as [|e es IH]; intros s Hinit; simpl; [by split|].
  destruct (step_keeps h e s pr Hinit) as (Hlog & Hinit' & Hawait).
  destruct (step h s e) as [s1 hs1]. simpl in *.
  destruct (IH s1 Hinit') as [Hlog' Hawait'].
  destruct (run h s1 es) as [s2 hs2]. simpl in *.
  split; [congruence|]. eauto.
Qed.

(** C2. From the initial state and for every interleaving [es] of calls
    of [getCommentCheckerPath], [startBackgroundInit] and settled
    downloads: once a caller holds a handle, exactly one lookup and at
    most one download have been started; at every moment all handles
    await alike; when the download settles every handle is settled; and
    once some caller has seen an outcome [r], a path or absent, whatever
    happens [later] starts nothing and gives [r] to every caller, old
    and new. *)
Theorem getCommentCheckerPath_single_flight (h : Host) (es later : list event)
    (s s' : Resolver) (hs hs' : list handle) :
  run h initial es = (s, hs) ->
  run h s later = (s', hs') ->
  (hs <> [] -> lookups s = 1%nat /\ (downloads s <= 1)%nat) /\
  (forall h1 h2, In h1 hs -> In h2 hs -> await s h1 = await s h2) /\
  (forall r h1, In h1 hs -> exists v, await (resume 0 r s) h1 = Some v) /\
  (forall h1 r, In h1 hs -> await s h1 = Some r ->
     log s' = log s /\
     forall h2, In h2 (hs ++ hs') -> await s' h2 = Some r).
Proof.
  intros Hrun Hlater.
  pose proof (run_consistent h es initial s [] hs consistent_initial Hrun) as Hs.
  simpl in Hs.
  pose proof (run_consistent h later s s' hs hs' Hs Hlater) as Hs'.
  split; [|split; [|split]].
  - intros Hne. destruct (consistent_started s hs Hs Hne) as [pr Hinit].
    unfold consistent in Hs. rewrite Hinit in Hs.
    destruct Hs as (_ & c & _ & Hlog & _).
    unfold lookups, downloads.
    destruct Hlog as [[-> _]| ->]; vm_compute; split; lia.
  - intros h1 h2 H1 H2.
    rewrite (consistent_await s hs h1 Hs H1), (consistent_await s hs h2 Hs H2).
    reflexivity.
  - intros r h1 H1.
    pose proof (resume_consistent 0 r s hs Hs) as Hr.
    rewrite (consistent_await _ hs h1 Hr H1).
    assert (Hne : hs <> []) by (intros ->; destruct H1).
    destruct (consistent_started s hs Hs Hne) as [pr Hinit].
    unfold consistent in Hs. rewrite Hinit in Hs.
    destruct Hs as (_ & c & Hp & _ & _ & _).
    unfold resume. rewrite Hp. simpl.
    destruct c as [|v]; simpl.
    + destruct (truthy_str r); simpl; eauto.
    + rewrite Hp. simpl. eauto.
  - intros h1 r H1 Hr.
    assert (Hne : hs <> []) by (intros ->; destruct H1).
    destruct (consistent_started s hs Hs Hne) as [pr Hinit].
    destruct (run_keeps h later s pr Hinit) as [Hlog Hawait].
    rewrite Hlater in Hlog, Hawait. simpl in Hlog, Hawait.
    split; [assumption|].
    intros h2 H2.
    assert (H1' : In h1 (hs ++ hs')) by (apply in_or_app; by left).
    rewrite (consistent_await s' _ h2 Hs' H2).
    rewrite <- (consistent_await s' _ h1 Hs' H1').
    by apply Hawait.
Qed.

(** A run: the plugin starts on a machine with nothing installed, two
    callers ask while the download is in flight, the download fails, and
    two more callers ask afterwards. One lookup, one download, and all
    four are told "absent". *)
Lemma getCommentCheckerPath_single_flight_witness :
  let h := Scenario.machine "linux" "x64" (Scenario.child_exiting 0 "" []) in
  let w := Scenario.disk [] in
  let s := fst (run h initial [EvBackground w; EvCall w; EvCall w]) in
  let hs := snd (run h initial [EvBackground w; EvCall w; EvCall w]) in
  let s1 := fst (run h initial [EvBackground w; EvCall w; EvCall w; EvSettled 0 None]) in
  let s2 := fst (run h s1 [EvCall w; EvCall w]) in
  let hs2 := snd (run h s1 [EvCall w; EvCall w]) in
  hs = [HPromise 0; HPromise 0] /\
  (lookups s = 1 /\ downloads s = 1)%nat /\
  log s2 = log s /\
  forall hd, In hd (hs ++ hs2) -> await s2 hd = Some None.
Proof.
  intros h w s hs s1 s2 hs2.
  pose proof (getCommentCheckerPath_single_flight h
                [EvBackground w; EvCall w; EvCall w; EvSettled 0 None]
                [EvCall w; EvCall w] s1 s2 hs hs2 eq_refl eq_refl)
    as (Hcount & _ & _ & Hcached).
  destruct (Hcached (HPromise 0) None) as [Hlog Hall].
  - left. reflexivity.
  - reflexivity.
  - split; [reflexivity|]. split; [split; reflexivity|].
    split; [exact Hlog|exact Hall].
Defined.

End CliSpec.

(* ===================================================================== *)
(** * Properties of the pending-call table *)
(* ===================================================================== *)

Module HookSpec.
Import Js Types Sys Hook.

(** ** The sweep *)

(** The loop, for any starting accumulator: an entry of the accumulator
    survives unless the iteration met it and found it expired. *)
Lemma sweep_fold_lookup (now : Z) (acc table : gmap string PendingCall) (c : string) :
  map_fold
    (fun callID call (r : gmap string PendingCall) =>
       if expired now call then delete callID r else r) acc table !! c
  = match table !! c with
    | Some call => if expired now call then None else acc !! c
    | None => acc !! c
    end.
Proof.
  revert c.
  apply (map_fold_weak_ind
           (fun r (m : gmap string PendingCall) =>
              forall c, r !! c = match m !! c with
                                 | Some call => if expired now call then None else acc !! c
                                 | None => acc !! c
                                 end)).
  - intros c. by rewrite lookup_empty.
  - intros i x m r Hfresh IH c.
    destruct (decide (i = c)) as [->|Hne].
    + rewrite lookup_insert_eq.
      destruct (expired now x).
      * apply lookup_delete_eq.
      * rewrite IH, Hfresh. reflexivity.
    + rewrite lookup_insert_ne by done.
      destruct (expired now x).
      * rewrite lookup_delete_ne by done. apply IH.
      * apply IH.
Qed.

Lemma cleanup_lookup (now : Z) (st : Plugin) (c : string) :
  pendingCalls (cleanupOldPendingCalls now st) !! c
  = match pendingCalls st !! c with
    | Some call => if expired now call then None else Some call
    | None => None
    end.
Proof.
  unfold cleanupOldPendingCalls, with_pending; simpl.
  rewrite sweep_fold_lookup.
  destruct (pendingCalls st !! c) as [call|] eqn:E; [|reflexivity].
  destruct (expired now call); reflexivity.
Qed.

Lemma expired_true (now : Z) (call : PendingCall) :
  expired now call = true <-> now - timestamp call > 60000.
Proof. unfold expired, PENDING_CALL_TTL. rewrite Z.gtb_gt. lia. Qed.

Lemma expired_false (now : Z) (call : PendingCall) :
  expired now call = false <-> now - timestamp call <= 60000.
Proof.
  unfold expired, PENDING_CALL_TTL.
  destruct (Z.gtb_spec (now - timestamp call) 60000); split; intros; (congruence || lia).
Qed.

Lemma take_absent (c : string) (st : Plugin) :
  pendingCalls st !! c = None -> take c st = (None, st).
Proof. intros H. unfold take. by rewrite H. Qed.

Lemma take_present (c : string) (st : Plugin) (v : PendingCall) :
  pendingCalls st !! c = Some v ->
  take c st = (Some v, with_pending (delete c) st).
Proof. intros H. unfold take. by rewrite H. Qed.


(** C5. A sweep at time [now] removes an entry whose age exceeds the TTL
    of 60 seconds, so that a take of its identifier then finds nothing,
    whether or not a take was ever made before; an entry whose age does
    not exceed the TTL is left as it is. *)
Theorem sweep_removes_expired (now : Z) (st : Plugin) (c : string)
    (call : PendingCall) :
  pendingCalls st !! c = Some call ->
  (now - timestamp call > 60000 ->
   take c (cleanupOldPendingCalls now st) = (None, cleanupOldPendingCalls now st)) /\
  (now - timestamp call <= 60000 ->
   pendingCalls (cleanupOldPendingCalls now st) !! c = Some call /\
   fst (take c (cleanupOldPendingCalls now st)) = Some call).
Proof.
  intros Hentry. split.
  - intros Hold. apply take_absent. rewrite cleanup_lookup, Hentry.
    by rewrite (proj2 (expired_true now call) Hold).
  - intros Hyoung.
    assert (Hkept : pendingCalls (cleanupOldPendingCalls now st) !! c = Some call).
    { rewrite cleanup_lookup, Hentry.
      by rewrite (proj2 (expired_false now call) Hyoung). }
    split; [exact Hkept|]. by rewrite (take_present _ _ _ Hkept).
Qed.

Lemma sweep_removes_expired_witness :
  let old := pendingCall_of 1000 Scenario.edit_call Scenario.edit_args in
  let young := pendingCall_of 50000 Scenario.edit_call Scenario.edit_args in
  let st := {| pendingCalls := <["stale" := old]> (<["fresh" := young]> ∅);
               customPrompt := None |} in
  fst (take "stale" (cleanupOldPendingCalls 61001 st)) = None /\
  fst (take "fresh" (cleanupOldPendingCalls 61001 st)) = Some young.
Proof.
  intros old young st. split.
  - destruct (sweep_removes_expired 61001 st "stale" old) as [Hgone _];
      [reflexivity|].
    rewrite Hgone; [reflexivity|]. simpl. lia.
  - destruct (sweep_removes_expired 61001 st "fresh" young) as [_ Hkept];
      [reflexivity|].
    apply Hkept. simpl. lia.
Defined.

Section WithConstants.

Variable COMMENT_CHECKER_EVENT : string.
Variable OUTPUT_FAILURE_PATTERNS : list string.
Variable TOOL_NAMES : gset string.

Local Abbreviation before := (before TOOL_NAMES).
Local Abbreviation after := (after COMMENT_CHECKER_EVENT OUTPUT_FAILURE_PATTERNS).
Local Abbreviation isToolFailure := (isToolFailure OUTPUT_FAILURE_PATTERNS).
Local Abbreviation hookInput_of := (hookInput_of COMMENT_CHECKER_EVENT).
Local Abbreviation table_step := (table_step TOOL_NAMES).

(** ** The two hooks, case by case *)

Lemma before_records (now : Z) (input : HookIn) (args : gmap string jsval)
    (st : Plugin) :
  toLowerCase (in_tool input) ∈ TOOL_NAMES ->
  truthy (filePath_arg args) = true ->
  before now input args st
  = with_pending (insert (in_callID input) (pendingCall_of now input args)) st.
Proof.
  intros Htool Hpath. unfold Hook.before.
  rewrite bool_decide_eq_true_2 by done. simpl. rewrite Hpath. reflexivity.
Qed.

Lemma before_other (now : Z) (input : HookIn) (args : gmap string jsval)
    (st : Plugin) (c : string) :
  in_callID input <> c ->
  pendingCalls (before now input args st) !! c = pendingCalls st !! c.
Proof.
  intros Hne. unfold Hook.before.
  destruct (negb (bool_decide _)); [reflexivity|].
  destruct (negb (truthy _)); [reflexivity|].
  simpl. by rewrite lookup_insert_ne.
Qed.

(** The after-hook of a call that has no entry. *)
Lemma after_unmatched (h : Host) (cliPathPromise : outcome (option string))
    (resolved : option string) (input : HookIn) (out : ToolOutput)
    (st : Plugin) (w : World) :
  pendingCalls st !! in_callID input = None ->
  after h cliPathPromise resolved input out st w = (Ok (st, out), w).
Proof. intros Habsent. unfold Hook.after. by rewrite (take_absent _ _ Habsent). Qed.

(** The after-hook of a call whose output reports a failure. *)
Lemma after_failure (h : Host) (cliPathPromise : outcome (option string))
    (resolved : option string) (input : HookIn) (out : ToolOutput)
    (st : Plugin) (w : World) (pendingCall : PendingCall) :
  pendingCalls st !! in_callID input = Some pendingCall ->
  isToolFailure (output out) = true ->
  after h cliPathPromise resolved input out st w
  = (Ok (with_pending (delete (in_callID input)) st, out), w).
Proof.
  intros Hentry Hfail. unfold Hook.after.
  rewrite (take_present _ _ _ Hentry), Hfail. reflexivity.
Qed.

(** The after-hook when no usable binary path comes out of the promise. *)
Lemma after_unavailable (h : Host) (cliPathPromise : outcome (option string))
    (resolved : option string) (input : HookIn) (out : ToolOutput)
    (st : Plugin) (w : World) (pendingCall : PendingCall) :
  pendingCalls st !! in_callID input = Some pendingCall ->
  isToolFailure (output out) = false ->
  (forall path, cliPathPromise = Ok (Some path) -> path = "" \/ path ∉ files w) ->
  after h cliPathPromise resolved input out st w
  = (Ok (with_pending (delete (in_callID input)) st, out), w).
Proof.
  intros Hentry Hfail Hpath. unfold Hook.after.
  rewrite (take_present _ _ _ Hentry), Hfail.
  unfold try_catch, bind at 1, lift.
  destruct cliPathPromise as [[path|]|e]; try reflexivity.
  unfold bind at 1.
  destruct (truthy_str (Some path)) eqn:Htruthy; simpl; [|reflexivity].
  apply JsFacts.truthy_str_nonempty in Htruthy.
  destruct (Hpath path eq_refl) as [->|Hmissing]; [contradiction|].
  rewrite bool_decide_eq_false_2 by done. reflexivity.
Qed.

(** The after-hook when the checker runs. *)
Lemma after_checked (h : Host) (resolved : option string) (input : HookIn)
    (out : ToolOutput) (st : Plugin) (w w' : World) (pendingCall : PendingCall)
    (path : string) (result : CheckResult) :
  pendingCalls st !! in_callID input = Some pendingCall ->
  isToolFailure (output out) = false ->
  path <> "" ->
  path ∈ files w ->
  Cli.runCommentChecker h resolved (hookInput_of h pendingCall)
    {| Cli.cliPath := None; Cli.prompt := customPrompt st |} w = (Ok result, w') ->
  after h (Ok (Some path)) resolved input out st w
  = (Ok (with_pending (delete (in_callID input)) st, merged out result), w').
Proof.
  intros Hentry Hfail Hne Hin Hrun. unfold Hook.after.
  rewrite (take_present _ _ _ Hentry), Hfail.
  unfold try_catch, bind at 1, lift.
  apply JsFacts.truthy_str_nonempty in Hne.
  unfold bind at 1. rewrite Hne. simpl.
  rewrite bool_decide_eq_true_2 by done. simpl.
  unfold bind at 1. rewrite Hrun.
  unfold merged. destruct (hasComments result && _); reflexivity.
Qed.

(** The after-hook when the checker raises: its own [catch] takes it. *)
Lemma after_check_throws (h : Host) (resolved : option string) (input : HookIn)
    (out : ToolOutput) (st : Plugin) (w w' : World) (pendingCall : PendingCall)
    (path : string) (e : string) :
  pendingCalls st !! in_callID input = Some pendingCall ->
  isToolFailure (output out) = false ->
  path <> "" ->
  path ∈ files w ->
  Cli.runCommentChecker h resolved (hookInput_of h pendingCall)
    {| Cli.cliPath := None; Cli.prompt := customPrompt st |} w = (Throw e, w') ->
  after h (Ok (Some path)) resolved input out st w
  = (Ok (with_pending (delete (in_callID input)) st, out), w').
Proof.
  intros Hentry Hfail Hne Hin Hrun. unfold Hook.after.
  rewrite (take_present _ _ _ Hentry), Hfail.
  unfold try_catch, bind at 1, lift.
  apply JsFacts.truthy_str_nonempty in Hne.
  unfold bind at 1. rewrite Hne. simpl.
  rewrite bool_decide_eq_true_2 by done. simpl.
  unfold bind at 1. rewrite Hrun. reflexivity.
Qed.

(** Every after-hook returns, and what it leaves in the table is what
    [take] leaves. *)
Lemma after_returns (h : Host) (cliPathPromise : outcome (option string))
    (resolved : option string) (input : HookIn) (out : ToolOutput)
    (st : Plugin) (w : World) :
  exists out' w',
    after h cliPathPromise resolved input out st w
    = (Ok (snd (take (in_callID input) st), out'), w').
Proof.
  destruct (pendingCalls st !! in_callID input) as [pendingCall|] eqn:Hentry.
  - rewrite (take_present _ _ _ Hentry). simpl.
    destruct (isToolFailure (output out)) eqn:Hfail.
    { rewrite (after_failure _ _ _ _ _ _ _ _ Hentry Hfail). eauto. }
    destruct cliPathPromise as [[path|]|e].
    + destruct (String.eqb_spec path "") as [->|Hne].
      { rewrite (after_unavailable _ _ _ _ _ _ w _ Hentry Hfail); [eauto|].
        intros path Hpath. injection Hpath as <-. by left. }
      destruct (decide (path ∈ files w)) as [Hin|Hmissing].
      * destruct (Cli.runCommentChecker h resolved (hookInput_of h pendingCall)
                    {| Cli.cliPath := None; Cli.prompt := customPrompt st |} w)
          as [[result|err] w'] eqn:Hrun.
        -- rewrite (after_checked _ _ _ _ _ _ _ _ _ _ Hentry Hfail Hne Hin Hrun).
           eauto.
        -- rewrite (after_check_throws _ _ _ _ _ _ _ _ _ _ Hentry Hfail Hne Hin Hrun).
           eauto.
      * rewrite (after_unavailable _ _ _ _ _ _ w _ Hentry Hfail); [eauto|].
        intros path' Hpath. injection Hpath as <-. by right.
    + rewrite (after_unavailable _ _ _ _ _ _ w _ Hentry Hfail); [eauto|].
      intros path Hpath. discriminate.
    + rewrite (after_unavailable _ _ _ _ _ _ w _ Hentry Hfail); [eauto|].
      intros path Hpath. discriminate.
  - rewrite (take_absent _ _ Hentry), (after_unmatched _ _ _ _ _ _ _ Hentry).
    eauto.
Qed.

Lemma table_step_spares (c : string) (call : PendingCall) (st : Plugin)
    (e : table_event) :
  spares c call e ->
  pendingCalls st !! c = Some call ->
  pendingCalls (table_step st e) !! c = Some call.
Proof.
  destruct e as [now input args|callID|now]; intros Hspare Hentry;
    unfold Hook.table_step, spares in *.
  - by rewrite before_other.
  - unfold take. destruct (pendingCalls st !! callID); [|assumption].
    simpl. by rewrite lookup_delete_ne.
  - rewrite cleanup_lookup, Hentry.
    by rewrite (proj2 (expired_false now call) Hspare).
Qed.

Lemma table_run_spares (c : string) (call : PendingCall) (es : list table_event)
    (st : Plugin) :
  Forall (spares c call) es ->
  pendingCalls st !! c = Some call ->
  pendingCalls (foldl table_step st es) !! c = Some call.
Proof.
  intros Hes. revert st. induction Hes as [|e es He Hes IH]; intros st Hentry.
  - assumption.
  - simpl. apply IH. by apply table_step_spares.
Qed.

Lemma table_step_absent (c : string) (st : Plugin) (e : table_event) :
  records_other c e ->
  pendingCalls st !! c = None ->
  pendingCalls (table_step st e) !! c = None.
Proof.
  destruct e as [now input args|callID|now]; intros Hother Habsent;
    unfold Hook.table_step, records_other in *.
  - by rewrite before_other.
  - unfold take. destruct (pendingCalls st !! callID); [|assumption].
    simpl. destruct (decide (callID = c)) as [->|Hne].
    + apply lookup_delete_eq.
    + by rewrite lookup_delete_ne.
  - by rewrite cleanup_lookup, Habsent.
Qed.

Lemma table_run_absent (c : string) (es : list table_event) (st : Plugin) :
  Forall (records_other c) es ->
  pendingCalls st !! c = None ->
  pendingCalls (foldl table_step st es) !! c = None.
Proof.
  intros Hes. revert st. induction Hes as [|e es He Hes IH]; intros st Habsent.
  - assumption.
  - simpl. apply IH. by apply table_step_absent.
Qed.

(** C1. Once the before-hook of call [c] has recorded [v], and as long
    as only hooks of other calls and sweeps within the TTL of [v]
    happen, the first take of [c] returns [v] and removes the entry,
    and a second take returns absent, at once or after any events other
    than a new before-hook of [c]; the after-hook of [c] leaves the
    table without the entry, and a second after-hook of [c] finds
    nothing and changes nothing. *)
Theorem take_after_record_once (now : Z) (input : HookIn)
    (args : gmap string jsval) (st : Plugin) (es : list table_event) :
  toLowerCase (in_tool input) ∈ TOOL_NAMES ->
  truthy (filePath_arg args) = true ->
  Forall (spares (in_callID input) (pendingCall_of now input args)) es ->
  let c := in_callID input in
  let v := pendingCall_of now input args in
  let st1 := foldl table_step (before now input args st) es in
  let st2 := with_pending (delete c) st1 in
  take c st1 = (Some v, st2) /\
  pendingCalls st2 !! c = None /\
  take c st2 = (None, st2) /\
  (forall es', Forall (records_other c) es' ->
     fst (take c (foldl table_step st2 es')) = None) /\
  (forall h cliPathPromise resolved out w,
     exists out' w',
       after h cliPathPromise resolved input out st1 w = (Ok (st2, out'), w')) /\
  (forall h cliPathPromise resolved out w,
     after h cliPathPromise resolved input out st2 w = (Ok (st2, out), w)).
Proof.
  intros Htool Hpath Hes c v st1 st2.
  assert (Hentry : pendingCalls st1 !! c = Some v).
  { apply table_run_spares; [assumption|].
    rewrite (before_records _ _ _ _ Htool Hpath). simpl.
    apply lookup_insert_eq. }
  assert (Hgone : pendingCalls st2 !! c = None) by apply lookup_delete_eq.
  split; [by apply take_present|].
  split; [assumption|].
  split; [by apply take_absent|].
  split.
  { intros es' Hes'. rewrite take_absent; [reflexivity|].
    by apply table_run_absent. }
  split.
  - intros h cliPathPromise resolved out w.
    destruct (after_returns h cliPathPromise resolved input out st1 w)
      as (out' & w' & Hafter).
    fold c in Hafter. rewrite (take_present _ _ _ Hentry) in Hafter.
    eauto.
  - intros h cliPathPromise resolved out w. by apply after_unmatched.
Qed.

(** C10. The before-hook of a recognised tool whose arguments have none
    of the keys [filePath], [file_path], [path] leaves the table as it
    was; the call identifier having no entry, the after-hook of that
    call returns at once: the table, the tool output and the world are
    unchanged, and the checker is not invoked. *)
Theorem before_without_path_records_nothing (now : Z) (input : HookIn)
    (args : gmap string jsval) (st : Plugin) :
  toLowerCase (in_tool input) ∈ TOOL_NAMES ->
  args !! "filePath" = None ->
  args !! "file_path" = None ->
  args !! "path" = None ->
  before now input args st = st /\
  (pendingCalls st !! in_callID input = None ->
   forall h cliPathPromise resolved out w,
     after h cliPathPromise resolved input out (before now input args st) w
     = (Ok (st, out), w) /\
     checks (snd (after h cliPathPromise resolved input out
                    (before now input args st) w)) = checks w).
Proof.
  intros Htool H1 H2 H3.
  assert (Hsame : before now input args st = st).
  { unfold Hook.before. rewrite bool_decide_eq_true_2 by done. simpl.
    unfold filePath_arg, prop. rewrite H1, H2, H3. reflexivity. }
  split; [exact Hsame|].
  intros Hfresh h cliPathPromise resolved out w.
  rewrite Hsame, (after_unmatched _ _ _ _ _ _ _ Hfresh). split; reflexivity.
Qed.

(** C6. When the after-hook finds the pending call and the tool output
    begins with "error" in any letter case, or has one of the failure
    patterns in it once lowered (as it has when it contains a
    lower-case pattern as it stands), the after-hook returns having
    only removed the entry: the output and the world are unchanged and
    the checker is not invoked. *)
Theorem failed_tool_output_skips_check (h : Host)
    (cliPathPromise : outcome (option string)) (resolved : option string)
    (input : HookIn) (out : ToolOutput) (st : Plugin) (w : World)
    (pendingCall : PendingCall) :
  pendingCalls st !! in_callID input = Some pendingCall ->
  (startsWith (toLowerCase (output out)) "error" = true \/
   (exists pattern, In pattern OUTPUT_FAILURE_PATTERNS /\
                    includes (toLowerCase (output out)) pattern = true) \/
   (exists pattern, In pattern OUTPUT_FAILURE_PATTERNS /\
                    toLowerCase pattern = pattern /\
                    includes (output out) pattern = true)) ->
  after h cliPathPromise resolved input out st w
  = (Ok (with_pending (delete (in_callID input)) st, out), w) /\
  checks (snd (after h cliPathPromise resolved input out st w)) = checks w.
Proof.
  intros Hentry Hfail.
  assert (Hflag : isToolFailure (output out) = true).
  { unfold Hook.isToolFailure. apply orb_true_iff.
    destruct Hfail as [Hstart|[(pattern & Hin & Hhas)|(pattern & Hin & Hlow & Hhas)]].
    - by left.
    - right. apply existsb_exists. eauto.
    - right. apply existsb_exists. exists pattern. split; [assumption|].
      rewrite <- Hlow. by apply JsFacts.includes_toLowerCase. }
  rewrite (after_failure _ _ _ _ _ _ _ _ Hentry Hflag). split; reflexivity.
Qed.

(** C8. An after-hook always returns, with the title and the metadata
    as they were. Its output is either untouched, or the checker has
    run, has reported comments with a message that is not empty, and
    the output is the old output followed by two line feeds and that
    message. When the checker runs, the output is changed in that way
    exactly when the result has [hasComments] and a message that is not
    empty. *)
Theorem after_appends_only_warning (h : Host)
    (cliPathPromise : outcome (option string)) (resolved : option string)
    (input : HookIn) (out : ToolOutput) (st : Plugin) (w : World) :
  exists st' out' w',
    after h cliPathPromise resolved input out st w = (Ok (st', out'), w') /\
    title out' = title out /\
    metadata out' = metadata out /\
    (out' = out \/
     exists pendingCall result,
       pendingCalls st !! in_callID input = Some pendingCall /\
       Cli.runCommentChecker h resolved (hookInput_of h pendingCall)
         {| Cli.cliPath := None; Cli.prompt := customPrompt st |} w
       = (Ok result, w') /\
       hasComments result = true /\
       message result <> "" /\
       output out' = output out +:+ nl +:+ nl +:+ message result) /\
    (forall pendingCall path result w1,
       pendingCalls st !! in_callID input = Some pendingCall ->
       isToolFailure (output out) = false ->
       cliPathPromise = Ok (Some path) -> path <> "" -> path ∈ files w ->
       Cli.runCommentChecker h resolved (hookInput_of h pendingCall)
         {| Cli.cliPath := None; Cli.prompt := customPrompt st |} w
       = (Ok result, w1) ->
       w' = w1 /\
       output out'
       = if hasComments result && negb (String.eqb (message result) "")
         then output out +:+ nl +:+ nl +:+ message result
         else output out).
Proof.
  destruct (pendingCalls st !! in_callID input) as [pendingCall|] eqn:Hentry.
  2: { exists st, out, w. rewrite (after_unmatched _ _ _ _ _ _ _ Hentry).
       do 3 (split; [reflexivity|]). split; [by left|].
       intros pc path result w1 Hpc. discriminate. }
  destruct (isToolFailure (output out)) eqn:Hfail.
  { eexists _, out, w. rewrite (after_failure _ _ _ _ _ _ _ _ Hentry Hfail).
    do 3 (split; [reflexivity|]). split; [by left|].
    intros pc path result w1 _ Hf. discriminate. }
  assert (Hskip :
    (forall path, cliPathPromise = Ok (Some path) -> path = "" \/ path ∉ files w) ->
    exists st' out' w',
      after h cliPathPromise resolved input out st w = (Ok (st', out'), w') /\
      title out' = title out /\ metadata out' = metadata out /\
      (out' = out \/
       exists pendingCall0 result,
         Some pendingCall = Some pendingCall0 /\
         Cli.runCommentChecker h resolved (hookInput_of h pendingCall0)
           {| Cli.cliPath := None; Cli.prompt := customPrompt st |} w
         = (Ok result, w') /\
         hasComments result = true /\ message result <> "" /\
         output out' = output out +:+ nl +:+ nl +:+ message result) /\
      (forall pendingCall0 path result w1,
         Some pendingCall = Some pendingCall0 ->
         false = false ->
         cliPathPromise = Ok (Some path) -> path <> "" -> path ∈ files w ->
         Cli.runCommentChecker h resolved (hookInput_of h pendingCall0)
           {| Cli.cliPath := None; Cli.prompt := customPrompt st |} w
         = (Ok result, w1) ->
         w' = w1 /\
         output out'
         = if hasComments result && negb (String.eqb (message result) "")
           then output out +:+ nl +:+ nl +:+ message result
           else output out)).
  { intros Hno. eexists _, out, w.
    rewrite (after_unavailable _ _ _ _ _ _ w _ Hentry Hfail Hno).
    do 3 (split; [reflexivity|]). split; [by left|].
    intros pc path result w1 _ _ Hpath Hne Hin.
    destruct (Hno path Hpath); contradiction. }
  destruct cliPathPromise as [[path|]|e];
    [|apply Hskip; intros; discriminate..].
  destruct (String.eqb_spec path "") as [->|Hne].
  { apply Hskip. intros path Hpath. injection Hpath as <-. by left. }
  destruct (decide (path ∈ files w)) as [Hin|Hmissing].
  2: { apply Hskip. intros path' Hpath. injection Hpath as <-. by right. }
  clear Hskip.
  destruct (Cli.runCommentChecker h resolved (hookInput_of h pendingCall)
              {| Cli.cliPath := None; Cli.prompt := customPrompt st |} w)
    as [[result|err] w'] eqn:Hrun.
  2: { eexists _, out, w'.
       rewrite (after_check_throws _ _ _ _ _ _ _ _ _ _ Hentry Hfail Hne Hin Hrun).
       do 3 (split; [reflexivity|]). split; [by left|].
       intros pc path' result' w1 Hpc _ _ _ _ Hrun'.
       injection Hpc as <-. rewrite Hrun in Hrun'. discriminate. }
  eexists _, (merged out result), w'.
  rewrite (after_checked _ _ _ _ _ _ _ _ _ _ Hentry Hfail Hne Hin Hrun).
  split; [reflexivity|].
  assert (Hshape : output (merged out result)
                   = if hasComments result && negb (String.eqb (message result) "")
                     then output out +:+ nl +:+ nl +:+ message result
                     else output out).
  { unfold merged. destruct (hasComments result && _); reflexivity. }
  split; [unfold merged; destruct (hasComments result && _); reflexivity|].
  split; [unfold merged; destruct (hasComments result && _); reflexivity|].
  split.
  - unfold merged.
    destruct (hasComments result) eqn:Hhas; simpl; [|by left].
    destruct (String.eqb_spec (message result) "") as [Hempty|Hmsg]; simpl;
      [by left|].
    right. exists pendingCall, result. repeat split; assumption.
  - intros pc path' result' w1 Hpc _ _ _ _ Hrun'.
    injection Hpc as <-. rewrite Hrun in Hrun'. injection Hrun' as <- <-.
    split; [reflexivity|exact Hshape].
Qed.

End WithConstants.

(** ** Sample runs *)

Lemma edit_is_recognised : toLowerCase "Edit" ∈ Scenario.tool_names.
Proof. apply (bool_decide_unpack _). vm_compute. exact I. Qed.

(** A call is recorded at time 1000; a sweep, the after-hook of another
    call and a sweep 60 seconds later go by; the first take finds the
    record and the second finds nothing. *)
Lemma take_after_record_once_witness :
  let v := pendingCall_of 1000 Scenario.edit_call Scenario.edit_args in
  let st1 :=
    foldl (table_step Scenario.tool_names)
      (before Scenario.tool_names 1000 Scenario.edit_call Scenario.edit_args
         empty_plugin)
      [TSweep 30000; TAfter "call-2"; TSweep 61000] in
  take "call-1" st1 = (Some v, with_pending (delete "call-1") st1) /\
  take "call-1" (with_pending (delete "call-1") st1)
  = (None, with_pending (delete "call-1") st1).
Proof.
  intros v st1.
  destruct (take_after_record_once Scenario.event_name Scenario.failure_patterns
              Scenario.tool_names 1000 Scenario.edit_call Scenario.edit_args
              empty_plugin [TSweep 30000; TAfter "call-2"; TSweep 61000])
    as (Hfirst & _ & Hsecond & _ & _).
  - exact edit_is_recognised.
  - reflexivity.
  - repeat constructor; simpl; unfold PENDING_CALL_TTL; (lia || discriminate).
  - split; [exact Hfirst|exact Hsecond].
Defined.

(** An edit call that names no file: nothing is recorded, and its
    after-hook changes nothing. *)
Lemma before_without_path_records_nothing_witness :
  let args : gmap string jsval := {[ "content" := JStr "x" ]} in
  let h := Scenario.machine "linux" "x64" (Scenario.child_exiting 2 "noise" []) in
  before Scenario.tool_names 1000 Scenario.edit_call args empty_plugin = empty_plugin /\
  after Scenario.event_name Scenario.failure_patterns h
    (Ok (Some Scenario.cache_binary)) (Some Scenario.cache_binary)
    Scenario.edit_call (Scenario.tool_output "done")
    (before Scenario.tool_names 1000 Scenario.edit_call args empty_plugin)
    (Scenario.disk [Scenario.cache_binary])
  = (Ok (empty_plugin, Scenario.tool_output "done"),
     Scenario.disk [Scenario.cache_binary]).
Proof.
  intros args h.
  destruct (before_without_path_records_nothing Scenario.event_name
              Scenario.failure_patterns Scenario.tool_names
              1000 Scenario.edit_call args empty_plugin)
    as [Hsame Hafter].
  - exact edit_is_recognised.
  - reflexivity.
  - reflexivity.
  - reflexivity.
  - split; [exact Hsame|].
    apply (Hafter eq_refl h (Ok (Some Scenario.cache_binary))
             (Some Scenario.cache_binary) (Scenario.tool_output "done")
             (Scenario.disk [Scenario.cache_binary])).
Defined.

(** The output ["Error: permission denied"]: the checker is not run. *)
Lemma failed_tool_output_skips_check_witness :
  let h := Scenario.machine "linux" "x64" (Scenario.child_exiting 2 "noise" []) in
  let st := before Scenario.tool_names 1000 Scenario.edit_call Scenario.edit_args
              empty_plugin in
  after Scenario.event_name Scenario.failure_patterns h
    (Ok (Some Scenario.cache_binary)) (Some Scenario.cache_binary)
    Scenario.edit_call (Scenario.tool_output "Error: permission denied") st
    (Scenario.disk [Scenario.cache_binary])
  = (Ok (with_pending (delete "call-1") st,
         Scenario.tool_output "Error: permission denied"),
     Scenario.disk [Scenario.cache_binary]).
Proof.
  intros h st.
  apply (failed_tool_output_skips_check Scenario.event_name
           Scenario.failure_patterns h (Ok (Some Scenario.cache_binary))
           (Some Scenario.cache_binary) Scenario.edit_call
           (Scenario.tool_output "Error: permission denied") st
           (Scenario.disk [Scenario.cache_binary])
           (pendingCall_of 1000 Scenario.edit_call Scenario.edit_args)).
  - reflexivity.
  - left. reflexivity.
Defined.

(** The whole path: an edit from ["// TODO"] to ["// TODO: fix"] is
    recorded, the tool succeeds, the binary exits with 2 and
    ["New comment detected"] on standard error; the output ends with two
    line feeds and that message. *)
Lemma after_appends_only_warning_witness :
  let h := Scenario.machine "linux" "x64"
             (Scenario.child_exiting 2 "New comment detected" []) in
  let st := before Scenario.tool_names 1000 Scenario.edit_call Scenario.edit_args
              empty_plugin in
  exists st' out' w',
    after Scenario.event_name Scenario.failure_patterns h
      (Ok (Some Scenario.cache_binary)) (Some Scenario.cache_binary)
      Scenario.edit_call (Scenario.tool_output "Edit applied") st
      (Scenario.disk [Scenario.cache_binary])
    = (Ok (st', out'), w') /\
    output out' = "Edit applied" +:+ nl +:+ nl +:+ "New comment detected".
Proof.
  intros h st.
  destruct (after_appends_only_warning Scenario.event_name
              Scenario.failure_patterns h (Ok (Some Scenario.cache_binary))
              (Some Scenario.cache_binary) Scenario.edit_call
              (Scenario.tool_output "Edit applied") st
              (Scenario.disk [Scenario.cache_binary]))
    as (st' & out' & w' & Hafter & _ & _ & _ & Hwhen).
  exists st', out', w'. split; [exact Hafter|].
  destruct (Hwhen (pendingCall_of 1000 Scenario.edit_call Scenario.edit_args)
              Scenario.cache_binary
              {| hasComments := true; message := "New comment detected" |}
              (snd (Cli.runCommentChecker h (Some Scenario.cache_binary)
                      (hookInput_of Scenario.event_name h
                         (pendingCall_of 1000 Scenario.edit_call Scenario.edit_args))
                      {| Cli.cliPath := None; Cli.prompt := None |}
                      (Scenario.disk [Scenario.cache_binary]))))
    as [_ Hout].
  - reflexivity.
  - reflexivity.
  - reflexivity.
  - discriminate.
  - apply (bool_decide_unpack _). vm_compute. exact I.
  - vm_compute. reflexivity.
  - exact Hout.
Defined.

End HookSpec.

(* ===================================================================== *)
(** * Footprints compose *)
(* ===================================================================== *)

Module FootprintFacts.
Import Js Types Sys Footprint.

Lemma tally_emit (P : effect -> bool) (e : effect) (w : World) :
  tally P (emit e w) = (tally P w + (if P e then 1 else 0))%nat.
Proof.
  unfold tally, emit; simpl. rewrite filter_app, length_app.
  f_equal. unfold filter; simpl. destruct (P e); reflexivity.
Qed.

Lemma tally_with_files (P : effect -> bool) (f : gset string -> gset string)
    (w : World) :
  tally P (with_files f w) = tally P w.
Proof. reflexivity. Qed.

Section Adds.
Variable P : effect -> bool.

Lemma adds_mono {A} (n n' : nat) (m : M A) :
  (n <= n')%nat -> adds P n m -> adds P n' m.
Proof. intros Hle Hm w. specialize (Hm w). lia. Qed.

Lemma adds_ret {A} (a : A) : adds P 0 (ret a).
Proof. intros w. simpl. lia. Qed.

Lemma adds_throw {A} (e : string) : adds P 0 (throw (A := A) e).
Proof. intros w. simpl. lia. Qed.

Lemma adds_lift {A} (o : outcome A) : adds P 0 (lift o).
Proof. intros w. simpl. lia. Qed.

Lemma adds_existsSync (p : string) : adds P 0 (existsSync p).
Proof. intros w. simpl. lia. Qed.

Lemma adds_bind {A B} (n k : nat) (m : M A) (f : A -> M B) :
  adds P n m -> (forall a, adds P k (f a)) -> adds P (n + k) (bind m f).
Proof.
  intros Hm Hf w. unfold bind. specialize (Hm w).
  destruct (m w) as [[a|e] w1]; simpl in *.
  - specialize (Hf a w1). lia.
  - lia.
Qed.

Lemma adds_try {A} (n k : nat) (body : M A) (handler : string -> M A) :
  adds P n body -> (forall e, adds P k (handler e)) ->
  adds P (n + k) (try_catch body handler).
Proof.
  intros Hm Hf w. unfold try_catch. specialize (Hm w).
  destruct (body w) as [[a|e] w1]; simpl in *.
  - lia.
  - specialize (Hf e w1). lia.
Qed.

Lemma adds_when (n : nat) (b : bool) (m : M unit) :
  adds P n m -> adds P n (when b m).
Proof.
  intros Hm. destruct b; [exact Hm|]. intros w. simpl. lia.
Qed.

Lemma adds_mkdirSync (h : Host) (p : string) :
  adds P (if P (EMkdir p) then 1 else 0) (mkdirSync h p).
Proof.
  intros w. unfold mkdirSync.
  destruct (mkdir_result h p); simpl;
    rewrite ?tally_with_files, tally_emit; lia.
Qed.

Lemma adds_fetch (h : Host) (url : string) :
  adds P (if P (EFetch url) then 1 else 0) (fetch h url).
Proof. intros w. unfold fetch. simpl. rewrite tally_emit. lia. Qed.

Lemma adds_bun_write (h : Host) (p : string) :
  adds P (if P (EWrite p) then 1 else 0) (bun_write h p).
Proof.
  intros w. unfold bun_write.
  destruct (write_result h p); simpl;
    rewrite ?tally_with_files, tally_emit; lia.
Qed.

Lemma adds_unlinkSync (h : Host) (p : string) :
  adds P (if P (EUnlink p) then 1 else 0) (unlinkSync h p).
Proof.
  intros w. unfold unlinkSync.
  destruct (unlink_result h p); simpl;
    rewrite ?tally_with_files, tally_emit; lia.
Qed.

Lemma adds_chmodSync (h : Host) (p : string) :
  adds P (if P (EChmod p) then 1 else 0) (chmodSync h p).
Proof. intros w. unfold chmodSync. simpl. rewrite tally_emit. lia. Qed.

Lemma adds_spawn (h : Host) (argv : list string) :
  adds P (if P (ESpawn argv) then 1 else 0) (spawn h argv).
Proof.
  intros w. unfold spawn.
  destruct (child h argv); simpl;
    rewrite ?tally_with_files, tally_emit; lia.
Qed.

Lemma adds_write_stdin (proc : Subprocess) (payload : string) :
  adds P (if P (EStdin payload) then 1 else 0) (write_stdin proc payload).
Proof. intros w. unfold write_stdin. simpl. rewrite tally_emit. lia. Qed.

Lemma adds_note (e : effect) :
  adds P (if P e then 1 else 0) (note e).
Proof. intros w. unfold note. simpl. rewrite tally_emit. lia. Qed.

End Adds.

Section Keeps.
Variable Q : string -> Prop.

Lemma keeps_ret {A} (a : A) : keeps Q (ret a).
Proof. intros w f _ Hf. exact Hf. Qed.

Lemma keeps_throw {A} (e : string) : keeps Q (throw (A := A) e).
Proof. intros w f _ Hf. exact Hf. Qed.

Lemma keeps_lift {A} (o : outcome A) : keeps Q (lift o).
Proof. intros w f _ Hf. exact Hf. Qed.

Lemma keeps_existsSync (p : string) : keeps Q (existsSync p).
Proof. intros w f _ Hf. exact Hf. Qed.

Lemma keeps_bind {A B} (m : M A) (f : A -> M B) :
  keeps Q m -> (forall a, keeps Q (f a)) -> keeps Q (bind m f).
Proof.
  intros Hm Hf w x Hx Hin. unfold bind. specialize (Hm w x Hx Hin).
  destruct (m w) as [[a|e] w1]; simpl in *; [|assumption].
  by apply Hf.
Qed.

Lemma keeps_try {A} (body : M A) (handler : string -> M A) :
  keeps Q body -> (forall e, keeps Q (handler e)) -> keeps Q (try_catch body handler).
Proof.
  intros Hm Hf w x Hx Hin. unfold try_catch. specialize (Hm w x Hx Hin).
  destruct (body w) as [[a|e] w1]; simpl in *; [assumption|].
  by apply Hf.
Qed.

Lemma keeps_when (b : bool) (m : M unit) : keeps Q m -> keeps Q (when b m).
Proof. intros Hm. destruct b; [exact Hm|]. apply keeps_ret. Qed.

Lemma keeps_mkdirSync (h : Host) (p : string) : keeps Q (mkdirSync h p).
Proof.
  intros w f _ Hf. unfold mkdirSync.
  destruct (mkdir_result h p); simpl; [|assumption]. by apply elem_of_union_r.
Qed.

Lemma keeps_fetch (h : Host) (url : string) : keeps Q (fetch h url).
Proof. intros w f _ Hf. exact Hf. Qed.

Lemma keeps_bun_write (h : Host) (p : string) : keeps Q (bun_write h p).
Proof.
  intros w f _ Hf. unfold bun_write.
  destruct (write_result h p); simpl; [|assumption]. by apply elem_of_union_r.
Qed.

Lemma keeps_chmodSync (h : Host) (p : string) : keeps Q (chmodSync h p).
Proof. intros w f _ Hf. exact Hf. Qed.

Lemma keeps_spawn (h : Host) (argv : list string) : keeps Q (spawn h argv).
Proof.
  intros w f _ Hf. unfold spawn.
  destruct (child h argv); simpl; [|assumption]. by apply elem_of_union_r.
Qed.

Lemma keeps_write_stdin (proc : Subprocess) (payload : string) :
  keeps Q (write_stdin proc payload).
Proof. intros w f _ Hf. exact Hf. Qed.

Lemma keeps_note (e : effect) : keeps Q (note e).
Proof. intros w f _ Hf. exact Hf. Qed.

(** Only [unlinkSync] deletes, and only its argument. *)
Lemma keeps_unlinkSync (h : Host) (p : string) :
  (forall f, Q f -> f <> p) -> keeps Q (unlinkSync h p).
Proof.
  intros Hne w f Hq Hf. unfold unlinkSync.
  destruct (unlink_result h p); simpl; [|assumption].
  apply elem_of_difference. split; [assumption|].
  rewrite elem_of_singleton. by apply Hne.
Qed.

End Keeps.

Section Only.
Context {A : Type} (R : A -> Prop).

Lemma only_ret (a : A) : R a -> only R (ret a).
Proof. intros Ha w b Hb. simpl in Hb. by injection Hb as <-. Qed.

Lemma only_bind {B} (m : M B) (f : B -> M A) :
  (forall b, only R (f b)) -> only R (bind m f).
Proof.
  intros Hf w a. unfold bind.
  destruct (m w) as [[b|e] w1]; simpl; [apply Hf|discriminate].
Qed.

Lemma yields_try (body : M A) (handler : string -> M A) :
  only R body -> (forall e, yields R (handler e)) ->
  yields R (try_catch body handler).
Proof.
  intros Hbody Hhandler w. unfold try_catch.
  specialize (Hbody w).
  destruct (body w) as [[a|e] w1]; simpl in *.
  - exists a. split; [reflexivity|]. by apply Hbody.
  - apply Hhandler.
Qed.

Lemma yields_ret (a : A) : R a -> yields R (ret a).
Proof. intros Ha w. exists a. by split. Qed.

End Only.

End FootprintFacts.

(* ===================================================================== *)
(** * More on the downloader *)
(* ===================================================================== *)

Module DownloaderFacts.
Import Js Types Sys Downloader Footprint Stages.
Import DownloaderSpec.

(** ** The course of a download, stage by stage *)

Lemma extraction_succeeds (h : Host) (info : PlatformInfo) (proc : Subprocess)
    (w : World) :
  child h (extract_argv h info) = Ok proc ->
  exited proc = Ok 0 ->
  match ext info with
  | TarGz => extractTarGz h (archivePath_of h info) (getCacheDir h)
  | Zip => extractZip h (archivePath_of h info) (getCacheDir h)
  end w
  = (Ok tt, with_files (union (list_to_set (written proc)))
              (emit (ESpawn (extract_argv h info)) w)).
Proof.
  unfold extract_argv. intros Hchild Hexit.
  destruct (ext info); unfold extractTarGz, extractZip, bind, spawn, lift, ret;
    rewrite Hchild, Hexit; reflexivity.
Qed.

Lemma downloadCommentChecker_unfold (h : Host) (w : World) :
  downloadCommentChecker h w
  = match PLATFORM_MAP !! platformKey h with
    | None => (Ok None, w)
    | Some info =>
        if bool_decide (binaryPath_of h ∈ files w)
        then (Ok (Some (binaryPath_of h)), w)
        else try_catch (attempt h info) (fun _ => ret None) w
    end.
Proof.
  unfold downloadCommentChecker.
  destruct (PLATFORM_MAP !! platformKey h) as [info|]; [|reflexivity].
  unfold bind at 1, existsSync at 1. fold (binaryPath_of h).
  destruct (bool_decide _); reflexivity.
Qed.

Lemma staged_requested (h : Host) (info : PlatformInfo) (proc : Subprocess)
    (w : World) :
  staged h info proc w
  = with_files (union (list_to_set (written proc)))
      (emit (ESpawn (extract_argv h info))
         (with_files (union {[archivePath_of h info]})
            (emit (EWrite (archivePath_of h info)) (requested h info w)))).
Proof. reflexivity. Qed.

Lemma attempt_prepared (h : Host) (info : PlatformInfo) (w : World) :
  getCacheDir h ∈ files w \/ mkdir_result h (getCacheDir h) = Ok tt ->
  attempt h info w = from_request h info (prepared h w).
Proof.
  intros Hdir. unfold attempt, prepared.
  unfold bind at 1, existsSync at 1.
  case_bool_decide as Hpresent; simpl.
  - reflexivity.
  - destruct Hdir as [Hdir|Hmk]; [contradiction|].
    unfold bind at 1, mkdirSync at 1. rewrite Hmk. reflexivity.
Qed.


Lemma from_request_no_archive (h : Host) (info : PlatformInfo) (w : World) :
  no_archive h info ->
  exists e, from_request h info w = (Throw e, emit (EFetch (url_of h info)) w).
Proof.
  unfold no_archive, from_request. intros Hnet.
  unfold bind at 1, fetch at 1.
  destruct (net h (url_of h info)) as [response|e]; [|eauto].
  unfold bind at 1.
  destruct (ok response) eqn:Hok; simpl; [|eauto].
  destruct Hnet as [Hnet|[e Hbody]]; [discriminate|].
  unfold ret at 1. unfold bind at 1, lift at 1. rewrite Hbody. eauto.
Qed.

(** From the request to the end, when the archive arrives and the
    extraction exits with 0: what is left depends on [unlinkSync] and
    [chmodSync]. *)
Lemma from_request_extracted (h : Host) (info : PlatformInfo) (w : World)
    (response : Response) (buffer : string) (proc : Subprocess) :
  net h (url_of h info) = Ok response ->
  ok response = true ->
  arrayBuffer response = Ok buffer ->
  write_result h (archivePath_of h info) = Ok tt ->
  child h (extract_argv h info) = Ok proc ->
  exited proc = Ok 0 ->
  from_request h info (prepared h w)
  = match unlink_result h (archivePath_of h info) with
    | Throw e =>
        (Throw e, emit (EUnlink (archivePath_of h info)) (staged h info proc w))
    | Ok _ =>
        if negb (String.eqb (platform h) "win32")
           && bool_decide (binaryPath_of h ∈ files (cleaned h info proc w))
        then (match chmod_result h (binaryPath_of h) with
              | Ok _ => Ok (Some (binaryPath_of h))
              | Throw e => Throw e
              end, emit (EChmod (binaryPath_of h)) (cleaned h info proc w))
        else (Ok (Some (binaryPath_of h)), cleaned h info proc w)
    end.
Proof.
  intros Hnet Hok Hbuf Hwrite Hchild Hexit.
  unfold from_request, cleaned. rewrite staged_requested. unfold requested.
  unfold bind at 1, fetch at 1. rewrite Hnet.
  unfold bind at 1. rewrite Hok. simpl. unfold ret at 1.
  unfold bind at 1, lift at 1. rewrite Hbuf.
  unfold bind at 1, bun_write at 1. rewrite Hwrite.
  unfold bind at 1. rewrite (extraction_succeeds h info proc _ Hchild Hexit).
  unfold bind at 1, existsSync at 1.
  rewrite bool_decide_eq_true_2.
  2: { simpl. apply elem_of_union_r, elem_of_union_l. by apply elem_of_singleton. }
  unfold when at 1. unfold bind at 1, unlinkSync at 1.
  destruct (unlink_result h (archivePath_of h info)) as [u|e]; [|reflexivity].
  unfold bind at 1, existsSync at 1.
  destruct (negb (platform h =? "win32")%string && _) eqn:Hmode.
  - unfold when, bind at 1, chmodSync.
    destruct (chmod_result h (binaryPath_of h)); reflexivity.
  - reflexivity.
Qed.

Lemma from_request_installs (h : Host) (info : PlatformInfo) (w : World)
    (response : Response) (buffer : string) (proc : Subprocess) :
  net h (url_of h info) = Ok response ->
  ok response = true ->
  arrayBuffer response = Ok buffer ->
  write_result h (archivePath_of h info) = Ok tt ->
  child h (extract_argv h info) = Ok proc ->
  exited proc = Ok 0 ->
  unlink_result h (archivePath_of h info) = Ok tt ->
  chmod_result h (binaryPath_of h) = Ok tt ->
  from_request h info (prepared h w)
  = (Ok (Some (binaryPath_of h)), installed h info proc w).
Proof.
  intros Hnet Hok Hbuf Hwrite Hchild Hexit Hunlink Hchmod.
  rewrite (from_request_extracted h info w response buffer proc) by assumption.
  rewrite Hunlink, Hchmod. unfold installed.
  destruct (negb _ && _); reflexivity.
Qed.

(** ** Paths *)

Lemma join_longer (a b : string) : join a b <> a.
Proof.
  unfold join. induction a as [|c a IH]; simpl; [discriminate|].
  intros H. injection H as H. contradiction.
Qed.

Lemma join_inj (a b b' : string) : join a b = join a b' -> b = b'.
Proof.
  unfold join. induction a as [|c a IH]; simpl; intros H.
  - by injection H.
  - injection H as H. auto.
Qed.

Lemma binaryPath_not_archivePath (h : Host) (info : PlatformInfo) :
  binaryPath_of h <> archivePath_of h info.
Proof.
  unfold binaryPath_of, archivePath_of, getBinaryName, assetName. intros H.
  apply join_inj in H.
  destruct (platform h =? "win32")%string; discriminate H.
Qed.

Lemma binaryPath_not_cacheDir (h : Host) : binaryPath_of h <> getCacheDir h.
Proof. apply join_longer. Qed.

Lemma append_cons (c : ascii) (s t : string) :
  String c s +:+ t = String c (s +:+ t).
Proof. reflexivity. Qed.

Lemma length_append (s t : string) :
  String.length (s +:+ t) = (String.length s + String.length t)%nat.
Proof.
  induction s as [|c s IH]; [reflexivity|].
  rewrite append_cons. simpl. by rewrite IH.
Qed.

(** A directory above a path is a shorter path: the part read so far,
    a separator, and more. *)
Lemma parents_prefix (prefix rest q : string) :
  q ∈ parents prefix rest ->
  exists more, prefix +:+ rest = q +:+ "/" +:+ more.
Proof.
  revert prefix. induction rest as [|c r IH]; intros prefix Hq; simpl in Hq.
  - by apply elem_of_nil in Hq.
  - apply elem_of_app in Hq as [Hq|Hq].
    + destruct (Ascii.eqb_spec c "/") as [->|]; simpl in Hq;
        [|by apply elem_of_nil in Hq].
      destruct (negb _ && negb _); [|by apply elem_of_nil in Hq].
      apply list_elem_of_singleton in Hq as ->. by exists r.
    + destruct (IH _ Hq) as [more Hmore]. exists more. rewrite <- Hmore.
      clear. induction prefix as [|a prefix IH]; [reflexivity|].
      by rewrite !append_cons, IH.
Qed.

Lemma parents_shorter (p q : string) :
  q ∈ parents "" p -> (String.length q < String.length p)%nat.
Proof.
  intros Hq. destruct (parents_prefix _ _ _ Hq) as [more Hmore].
  change ("" +:+ p) with p in Hmore.
  rewrite Hmore, !length_append. simpl. lia.
Qed.

Lemma join_not_parent (a b : string) : join a b ∉ parents "" a.
Proof.
  intros Hq. apply parents_shorter in Hq.
  unfold join in Hq. rewrite length_append in Hq. lia.
Qed.

(** The cache directory and the directories above it. *)
Lemma prepared_files (h : Host) (w : World) (f : string) :
  f ∈ files (prepared h w) <->
  f ∈ files w \/
  ((f = getCacheDir h \/ f ∈ parents "" (getCacheDir h)) /\ getCacheDir h ∉ files w).
Proof.
  unfold prepared. case_bool_decide as Hdir; cbn [files with_files emit].
  - intuition.
  - rewrite elem_of_union, elem_of_list_to_set, elem_of_cons. intuition.
Qed.

(** ** Results *)

(** X1. [downloadCommentChecker] and [ensureCommentCheckerBinary] never
    throw, whatever the network, the disk and the extraction utility do,
    and what they return is absent or the place of the executable in the
    cache directory. *)
Theorem downloader_returns_cache_path_or_absent (h : Host) (w : World) :
  (exists r, fst (downloadCommentChecker h w) = Ok r /\
             (r = None \/ r = Some (binaryPath_of h))) /\
  (exists r, fst (ensureCommentCheckerBinary h w) = Ok r /\
             (r = None \/ r = Some (binaryPath_of h))).
Proof.
  assert (Hdownload : exists r, fst (downloadCommentChecker h w) = Ok r /\
                                (r = None \/ r = Some (binaryPath_of h))).
  { rewrite downloadCommentChecker_unfold.
    destruct (PLATFORM_MAP !! platformKey h) as [info|]; [|eauto].
    destruct (bool_decide _); [eauto|].
    apply (FootprintFacts.yields_try (fun r => r = None \/ r = Some (binaryPath_of h))).
    - unfold attempt, from_request.
      repeat (apply FootprintFacts.only_bind; intros).
      apply FootprintFacts.only_ret. by right.
    - intros e. apply FootprintFacts.yields_ret. by left. }
  split; [exact Hdownload|].
  unfold ensureCommentCheckerBinary, getCachedBinaryPath.
  unfold bind at 1. unfold bind at 1, existsSync at 1, ret at 1.
  fold (binaryPath_of h).
  destruct (bool_decide _); simpl.
  - destruct (negb _); [eauto|exact Hdownload].
  - exact Hdownload.
Qed.

Lemma cleaned_files (h : Host) (info : PlatformInfo) (proc : Subprocess)
    (w : World) (f : string) :
  f ∈ files (cleaned h info proc w) <->
  (f ∈ written proc \/ f ∈ files (prepared h w)) /\ f <> archivePath_of h info.
Proof.
  unfold cleaned. rewrite staged_requested. unfold requested.
  cbn [files with_files emit].
  rewrite elem_of_difference, !elem_of_union, elem_of_list_to_set,
    !elem_of_singleton.
  intuition congruence.
Qed.

Lemma installed_files (h : Host) (info : PlatformInfo) (proc : Subprocess)
    (w : World) (f : string) :
  f ∈ files (installed h info proc w) <->
  (f ∈ written proc \/ f ∈ files (prepared h w)) /\ f <> archivePath_of h info.
Proof.
  unfold installed. destruct (negb _ && _); cbn [files emit]; apply cleaned_files.
Qed.

Lemma binaryPath_not_prepared (h : Host) (w : World) :
  binaryPath_of h ∉ files w -> binaryPath_of h ∉ files (prepared h w).
Proof.
  intros Hmissing. rewrite prepared_files.
  intros [H|[[H|H] _]]; [contradiction| |].
  - by apply binaryPath_not_cacheDir in H.
  - by apply join_not_parent in H.
Qed.

Lemma cleaned_has_binary (h : Host) (info : PlatformInfo) (proc : Subprocess)
    (w : World) :
  binaryPath_of h ∉ files w ->
  binaryPath_of h ∈ files (cleaned h info proc w) <-> binaryPath_of h ∈ written proc.
Proof.
  intros Hmissing. rewrite cleaned_files. split.
  - intros [[H|H] _]; [assumption|]. by apply binaryPath_not_prepared in H.
  - intros H. split; [by left|]. apply binaryPath_not_archivePath.
Qed.

Lemma installed_has_binary (h : Host) (info : PlatformInfo) (proc : Subprocess)
    (w : World) :
  binaryPath_of h ∈ written proc ->
  binaryPath_of h ∈ files (installed h info proc w).
Proof.
  intros H. apply installed_files. split; [by left|].
  apply binaryPath_not_archivePath.
Qed.

Lemma requests_prepared (h : Host) (w : World) :
  requests (prepared h w) = requests w.
Proof.
  unfold prepared, requests. case_bool_decide; [reflexivity|].
  simpl. rewrite filter_app, length_app. simpl. lia.
Qed.

Lemma requests_staged (h : Host) (info : PlatformInfo) (proc : Subprocess)
    (w : World) :
  requests (staged h info proc w) = (requests w + 1)%nat.
Proof.
  rewrite staged_requested. unfold requested.
  rewrite <- (requests_prepared h w). unfold requests. simpl.
  rewrite !filter_app, !length_app. simpl. lia.
Qed.

(** A download whose archive arrives and whose extraction exits with 0. *)
Lemma download_extracted_run (h : Host) (w : World) (info : PlatformInfo)
    (response : Response) (buffer : string) (proc : Subprocess) :
  PLATFORM_MAP !! platformKey h = Some info ->
  binaryPath_of h ∉ files w ->
  (getCacheDir h ∈ files w \/ mkdir_result h (getCacheDir h) = Ok tt) ->
  net h (url_of h info) = Ok response ->
  ok response = true ->
  arrayBuffer response = Ok buffer ->
  write_result h (archivePath_of h info) = Ok tt ->
  child h (extract_argv h info) = Ok proc ->
  exited proc = Ok 0 ->
  downloadCommentChecker h w
  = match unlink_result h (archivePath_of h info) with
    | Throw _ =>
        (Ok None, emit (EUnlink (archivePath_of h info)) (staged h info proc w))
    | Ok _ =>
        if negb (String.eqb (platform h) "win32")
           && bool_decide (binaryPath_of h ∈ written proc)
        then (match chmod_result h (binaryPath_of h) with
              | Ok _ => Ok (Some (binaryPath_of h))
              | Throw _ => Ok None
              end, emit (EChmod (binaryPath_of h)) (cleaned h info proc w))
        else (Ok (Some (binaryPath_of h)), cleaned h info proc w)
    end.
Proof.
  intros Hinfo Hmissing Hdir Hnet Hok Hbuf Hwrite Hchild Hexit.
  rewrite downloadCommentChecker_unfold, Hinfo.
  rewrite bool_decide_eq_false_2 by done.
  unfold try_catch. rewrite (attempt_prepared _ _ _ Hdir).
  rewrite (from_request_extracted h info w response buffer proc) by assumption.
  rewrite (bool_decide_ext _ _ (cleaned_has_binary h info proc w Hmissing)).
  destruct (unlink_result h (archivePath_of h info)); [|reflexivity].
  destruct (negb _ && _); [|reflexivity].
  destruct (chmod_result h (binaryPath_of h)); reflexivity.
Qed.

Lemma download_installs_run (h : Host) (w : World) (info : PlatformInfo)
    (response : Response) (buffer : string) (proc : Subprocess) :
  PLATFORM_MAP !! platformKey h = Some info ->
  binaryPath_of h ∉ files w ->
  (getCacheDir h ∈ files w \/ mkdir_result h (getCacheDir h) = Ok tt) ->
  net h (url_of h info) = Ok response ->
  ok response = true ->
  arrayBuffer response = Ok buffer ->
  write_result h (archivePath_of h info) = Ok tt ->
  child h (extract_argv h info) = Ok proc ->
  exited proc = Ok 0 ->
  unlink_result h (archivePath_of h info) = Ok tt ->
  chmod_result h (binaryPath_of h) = Ok tt ->
  downloadCommentChecker h w
  = (Ok (Some (binaryPath_of h)), installed h info proc w).
Proof.
  intros Hinfo Hmissing Hdir Hnet Hok Hbuf Hwrite Hchild Hexit Hunlink Hchmod.
  rewrite downloadCommentChecker_unfold, Hinfo.
  rewrite bool_decide_eq_false_2 by done.
  unfold try_catch. rewrite (attempt_prepared _ _ _ Hdir).
  by rewrite (from_request_installs h info w response buffer proc).
Qed.

Lemma download_cached_run (h : Host) (w : World) (info : PlatformInfo) :
  PLATFORM_MAP !! platformKey h = Some info ->
  binaryPath_of h ∈ files w ->
  downloadCommentChecker h w = (Ok (Some (binaryPath_of h)), w).
Proof.
  intros Hinfo Hin. rewrite downloadCommentChecker_unfold, Hinfo.
  by rewrite bool_decide_eq_true_2.
Qed.

Lemma ensure_cached_run (h : Host) (w : World) :
  binaryPath_of h ∈ files w ->
  ensureCommentCheckerBinary h w = (Ok (Some (binaryPath_of h)), w).
Proof.
  intros Hin. unfold ensureCommentCheckerBinary, getCachedBinaryPath, bind.
  fold (binaryPath_of h). rewrite (existsSync_present _ _ Hin). unfold ret.
  by rewrite (join_truthy _ _ : truthy_str (Some (binaryPath_of h)) = true).
Qed.

Lemma ensure_uncached_run (h : Host) (w : World) :
  binaryPath_of h ∉ files w ->
  ensureCommentCheckerBinary h w = downloadCommentChecker h w.
Proof.
  intros Hmissing. unfold ensureCommentCheckerBinary, getCachedBinaryPath.
  unfold bind at 1. unfold bind at 1. fold (binaryPath_of h).
  by rewrite (existsSync_missing _ _ Hmissing).
Qed.

(** X2. On a platform of the table, with no executable in the cache, a
    release that downloads, an archive that is written and an extraction
    that exits with 0, the result is decided by the two steps that are
    left, [unlinkSync] on the archive and, off Windows and with the
    executable extracted, [chmodSync] on the executable. When they
    succeed, [downloadCommentChecker] returns the place of the executable
    whether or not the extraction produced it: the executable is on disk
    exactly when the extraction wrote it, one request was made, the
    archive is deleted, everything else the extraction wrote stays, and
    off Windows an extracted executable is made executable. When
    [unlinkSync] throws, the result is absent and the archive stays.
    When [chmodSync] throws, the result is absent although the executable
    is installed. *)
Theorem download_installs (h : Host) (w : World) (info : PlatformInfo)
    (response : Response) (buffer : string) (proc : Subprocess) :
  PLATFORM_MAP !! platformKey h = Some info ->
  binaryPath_of h ∉ files w ->
  (getCacheDir h ∈ files w \/ mkdir_result h (getCacheDir h) = Ok tt) ->
  net h (url_of h info) = Ok response ->
  ok response = true ->
  arrayBuffer response = Ok buffer ->
  write_result h (archivePath_of h info) = Ok tt ->
  child h (extract_argv h info) = Ok proc ->
  exited proc = Ok 0 ->
  (unlink_result h (archivePath_of h info) = Ok tt ->
   (platform h <> "win32" -> binaryPath_of h ∈ written proc ->
    chmod_result h (binaryPath_of h) = Ok tt) ->
   fst (downloadCommentChecker h w) = Ok (Some (binaryPath_of h)) /\
   (binaryPath_of h ∈ files (snd (downloadCommentChecker h w)) <->
    binaryPath_of h ∈ written proc) /\
   (archivePath_of h info ∉ files (snd (downloadCommentChecker h w))) /\
   (forall f, f ∈ written proc -> f <> archivePath_of h info ->
              f ∈ files (snd (downloadCommentChecker h w))) /\
   requests (snd (downloadCommentChecker h w)) = (requests w + 1)%nat /\
   (platform h <> "win32" -> binaryPath_of h ∈ written proc ->
    EChmod (binaryPath_of h) ∈ trace (snd (downloadCommentChecker h w)))) /\
  (forall e,
     unlink_result h (archivePath_of h info) = Throw e ->
     fst (downloadCommentChecker h w) = Ok None /\
     archivePath_of h info ∈ files (snd (downloadCommentChecker h w)) /\
     requests (snd (downloadCommentChecker h w)) = (requests w + 1)%nat) /\
  (forall e,
     unlink_result h (archivePath_of h info) = Ok tt ->
     platform h <> "win32" ->
     binaryPath_of h ∈ written proc ->
     chmod_result h (binaryPath_of h) = Throw e ->
     fst (downloadCommentChecker h w) = Ok None /\
     binaryPath_of h ∈ files (snd (downloadCommentChecker h w)) /\
     (archivePath_of h info ∉ files (snd (downloadCommentChecker h w)))).
Proof.
  intros Hinfo Hmissing Hdir Hnet Hok Hbuf Hwrite Hchild Hexit.
  rewrite (download_extracted_run h w info response buffer proc) by assumption.
  assert (Hwin : platform h <> "win32" ->
                 negb (String.eqb (platform h) "win32") = true).
  { intros Hplat. by destruct (String.eqb_spec (platform h) "win32"). }
  assert (Hrequests : requests (cleaned h info proc w) = (requests w + 1)%nat).
  { rewrite <- (requests_staged h info proc w). unfold cleaned, requests. simpl.
    rewrite filter_app, length_app. simpl. lia. }
  split; [|split].
  - intros -> Hchmod.
    assert (Hresult :
      forall A (yes no : A),
        (if negb (String.eqb (platform h) "win32")
            && bool_decide (binaryPath_of h ∈ written proc)
         then match chmod_result h (binaryPath_of h) with
              | Ok _ => yes
              | Throw _ => no
              end
         else yes) = yes).
    { intros A yes no. destruct (String.eqb_spec (platform h) "win32"); simpl;
        [reflexivity|].
      case_bool_decide as Hbin; [|reflexivity]. by rewrite Hchmod. }
    destruct (negb _ && bool_decide _) eqn:Hmode; cbn [fst snd].
    + split; [exact (Hresult _ (Ok (Some (binaryPath_of h))) (Ok None))|]. cbn [files emit].
      split; [by apply cleaned_has_binary|].
      split; [rewrite cleaned_files; intros [_ H]; by apply H|].
      split; [intros f Hf Hne; rewrite cleaned_files; split; [by left|assumption]|].
      split.
      * unfold requests in *. simpl in *. rewrite filter_app, length_app. simpl. lia.
      * intros _ _. simpl. apply elem_of_app. right. apply list_elem_of_here.
    + split; [reflexivity|].
      split; [by apply cleaned_has_binary|].
      split; [rewrite cleaned_files; intros [_ H]; by apply H|].
      split; [intros f Hf Hne; rewrite cleaned_files; split; [by left|assumption]|].
      split; [exact Hrequests|].
      intros Hplat Hbin. rewrite (Hwin Hplat) in Hmode.
      by rewrite (bool_decide_eq_true_2 _ Hbin) in Hmode.
  - intros e ->. cbn [fst snd]. split; [reflexivity|]. split.
    + cbn [files emit]. rewrite staged_requested. cbn [files with_files emit].
      apply elem_of_union_r, elem_of_union_l. by apply elem_of_singleton.
    + rewrite <- (requests_staged h info proc w). unfold requests. simpl.
      rewrite filter_app, length_app. simpl. lia.
  - intros e -> Hplat Hbin ->.
    rewrite (Hwin Hplat), (bool_decide_eq_true_2 _ Hbin). cbn [andb fst snd files emit].
    split; [reflexivity|]. split; [by apply cleaned_has_binary|].
    rewrite cleaned_files. intros [_ H]. by apply H.
Qed.

Lemma download_installs_witness :
  let proc := Scenario.child_exiting 0 "" [Scenario.cache_binary] in
  let h := Scenario.machine "linux" "x64" proc in
  fst (downloadCommentChecker h (Scenario.disk [])) = Ok (Some Scenario.cache_binary) /\
  Scenario.cache_binary ∈ files (snd (downloadCommentChecker h (Scenario.disk []))).
Proof.
  intros proc h.
  destruct (download_installs h (Scenario.disk [])
              {| os := "linux"; pi_arch := "amd64"; ext := TarGz |}
              {| ok := true; statusText := "OK"; arrayBuffer := Ok "archive" |}
              "archive" proc)
    as (Hinstalls & _).
  - reflexivity.
  - vm_compute. intros H. discriminate H.
  - right. reflexivity.
  - reflexivity.
  - reflexivity.
  - reflexivity.
  - reflexivity.
  - reflexivity.
  - reflexivity.
  - destruct Hinstalls as (Hres & Hbin & _); [reflexivity|reflexivity|].
    split; [exact Hres|]. apply Hbin. apply list_elem_of_here.
Defined.

(** X3. When the request brings no archive ([fetch] throws, the status is
    not a success, or the body cannot be read), [downloadCommentChecker]
    returns absent after that one request: it spawns nothing and puts
    nothing on disk but the cache directory and, [mkdirSync] being
    recursive, the directories above it, each a prefix of the cache
    directory that a separator follows. *)
Theorem download_without_archive (h : Host) (w : World) (info : PlatformInfo) :
  PLATFORM_MAP !! platformKey h = Some info ->
  binaryPath_of h ∉ files w ->
  (getCacheDir h ∈ files w \/ mkdir_result h (getCacheDir h) = Ok tt) ->
  no_archive h info ->
  fst (downloadCommentChecker h w) = Ok None /\
  requests (snd (downloadCommentChecker h w)) = (requests w + 1)%nat /\
  tally is_spawn (snd (downloadCommentChecker h w)) = tally is_spawn w /\
  (forall f, f ∈ files (snd (downloadCommentChecker h w)) ->
             f ∈ files w \/ f = getCacheDir h \/ f ∈ parents "" (getCacheDir h)) /\
  (forall f, f ∈ parents "" (getCacheDir h) ->
             exists more, getCacheDir h = f +:+ "/" +:+ more).
Proof.
  intros Hinfo Hmissing Hdir Hnet.
  rewrite downloadCommentChecker_unfold, Hinfo.
  rewrite bool_decide_eq_false_2 by done.
  unfold try_catch. rewrite (attempt_prepared _ _ _ Hdir).
  destruct (from_request_no_archive h info (prepared h w) Hnet) as [e ->].
  cbn [fst snd ret]. split; [reflexivity|].
  split; [|split; [|split]].
  - rewrite <- (requests_prepared h w). unfold requests. simpl.
    rewrite filter_app, length_app. simpl. lia.
  - unfold tally, prepared.
    case_bool_decide; simpl; rewrite ?filter_app, ?length_app; simpl; lia.
  - intros f Hf. cbn [files emit] in Hf. apply prepared_files in Hf. tauto.
  - intros f Hf. exact (parents_prefix "" _ f Hf).
Qed.

Lemma download_without_archive_witness :
  let h := {| platform := "linux"; arch := "x64"; XDG_CACHE_HOME := Some "/cache";
              homedir := "/home/dev"; cwd := "/work";
              pkg_dir := Throw "MODULE_NOT_FOUND"; pkg_version := Ok "0.6.1";
              stringify := Scenario.json;
              net := fun _ => Ok {| ok := false; statusText := "Not Found";
                                    arrayBuffer := Ok "" |};
              child := fun _ => Throw "ENOENT";
              mkdir_result := fun _ => Ok tt; write_result := fun _ => Ok tt;
              unlink_result := fun _ => Ok tt; chmod_result := fun _ => Ok tt |} in
  downloadCommentChecker h (Scenario.disk [])
  = (Ok None,
     {| files := {[ "/cache"; "/cache/opencode-comments-plugin";
                    "/cache/opencode-comments-plugin/bin" ]};
        trace := [EMkdir "/cache/opencode-comments-plugin/bin";
                  EFetch ("https://github.com/code-yeongyu/go-claude-code-comment-checker"
                          +:+ "/releases/download/v0.6.1/comment-checker_v0.6.1_linux_amd64.tar.gz")] |}).
Proof.
  intros h.
  destruct (download_without_archive h (Scenario.disk [])
              {| os := "linux"; pi_arch := "amd64"; ext := TarGz |})
    as (Hres & _).
  - reflexivity.
  - vm_compute. intros H. discriminate H.
  - right. reflexivity.
  - left. reflexivity.
  - destruct (downloadCommentChecker h (Scenario.disk [])) as [r w'] eqn:Hrun.
    simpl in Hres. subst r. f_equal.
    vm_compute in Hrun. injection Hrun as <-. reflexivity.
Defined.



(** ** What a download may do, whatever happens *)

Section AttemptFootprint.
Variable P : effect -> bool.
Variable h : Host.
Variable info : PlatformInfo.

Lemma adds_extract :
  adds P (if P (ESpawn (extract_argv h info)) then 1 else 0)
    (match ext info with
     | TarGz => extractTarGz h (archivePath_of h info) (getCacheDir h)
     | Zip => extractZip h (archivePath_of h info) (getCacheDir h)
     end).
Proof.
  unfold extract_argv.
  destruct (ext info); unfold extractTarGz, extractZip;
    (eapply FootprintFacts.adds_mono;
     [|eapply FootprintFacts.adds_bind;
       [apply FootprintFacts.adds_spawn|
        intros proc; eapply FootprintFacts.adds_bind;
        [apply FootprintFacts.adds_lift|
         intros code; destruct (negb _);
         [eapply FootprintFacts.adds_bind;
          [apply FootprintFacts.adds_lift|intros; apply FootprintFacts.adds_throw]
         |apply FootprintFacts.adds_ret]]]]; lia).
Qed.

Lemma adds_attempt : adds P (cost P h info) (attempt h info).
Proof.
  unfold attempt, from_request, cost.
  eapply FootprintFacts.adds_mono; cycle 1.
  - eapply FootprintFacts.adds_bind; [apply FootprintFacts.adds_existsSync|intros dirPresent].
    eapply FootprintFacts.adds_bind;
      [apply FootprintFacts.adds_when, FootprintFacts.adds_mkdirSync|intros _].
    eapply FootprintFacts.adds_bind; [apply FootprintFacts.adds_fetch|intros response].
    eapply FootprintFacts.adds_bind;
      [apply FootprintFacts.adds_when, FootprintFacts.adds_throw|intros _].
    eapply FootprintFacts.adds_bind; [apply FootprintFacts.adds_lift|intros _].
    eapply FootprintFacts.adds_bind; [apply FootprintFacts.adds_bun_write|intros _].
    eapply FootprintFacts.adds_bind; [apply adds_extract|intros _].
    eapply FootprintFacts.adds_bind; [apply FootprintFacts.adds_existsSync|intros archivePresent].
    eapply FootprintFacts.adds_bind;
      [apply FootprintFacts.adds_when, FootprintFacts.adds_unlinkSync|intros _].
    eapply FootprintFacts.adds_bind; [apply FootprintFacts.adds_existsSync|intros binaryPresent].
    eapply FootprintFacts.adds_bind;
      [apply FootprintFacts.adds_when, FootprintFacts.adds_chmodSync|intros _].
    apply FootprintFacts.adds_ret.
  - lia.
Qed.

Lemma keeps_attempt :
  keeps (fun f => f <> archivePath_of h info) (attempt h info).
Proof.
  unfold attempt, from_request.
  apply FootprintFacts.keeps_bind; [apply FootprintFacts.keeps_existsSync|intros dirPresent].
  apply FootprintFacts.keeps_bind;
    [apply FootprintFacts.keeps_when, FootprintFacts.keeps_mkdirSync|intros _].
  apply FootprintFacts.keeps_bind; [apply FootprintFacts.keeps_fetch|intros response].
  apply FootprintFacts.keeps_bind;
    [apply FootprintFacts.keeps_when, FootprintFacts.keeps_throw|intros _].
  apply FootprintFacts.keeps_bind; [apply FootprintFacts.keeps_lift|intros _].
  apply FootprintFacts.keeps_bind; [apply FootprintFacts.keeps_bun_write|intros _].
  apply FootprintFacts.keeps_bind.
  { destruct (ext info); unfold extractTarGz, extractZip;
      (apply FootprintFacts.keeps_bind; [apply FootprintFacts.keeps_spawn|intros proc];
       apply FootprintFacts.keeps_bind; [apply FootprintFacts.keeps_lift|intros code];
       destruct (negb _);
       [apply FootprintFacts.keeps_bind;
        [apply FootprintFacts.keeps_lift|intros; apply FootprintFacts.keeps_throw]
       |apply FootprintFacts.keeps_ret]). }
  intros _.
  apply FootprintFacts.keeps_bind; [apply FootprintFacts.keeps_existsSync|intros archivePresent].
  apply FootprintFacts.keeps_bind;
    [apply FootprintFacts.keeps_when, FootprintFacts.keeps_unlinkSync; auto|intros _].
  apply FootprintFacts.keeps_bind; [apply FootprintFacts.keeps_existsSync|intros binaryPresent].
  apply FootprintFacts.keeps_bind;
    [apply FootprintFacts.keeps_when, FootprintFacts.keeps_chmodSync|intros _].
  apply FootprintFacts.keeps_ret.
Qed.

End AttemptFootprint.

Lemma download_adds (P : effect -> bool) (h : Host) (n : nat) :
  (forall info, PLATFORM_MAP !! platformKey h = Some info -> (cost P h info <= n)%nat) ->
  adds P n (downloadCommentChecker h).
Proof.
  intros Hcost w. rewrite downloadCommentChecker_unfold.
  destruct (PLATFORM_MAP !! platformKey h) as [info|]; [|simpl; lia].
  destruct (bool_decide _); [simpl; lia|].
  specialize (Hcost info eq_refl).
  pose proof (FootprintFacts.adds_try P (cost P h info) 0 (attempt h info)
                (fun _ => ret None) (adds_attempt P h info)
                (fun e => FootprintFacts.adds_ret P None) w) as H.
  lia.
Qed.

Lemma ensure_adds (P : effect -> bool) (h : Host) (n : nat) :
  adds P n (downloadCommentChecker h) -> adds P n (ensureCommentCheckerBinary h).
Proof.
  intros Hdownload w. unfold ensureCommentCheckerBinary, getCachedBinaryPath.
  unfold bind at 1. unfold bind at 1, existsSync at 1, ret at 1.
  destruct (truthy_str _); [simpl; lia|apply Hdownload].
Qed.

(** X5. Whatever the host answers, one call of [downloadCommentChecker]
    or of [ensureCommentCheckerBinary] makes at most one network request,
    spawns at most one child and deletes at most one file. *)
Theorem downloader_footprint (h : Host) (w : World) :
  ((requests (snd (downloadCommentChecker h w)) <= requests w + 1)%nat /\
   (tally is_spawn (snd (downloadCommentChecker h w)) <= tally is_spawn w + 1)%nat /\
   (tally is_unlink (snd (downloadCommentChecker h w)) <= tally is_unlink w + 1)%nat) /\
  ((requests (snd (ensureCommentCheckerBinary h w)) <= requests w + 1)%nat /\
   (tally is_spawn (snd (ensureCommentCheckerBinary h w)) <= tally is_spawn w + 1)%nat /\
   (tally is_unlink (snd (ensureCommentCheckerBinary h w)) <= tally is_unlink w + 1)%nat).
Proof.
  assert (Hfetch : adds is_fetch 1 (downloadCommentChecker h))
    by (apply download_adds; intros; unfold cost; simpl; lia).
  assert (Hspawn : adds is_spawn 1 (downloadCommentChecker h))
    by (apply download_adds; intros; unfold cost; simpl; lia).
  assert (Hunlink : adds is_unlink 1 (downloadCommentChecker h))
    by (apply download_adds; intros; unfold cost; simpl; lia).
  split; (split; [|split]).
  - apply Hfetch.
  - apply Hspawn.
  - apply Hunlink.
  - apply (ensure_adds _ _ _ Hfetch).
  - apply (ensure_adds _ _ _ Hspawn).
  - apply (ensure_adds _ _ _ Hunlink).
Qed.

(** X6. A file that is on disk before [downloadCommentChecker] or
    [ensureCommentCheckerBinary] runs is still there afterwards, unless
    it is the archive of this platform's release. *)
Theorem downloader_keeps_files (h : Host) (w : World) (f : string) :
  f ∈ files w ->
  (forall info, PLATFORM_MAP !! platformKey h = Some info ->
                f <> archivePath_of h info) ->
  f ∈ files (snd (downloadCommentChecker h w)) /\
  f ∈ files (snd (ensureCommentCheckerBinary h w)).
Proof.
  intros Hin Hne.
  assert (Hdownload : f ∈ files (snd (downloadCommentChecker h w))).
  { rewrite downloadCommentChecker_unfold.
    destruct (PLATFORM_MAP !! platformKey h) as [info|]; [|exact Hin].
    destruct (bool_decide _); [exact Hin|].
    apply (FootprintFacts.keeps_try (fun f => f <> archivePath_of h info));
      [apply keeps_attempt|intros; apply FootprintFacts.keeps_ret| |exact Hin].
    by apply Hne. }
  split; [exact Hdownload|].
  unfold ensureCommentCheckerBinary, getCachedBinaryPath.
  unfold bind at 1. unfold bind at 1, existsSync at 1, ret at 1.
  destruct (truthy_str _); [exact Hin|exact Hdownload].
Qed.

Lemma downloader_keeps_files_witness :
  let proc := Scenario.child_exiting 0 "" [Scenario.cache_binary] in
  let h := Scenario.machine "linux" "x64" proc in
  let w := Scenario.disk ["/home/dev/.cache/opencode-comments-plugin/bin/notes.txt"] in
  "/home/dev/.cache/opencode-comments-plugin/bin/notes.txt"
    ∈ files (snd (downloadCommentChecker h w)).
Proof.
  intros proc h w.
  apply (downloader_keeps_files h w
           "/home/dev/.cache/opencode-comments-plugin/bin/notes.txt").
  - vm_compute. reflexivity.
  - intros info Hinfo. vm_compute in Hinfo. injection Hinfo as <-.
    vm_compute. discriminate.
Defined.

(** X7. After a download that installed the executable, a second call of
    [downloadCommentChecker] or of [ensureCommentCheckerBinary] returns the
    same path and does nothing: no request, no change on disk. *)
Theorem second_download_is_free (h : Host) (w : World) (info : PlatformInfo)
    (response : Response) (buffer : string) (proc : Subprocess) :
  PLATFORM_MAP !! platformKey h = Some info ->
  binaryPath_of h ∉ files w ->
  (getCacheDir h ∈ files w \/ mkdir_result h (getCacheDir h) = Ok tt) ->
  net h (url_of h info) = Ok response ->
  ok response = true ->
  arrayBuffer response = Ok buffer ->
  write_result h (archivePath_of h info) = Ok tt ->
  child h (extract_argv h info) = Ok proc ->
  exited proc = Ok 0 ->
  unlink_result h (archivePath_of h info) = Ok tt ->
  chmod_result h (binaryPath_of h) = Ok tt ->
  binaryPath_of h ∈ written proc ->
  downloadCommentChecker h (snd (downloadCommentChecker h w))
  = (Ok (Some (binaryPath_of h)), snd (downloadCommentChecker h w)) /\
  ensureCommentCheckerBinary h (snd (downloadCommentChecker h w))
  = (Ok (Some (binaryPath_of h)), snd (downloadCommentChecker h w)).
Proof.
  intros Hinfo Hmissing Hdir Hnet Hok Hbuf Hwrite Hchild Hexit Hunlink Hchmod Hbin.
  rewrite (download_installs_run h w info response buffer proc) by assumption.
  simpl.
  pose proof (installed_has_binary h info proc w Hbin) as Hthere.
  split.
  - by apply (download_cached_run h _ info).
  - by apply ensure_cached_run.
Qed.

Lemma second_download_is_free_witness :
  let proc := Scenario.child_exiting 0 "" [Scenario.cache_binary] in
  let h := Scenario.machine "linux" "x64" proc in
  let w1 := snd (downloadCommentChecker h (Scenario.disk [])) in
  downloadCommentChecker h w1 = (Ok (Some Scenario.cache_binary), w1) /\
  requests (snd (ensureCommentCheckerBinary h w1)) = 1%nat.
Proof.
  intros proc h w1.
  destruct (second_download_is_free h (Scenario.disk [])
              {| os := "linux"; pi_arch := "amd64"; ext := TarGz |}
              {| ok := true; statusText := "OK"; arrayBuffer := Ok "archive" |}
              "archive" proc)
    as [Hdownload Hensure].
  - reflexivity.
  - vm_compute. intros H. discriminate H.
  - right. reflexivity.
  - reflexivity.
  - reflexivity.
  - reflexivity.
  - reflexivity.
  - reflexivity.
  - reflexivity.
  - reflexivity.
  - reflexivity.
  - apply list_elem_of_here.
  - split; [exact Hdownload|]. fold w1 in Hensure. rewrite Hensure. reflexivity.
Defined.

Lemma archivePath_not_cacheDir (h : Host) (info : PlatformInfo) :
  archivePath_of h info <> getCacheDir h.
Proof. apply join_longer. Qed.

(** X24. The archive and the executable never share a path, on any
    platform and for any version, and neither is the cache directory
    itself: deleting the archive cannot delete the executable. An empty
    XDG_CACHE_HOME counts as unset. *)
Theorem archive_is_never_the_executable (h : Host) (info : PlatformInfo) :
  binaryPath_of h <> archivePath_of h info /\
  binaryPath_of h <> getCacheDir h /\
  archivePath_of h info <> getCacheDir h /\
  (XDG_CACHE_HOME h = Some "" \/ XDG_CACHE_HOME h = None ->
   getCacheDir h
   = join (join (join (homedir h) ".cache") "opencode-comments-plugin") "bin").
Proof.
  split; [apply binaryPath_not_archivePath|].
  split; [apply binaryPath_not_cacheDir|].
  split; [apply archivePath_not_cacheDir|].
  unfold getCacheDir. intros [-> | ->]; reflexivity.
Qed.

End DownloaderFacts.

(* ===================================================================== *)
(** * More on the lookup and the resolver *)
(* ===================================================================== *)

Module ResolverFacts.
Import Js Types Sys Cli Startup.
Import CliSpec.

(** ** The lookup on disk *)

(** X8. [findCommentCheckerPathSync] only reads: the world is as before.
    A path it returns is a file on disk. The executable of the bundled
    package, when there is one, is preferred to the one in the cache, and
    the result is absent exactly when neither is on disk. *)
Theorem findCommentCheckerPathSync_sound (h : Host) (w : World) :
  exists found,
    findCommentCheckerPathSync h w = (Ok found, w) /\
    (forall p, found = Some p -> p ∈ files w) /\
    (forall dir, pkg_dir h = Ok dir ->
       join (join dir "bin") (getBinaryName h) ∈ files w ->
       found = Some (join (join dir "bin") (getBinaryName h))) /\
    (found = None <->
     (Downloader.binaryPath_of h ∉ files w) /\
     (forall dir, pkg_dir h = Ok dir ->
        join (join dir "bin") (getBinaryName h) ∉ files w)).
Proof.
  unfold findCommentCheckerPathSync, Downloader.getCachedBinaryPath.
  fold (Downloader.binaryPath_of h).
  unfold try_catch, bind, lift, ret, existsSync.
  pose proof (DownloaderSpec.join_truthy (Downloader.getCacheDir h)
                (Downloader.getBinaryName h)) as Htruthy.
  fold (Downloader.binaryPath_of h) in Htruthy. unfold truthy_str in Htruthy.
  destruct (pkg_dir h) as [dir|e]; simpl.
  - case_bool_decide as Hbundled; simpl.
    + eexists. split; [reflexivity|]. split; [|split].
      * intros p Hp. by injection Hp as <-.
      * intros dir' Hdir _. by injection Hdir as <-.
      * split; [discriminate|]. intros [_ H]. by destruct (H dir eq_refl).
    + case_bool_decide as Hcached; simpl.
      * rewrite Htruthy. eexists. split; [reflexivity|]. split; [|split].
        -- intros p Hp. by injection Hp as <-.
        -- intros dir' Hdir Hin. injection Hdir as <-. contradiction.
        -- split; [discriminate|]. intros [H _]. contradiction.
      * eexists. split; [reflexivity|]. split; [|split].
        -- discriminate.
        -- intros dir' Hdir Hin. injection Hdir as <-. contradiction.
        -- split; [|reflexivity]. intros _. split; [assumption|].
           intros dir' Hdir. by injection Hdir as <-.
  - case_bool_decide as Hcached; simpl.
    + rewrite Htruthy. eexists. split; [reflexivity|]. split; [|split].
      * intros p Hp. by injection Hp as <-.
      * discriminate.
      * split; [discriminate|]. intros [H _]. contradiction.
    + eexists. split; [reflexivity|]. split; [|split].
      * discriminate.
      * discriminate.
      * split; [|reflexivity]. intros _. split; [assumption|]. discriminate.
Qed.

(** ** Reachable states of the resolver *)

Lemma await_promise (s : Resolver) (v : option string) :
  await s (HPromise 0) = Some v <-> promises s !! 0%nat = Some (Fulfilled v).
Proof.
  simpl. destruct (promises s !! 0%nat) as [[|v0]|]; split; intros H;
    try discriminate; congruence.
Qed.

Lemma syncPath_nonempty (h : Host) (w : World) (path : string) :
  syncPath h w = Some path -> path <> "".
Proof.
  unfold syncPath.
  destruct (findCommentCheckerPathSync h w) as [[[p|]|e] w']; try discriminate.
  destruct (truthy_str (Some p)) eqn:Htruthy; simpl; [|discriminate].
  destruct (bool_decide _); [|discriminate].
  intros H. injection H as <-. by apply JsFacts.truthy_str_nonempty.
Qed.

Lemma getCommentCheckerPath_agrees (h : Host) (w : World) (s : Resolver)
    (hs : list handle) :
  consistent s hs -> agrees s -> agrees (fst (getCommentCheckerPath h w s)).
Proof.
  unfold getCommentCheckerPath. intros Hs Hagree.
  destruct (resolvedCliPath s) as [path|] eqn:Hres; [exact Hagree|].
  destruct (initPromise s) as [pr|] eqn:Hinit; [exact Hagree|].
  unfold consistent in Hs. rewrite Hinit in Hs. destruct Hs as (_ & Hp & _).
  rewrite Hp. simpl.
  destruct (syncPath h w) as [path|] eqn:Hsync; intros v Hv; simpl in *.
  - injection Hv as <-. split; [reflexivity|]. by eapply syncPath_nonempty.
  - discriminate.
Qed.

Lemma resume_agrees (p : nat) (r : option string) (s : Resolver)
    (hs : list handle) :
  consistent s hs -> agrees s -> agrees (resume p r s).
Proof.
  unfold resume. intros Hs Hagree.
  destruct (promises s !! p) as [[|v0]|] eqn:Hp; try exact Hagree.
  unfold consistent in Hs.
  destruct (initPromise s) as [pr|].
  - destruct Hs as (_ & c & Hps & _). rewrite Hps in Hp.
    destruct p as [|p]; [|discriminate]. injection Hp as ->.
    destruct (truthy_str r) eqn:Htruthy; intros v Hv; simpl in *;
      rewrite Hps in Hv; simpl in Hv.
    + injection Hv as ->. split; [reflexivity|].
      by apply JsFacts.truthy_str_nonempty.
    + discriminate.
  - destruct Hs as (_ & Hps & _). rewrite Hps in Hp. discriminate.
Qed.

Lemma step_agrees (h : Host) (e : event) (s : Resolver) (hs : list handle) :
  consistent s hs -> agrees s -> agrees (fst (step h s e)).
Proof.
  intros Hs Hagree. destruct e as [w|w|p r]; simpl.
  - pose proof (getCommentCheckerPath_agrees h w s hs Hs Hagree) as H.
    by destruct (getCommentCheckerPath h w s).
  - unfold startBackgroundInit.
    destruct (initPromise s); [exact Hagree|].
    pose proof (getCommentCheckerPath_agrees h w s hs Hs Hagree) as H.
    by destruct (getCommentCheckerPath h w s).
  - by eapply resume_agrees.
Qed.

Lemma run_agrees (h : Host) (es : list event) (s : Resolver) (hs : list handle) :
  consistent s hs -> agrees s -> agrees (fst (run h s es)).
Proof.
  revert s hs. induction es as [|e es IH]; intros s hs Hs Hagree; [exact Hagree|].
  simpl.
  pose proof (step_agrees h e s hs Hs Hagree) as Hstep.
  destruct (step h s e) as [s1 hs1] eqn:Hs1.
  pose proof (step_consistent h e s s1 hs hs1 Hs Hs1) as Hcons.
  specialize (IH s1 _ Hcons Hstep).
  by destruct (run h s1 es).
Qed.

Lemma agrees_initial : agrees initial.
Proof. intros v Hv. discriminate. Qed.

(** A reachable state, with all that is known of it. *)
Lemma reachable (h : Host) (es : list event) (s : Resolver) (hs : list handle) :
  run h initial es = (s, hs) -> consistent s hs /\ agrees s.
Proof.
  intros Hrun. split.
  - exact (run_consistent h es initial s [] hs consistent_initial Hrun).
  - pose proof (run_agrees h es initial [] consistent_initial agrees_initial) as H.
    by rewrite Hrun in H.
Qed.

Lemma reachable_resolved (s : Resolver) (hs : list handle) (v : string) :
  consistent s hs -> agrees s ->
  (resolvedCliPath s = Some v <-> await s (HPromise 0) = Some (Some v)).
Proof.
  intros Hs Hagree. rewrite await_promise. split.
  - intros Hres. unfold consistent in Hs.
    destruct (initPromise s) as [pr|].
    + destruct Hs as (_ & c & Hp & _ & Hc & _). rewrite Hp. simpl.
      by rewrite (Hc v Hres).
    + destruct Hs as (Hnone & _). congruence.
  - intros Hp. by apply Hagree.
Qed.

(** The first call, seen from the initial state. *)
Lemma first_step (h : Host) (w : World) (e0 : event) :
  e0 = EvCall w \/ e0 = EvBackground w ->
  fst (step h initial e0)
  = match syncPath h w with
    | Some path =>
        {| resolvedCliPath := Some path; initPromise := Some (HPromise 0);
           promises := [Fulfilled (Some path)]; log := [SLookup] |}
    | None =>
        {| resolvedCliPath := None; initPromise := Some (HPromise 0);
           promises := [Pending]; log := [SLookup; SDownload 0] |}
    end.
Proof.
  intros [-> | ->]; simpl; unfold startBackgroundInit, getCommentCheckerPath; simpl;
    destruct (syncPath h w); reflexivity.
Qed.

Lemma run_cons (h : Host) (e : event) (es : list event) (s : Resolver) :
  fst (run h s (e :: es)) = fst (run h (fst (step h s e)) es).
Proof.
  simpl. destruct (step h s e) as [s1 hs1]. simpl.
  by destruct (run h s1 es).
Qed.

(** While promise 0 is pending, the first download to settle decides. *)
Lemma pending_run (h : Host) (es : list event) (s : Resolver) (pr : handle) :
  initPromise s = Some pr ->
  promises s = [Pending] ->
  await (fst (run h s es)) (HPromise 0) = settled_with es.
Proof.
  revert s. induction es as [|e es IH]; intros s Hinit Hp.
  - simpl. by rewrite Hp.
  - rewrite run_cons. destruct e as [w|w|p r].
    + assert (Hsame : fst (step h s (EvCall w)) = s).
      { simpl. unfold getCommentCheckerPath. rewrite Hinit.
        by destruct (resolvedCliPath s). }
      rewrite Hsame. by apply IH.
    + assert (Hsame : fst (step h s (EvBackground w)) = s).
      { simpl. unfold startBackgroundInit. by rewrite Hinit. }
      rewrite Hsame. by apply IH.
    + destruct p as [|p].
      * simpl step. simpl fst.
        destruct (run_keeps h es (resume 0 r s) pr) as [_ Hawait].
        { unfold resume. rewrite Hp. simpl. by destruct (truthy_str r). }
        simpl settled_with. apply Hawait.
        unfold resume. rewrite Hp. simpl.
        destruct (truthy_str r); simpl; reflexivity.
      * assert (Hsame : fst (step h s (EvSettled (S p) r)) = s).
        { simpl. unfold resume. by rewrite Hp. }
        rewrite Hsame. simpl settled_with. by apply IH.
Qed.

Lemma run_from_first (h : Host) (w : World) (e0 : event) (es : list event)
    (s : Resolver) (hs : list handle) :
  e0 = EvCall w \/ e0 = EvBackground w ->
  run h initial (e0 :: es) = (s, hs) ->
  s = fst (run h (fst (step h initial e0)) es) /\
  initPromise (fst (step h initial e0)) = Some (HPromise 0).
Proof.
  intros He0 Hrun. split.
  - rewrite <- run_cons, Hrun. reflexivity.
  - rewrite (first_step h w e0 He0). by destruct (syncPath h w).
Qed.

(** X9. When the first call of [getCommentCheckerPath] or of
    [startBackgroundInit] finds the executable on disk, no download is
    ever started, [resolvedCliPath] is that path from then on, and every
    caller, whatever happens later, gets that path. *)
Theorem found_on_disk_settles_at_once (h : Host) (w : World) (e0 : event)
    (es : list event) (s : Resolver) (hs : list handle) (path : string) :
  e0 = EvCall w \/ e0 = EvBackground w ->
  syncPath h w = Some path ->
  run h initial (e0 :: es) = (s, hs) ->
  downloads s = 0%nat /\
  resolvedCliPath s = Some path /\
  forall hd, In hd hs -> await s hd = Some (Some path).
Proof.
  intros He0 Hsync Hrun.
  destruct (reachable h _ s hs Hrun) as [Hcons Hagree].
  destruct (run_from_first h w e0 es s hs He0 Hrun) as [Hs Hinit].
  destruct (run_keeps h es _ _ Hinit) as [Hlog Hawait].
  rewrite <- Hs in Hlog, Hawait.
  rewrite (first_step h w e0 He0), Hsync in Hlog, Hawait. simpl in Hlog.
  assert (Hzero : await s (HPromise 0) = Some (Some path)) by (by apply Hawait).
  split; [unfold downloads; by rewrite Hlog|].
  split; [by apply (reachable_resolved s hs path Hcons Hagree)|].
  intros hd Hin. by rewrite (consistent_await s hs hd Hcons Hin).
Qed.

Lemma found_on_disk_settles_at_once_witness :
  let h := Scenario.machine "linux" "x64" (Scenario.child_exiting 0 "" []) in
  let w := Scenario.disk [Scenario.cache_binary] in
  let es := [EvCall w; EvCall (Scenario.disk []); EvSettled 0 None;
             EvCall (Scenario.disk [])] in
  downloads (fst (run h initial es)) = 0%nat /\
  forall hd, In hd (snd (run h initial es)) -> await (fst (run h initial es)) hd
                                                = Some (Some Scenario.cache_binary).
Proof.
  intros h w es.
  destruct (found_on_disk_settles_at_once h w (EvCall w)
              [EvCall (Scenario.disk []); EvSettled 0 None; EvCall (Scenario.disk [])]
              (fst (run h initial es)) (snd (run h initial es)) Scenario.cache_binary)
    as (Hdown & _ & Hall).
  - by left.
  - vm_compute. reflexivity.
  - reflexivity.
  - split; [exact Hdown|exact Hall].
Defined.

(** X10. When the first call finds nothing on disk, one download is
    started and the first download to settle decides for good: every
    caller gets its path, or absent when it brought none (the empty string
    counts as none); until then every caller is pending, and a later
    settlement changes nothing. *)
Theorem first_settlement_decides (h : Host) (w : World) (e0 : event)
    (es : list event) (s : Resolver) (hs : list handle) :
  e0 = EvCall w \/ e0 = EvBackground w ->
  syncPath h w = None ->
  run h initial (e0 :: es) = (s, hs) ->
  downloads s = 1%nat /\
  forall hd, In hd hs -> await s hd = settled_with es.
Proof.
  intros He0 Hsync Hrun.
  destruct (reachable h _ s hs Hrun) as [Hcons _].
  destruct (run_from_first h w e0 es s hs He0 Hrun) as [Hs Hinit].
  destruct (run_keeps h es _ _ Hinit) as [Hlog _].
  rewrite <- Hs in Hlog.
  assert (Hzero : await s (HPromise 0) = settled_with es).
  { rewrite Hs. apply (pending_run h es _ (HPromise 0)); [exact Hinit|].
    rewrite (first_step h w e0 He0), Hsync. reflexivity. }
  rewrite (first_step h w e0 He0), Hsync in Hlog. simpl in Hlog.
  split; [unfold downloads; by rewrite Hlog|].
  intros hd Hin. by rewrite (consistent_await s hs hd Hcons Hin).
Qed.

Lemma first_settlement_decides_witness :
  let h := Scenario.machine "linux" "x64" (Scenario.child_exiting 0 "" []) in
  let w := Scenario.disk [] in
  let es := [EvBackground w; EvCall w; EvSettled 0 (Some ""); EvCall w;
             EvSettled 0 (Some Scenario.cache_binary)] in
  downloads (fst (run h initial es)) = 1%nat /\
  forall hd, In hd (snd (run h initial es)) -> await (fst (run h initial es)) hd
                                                = Some None.
Proof.
  intros h w es.
  destruct (first_settlement_decides h w (EvBackground w)
              [EvCall w; EvSettled 0 (Some ""); EvCall w;
               EvSettled 0 (Some Scenario.cache_binary)]
              (fst (run h initial es)) (snd (run h initial es)))
    as (Hdown & Hall).
  - by right.
  - vm_compute. reflexivity.
  - reflexivity.
  - split; [exact Hdown|exact Hall].
Defined.

(** X11. In every state the resolver can reach, [resolvedCliPath] is set
    exactly when the promise has been fulfilled with a path, and to that
    path; it is never the empty string and, once set, never changes. So a
    caller that awaited a path finds that [runCommentChecker], which reads
    [resolvedCliPath], settles on the same path. *)
Theorem resolved_path_is_the_promised_path (h : Host) (es later : list event)
    (s s' : Resolver) (hs hs' : list handle) :
  run h initial es = (s, hs) ->
  run h s later = (s', hs') ->
  (forall v, resolvedCliPath s = Some v <-> await s (HPromise 0) = Some (Some v)) /\
  (forall v, resolvedCliPath s = Some v -> v <> "" /\ resolvedCliPath s' = Some v) /\
  (forall hd v, In hd hs -> await s hd = Some (Some v) ->
     forall text w,
       located h (resolvedCliPath s) {| cliPath := None; prompt := text |} w
       = Ok (Some v)).
Proof.
  intros Hrun Hlater.
  destruct (reachable h es s hs Hrun) as [Hcons Hagree].
  pose proof (run_consistent h later s s' hs hs' Hcons Hlater) as Hcons'.
  pose proof (run_agrees h later s hs Hcons Hagree) as Hagree'.
  rewrite Hlater in Hagree'. simpl in Hagree'.
  split; [|split].
  - intros v. by apply (reachable_resolved s hs).
  - intros v Hres.
    pose proof (proj1 (reachable_resolved s hs v Hcons Hagree) Hres) as Hzero.
    split; [by apply (Hagree v), await_promise|].
    assert (Hinit : exists pr, initPromise s = Some pr).
    { unfold consistent in Hcons. destruct (initPromise s) as [pr|]; [eauto|].
      destruct Hcons as (Hnone & _). congruence. }
    destruct Hinit as [pr Hinit].
    destruct (run_keeps h later s pr Hinit) as [_ Hawait].
    rewrite Hlater in Hawait. simpl in Hawait.
    apply (reachable_resolved s' (hs ++ hs') v Hcons' Hagree').
    by apply Hawait.
  - intros hd v Hin Hhd text w.
    rewrite (consistent_await s hs hd Hcons Hin) in Hhd.
    apply (reachable_resolved s hs v Hcons Hagree) in Hhd.
    unfold located, binaryPath_of. rewrite Hhd. reflexivity.
Qed.

Lemma resolved_path_is_the_promised_path_witness :
  let h := Scenario.machine "linux" "x64" (Scenario.child_exiting 0 "" []) in
  let w := Scenario.disk [] in
  let es := [EvBackground w; EvCall w; EvSettled 0 (Some Scenario.cache_binary)] in
  let later := [EvSettled 0 None; EvCall w] in
  resolvedCliPath (fst (run h initial es)) = Some Scenario.cache_binary /\
  resolvedCliPath (fst (run h (fst (run h initial es)) later))
  = Some Scenario.cache_binary.
Proof.
  intros h w es later.
  destruct (resolved_path_is_the_promised_path h es later
              (fst (run h initial es)) (fst (run h (fst (run h initial es)) later))
              (snd (run h initial es)) (snd (run h (fst (run h initial es)) later))
              eq_refl eq_refl)
    as (_ & Hkept & _).
  split; [reflexivity|]. apply (Hkept Scenario.cache_binary). reflexivity.
Defined.

(** X12. An absent outcome is kept by [getCommentCheckerPath] alone: it
    answers absent again whatever is on disk by then, while
    [resolvedCliPath] stays null, so that [getCommentCheckerPathSync]
    looks on disk again at every call. *)
Theorem absent_is_kept_by_the_promise_only (h : Host) (es : list event)
    (s : Resolver) (hs : list handle) (hd : handle) :
  run h initial es = (s, hs) ->
  In hd hs ->
  await s hd = Some None ->
  resolvedCliPath s = None /\
  (forall w, getCommentCheckerPathSync h (resolvedCliPath s) w
             = findCommentCheckerPathSync h w) /\
  (forall w, fst (getCommentCheckerPath h w s) = s /\
             await s (snd (getCommentCheckerPath h w s)) = Some None).
Proof.
  intros Hrun Hin Hhd.
  destruct (reachable h es s hs Hrun) as [Hcons Hagree].
  rewrite (consistent_await s hs hd Hcons Hin) in Hhd.
  assert (Hres : resolvedCliPath s = None).
  { destruct (resolvedCliPath s) as [v|] eqn:Hres; [|reflexivity].
    apply (reachable_resolved s hs v Hcons Hagree) in Hres. congruence. }
  split; [exact Hres|]. split.
  - intros w. by rewrite Hres.
  - intros w. unfold getCommentCheckerPath. rewrite Hres.
    unfold consistent in Hcons.
    destruct (initPromise s) as [pr|].
    + destruct Hcons as (-> & _). by split.
    + destruct Hcons as (_ & _ & _ & ->). destruct Hin.
Qed.

Lemma absent_is_kept_by_the_promise_only_witness :
  let h := Scenario.machine "linux" "x64" (Scenario.child_exiting 0 "" []) in
  let s := fst (run h initial [EvCall (Scenario.disk []); EvSettled 0 None]) in
  let w := Scenario.disk [Scenario.cache_binary] in
  await s (snd (getCommentCheckerPath h w s)) = Some None /\
  fst (getCommentCheckerPathSync h (resolvedCliPath s) w)
  = Ok (Some Scenario.cache_binary).
Proof.
  intros h s w.
  destruct (absent_is_kept_by_the_promise_only h
              [EvCall (Scenario.disk []); EvSettled 0 None] s
              (snd (run h initial [EvCall (Scenario.disk []); EvSettled 0 None]))
              (HPromise 0))
    as (_ & Hsync & Hasync).
  - reflexivity.
  - left. reflexivity.
  - reflexivity.
  - split; [apply Hasync|]. rewrite Hsync. vm_compute. reflexivity.
Defined.

(** X23. The start of the plugin, which calls [startBackgroundInit] and
    then [getCommentCheckerPath], looks on disk once. When the lookup
    finds the executable, [cliPathPromise] is settled with its path and no
    download is started; otherwise [cliPathPromise] is the promise of the
    one download that was started, and is pending. A later
    [startBackgroundInit] does nothing. *)
Theorem plugin_start_resolves_once (h : Host) (w : World) :
  run h initial [EvBackground w; EvCall w]
  = (fst (CommentCheckerPlugin h w), [snd (CommentCheckerPlugin h w)]) /\
  initPromise (fst (CommentCheckerPlugin h w)) = Some (HPromise 0) /\
  lookups (fst (CommentCheckerPlugin h w)) = 1%nat /\
  match syncPath h w with
  | Some path =>
      snd (CommentCheckerPlugin h w) = HValue (Some path) /\
      downloads (fst (CommentCheckerPlugin h w)) = 0%nat /\
      await (fst (CommentCheckerPlugin h w)) (snd (CommentCheckerPlugin h w))
      = Some (Some path)
  | None =>
      snd (CommentCheckerPlugin h w) = HPromise 0 /\
      downloads (fst (CommentCheckerPlugin h w)) = 1%nat /\
      await (fst (CommentCheckerPlugin h w)) (snd (CommentCheckerPlugin h w)) = None
  end /\
  forall w', startBackgroundInit h w' (fst (CommentCheckerPlugin h w))
             = fst (CommentCheckerPlugin h w).
Proof.
  pose proof (first_step h w (EvBackground w) (or_intror eq_refl)) as Hbg.
  cbn [step fst] in Hbg.
  unfold CommentCheckerPlugin. cbn [run step]. rewrite !Hbg.
  destruct (syncPath h w) as [path|]; repeat split; reflexivity.
Qed.

End ResolverFacts.

(* ===================================================================== *)
(** * More on the check invoker *)
(* ===================================================================== *)

Module InvokerFacts.
Import Js Types Sys Cli Footprint Config.
Import CliSpec.

Lemma adds_reads {A} (P : effect -> bool) (m : M A) :
  (forall w, snd (m w) = w) -> adds P 0 m.
Proof. intros Hm w. rewrite Hm. lia. Qed.

Lemma keeps_reads {A} (Q : string -> Prop) (m : M A) :
  (forall w, snd (m w) = w) -> keeps Q m.
Proof. intros Hm w f _ Hf. by rewrite Hm. Qed.

Lemma binaryPath_of_world (h : Host) (resolved : option string)
    (options : RunOptions) (w : World) :
  snd (binaryPath_of h resolved options w) = w.
Proof.
  destruct (binaryPath_of_reads h resolved options w) as [bp Hbp]. by rewrite Hbp.
Qed.

Section InvokerFootprint.
Variable P : effect -> bool.
Variables a b c : nat.
Hypothesis Hcheck : forall input, ((if P (ECheck input) then 1 else 0) <= a)%nat.
Hypothesis Hspawn : forall argv, ((if P (ESpawn argv) then 1 else 0) <= b)%nat.
Hypothesis Hstdin : forall payload, ((if P (EStdin payload) then 1 else 0) <= c)%nat.

Lemma adds_runCommentChecker (h : Host) (resolved : option string)
    (input : HookInput) (options : RunOptions) :
  adds P (a + b + c) (runCommentChecker h resolved input options).
Proof.
  unfold runCommentChecker.
  eapply FootprintFacts.adds_mono; cycle 1.
  - eapply (FootprintFacts.adds_bind P a (0 + (b + c))).
    { eapply FootprintFacts.adds_mono; [apply Hcheck|apply FootprintFacts.adds_note]. }
    intros _.
    eapply FootprintFacts.adds_bind.
    { apply adds_reads. apply binaryPath_of_world. }
    intros [path|]; [|eapply FootprintFacts.adds_mono; [|apply FootprintFacts.adds_ret]; lia].
    destruct (negb (truthy_str (Some path)));
      [eapply FootprintFacts.adds_mono; [|apply FootprintFacts.adds_ret]; lia|].
    eapply (FootprintFacts.adds_mono P (0 + (b + c))); [lia|].
    eapply FootprintFacts.adds_bind; [apply FootprintFacts.adds_existsSync|].
    intros present.
    destruct (negb present);
      [eapply FootprintFacts.adds_mono; [|apply FootprintFacts.adds_ret]; lia|].
    eapply (FootprintFacts.adds_mono P (0 + ((b + (c + 0)) + 0))); [lia|].
    eapply FootprintFacts.adds_bind; [apply FootprintFacts.adds_lift|intros jsonInput].
    apply FootprintFacts.adds_try; [|intros; apply FootprintFacts.adds_ret].
    eapply FootprintFacts.adds_bind.
    { eapply FootprintFacts.adds_mono; [apply Hspawn|apply FootprintFacts.adds_spawn]. }
    intros proc.
    eapply FootprintFacts.adds_bind.
    { eapply FootprintFacts.adds_mono; [apply Hstdin|apply FootprintFacts.adds_write_stdin]. }
    intros _.
    eapply (FootprintFacts.adds_mono P (0 + (0 + (0 + (0 + 0))))); [lia|].
    eapply FootprintFacts.adds_bind; [apply FootprintFacts.adds_lift|intros _].
    eapply FootprintFacts.adds_bind; [apply FootprintFacts.adds_lift|intros stdout].
    eapply FootprintFacts.adds_bind; [apply FootprintFacts.adds_lift|intros stderr].
    eapply FootprintFacts.adds_bind; [apply FootprintFacts.adds_lift|intros exitCode].
    destruct (exitCode =? 0); [apply FootprintFacts.adds_ret|].
    destruct (exitCode =? 2); apply FootprintFacts.adds_ret.
  - lia.
Qed.

End InvokerFootprint.

Lemma keeps_runCommentChecker (h : Host) (resolved : option string)
    (input : HookInput) (options : RunOptions) :
  keeps (fun _ => True) (runCommentChecker h resolved input options).
Proof.
  unfold runCommentChecker.
  apply FootprintFacts.keeps_bind; [apply FootprintFacts.keeps_note|intros _].
  apply FootprintFacts.keeps_bind.
  { apply keeps_reads. apply binaryPath_of_world. }
  intros [path|]; [|apply FootprintFacts.keeps_ret].
  destruct (negb (truthy_str (Some path))); [apply FootprintFacts.keeps_ret|].
  apply FootprintFacts.keeps_bind; [apply FootprintFacts.keeps_existsSync|].
  intros present. destruct (negb present); [apply FootprintFacts.keeps_ret|].
  apply FootprintFacts.keeps_bind; [apply FootprintFacts.keeps_lift|intros jsonInput].
  apply FootprintFacts.keeps_try; [|intros; apply FootprintFacts.keeps_ret].
  apply FootprintFacts.keeps_bind; [apply FootprintFacts.keeps_spawn|intros proc].
  apply FootprintFacts.keeps_bind; [apply FootprintFacts.keeps_write_stdin|intros _].
  apply FootprintFacts.keeps_bind; [apply FootprintFacts.keeps_lift|intros _].
  apply FootprintFacts.keeps_bind; [apply FootprintFacts.keeps_lift|intros stdout].
  apply FootprintFacts.keeps_bind; [apply FootprintFacts.keeps_lift|intros stderr].
  apply FootprintFacts.keeps_bind; [apply FootprintFacts.keeps_lift|intros exitCode].
  destruct (exitCode =? 0); [apply FootprintFacts.keeps_ret|].
  destruct (exitCode =? 2); apply FootprintFacts.keeps_ret.
Qed.

(** X13. Whatever the host answers, one call of [runCommentChecker]
    makes no network request, deletes nothing, spawns at most one child
    and leaves every file that was on disk. *)
Theorem runCommentChecker_footprint (h : Host) (resolved : option string)
    (input : HookInput) (options : RunOptions) (w : World) :
  (requests (snd (runCommentChecker h resolved input options w)) <= requests w)%nat /\
  (tally is_unlink (snd (runCommentChecker h resolved input options w))
   <= tally is_unlink w)%nat /\
  (tally is_spawn (snd (runCommentChecker h resolved input options w))
   <= tally is_spawn w + 1)%nat /\
  (forall f, f ∈ files w ->
             f ∈ files (snd (runCommentChecker h resolved input options w))).
Proof.
  split; [|split; [|split]].
  - pose proof (adds_runCommentChecker is_fetch 0 0 0
                  (fun _ => le_n 0) (fun _ => le_n 0) (fun _ => le_n 0)
                  h resolved input options w) as H.
    unfold tally in H. unfold requests. lia.
  - pose proof (adds_runCommentChecker is_unlink 0 0 0
                  (fun _ => le_n 0) (fun _ => le_n 0) (fun _ => le_n 0)
                  h resolved input options w) as H. lia.
  - pose proof (adds_runCommentChecker is_spawn 0 1 0
                  (fun _ => le_n 0) (fun _ => le_n 1) (fun _ => le_n 0)
                  h resolved input options w) as H. lia.
  - intros f Hf. by apply keeps_runCommentChecker.
Qed.

Lemma binaryPath_of_noted (h : Host) (resolved : option string)
    (options : RunOptions) (input : HookInput) (w : World) (bp : option string) :
  located h resolved options w = Ok bp ->
  binaryPath_of h resolved options (emit (ECheck input) w)
  = (Ok bp, emit (ECheck input) w).
Proof.
  unfold located. intros Hbp.
  rewrite <- (binaryPath_of_emit _ _ _ (ECheck input)) in Hbp.
  destruct (binaryPath_of_reads h resolved options (emit (ECheck input) w))
    as [bp' Hrun].
  rewrite Hrun in Hbp. simpl in Hbp. injection Hbp as ->. exact Hrun.
Qed.

(** The check up to [JSON.stringify], with a binary path that is on
    disk. *)
Lemma runCommentChecker_serialises (h : Host) (resolved : option string)
    (input : HookInput) (options : RunOptions) (w : World) (path : string) :
  located h resolved options w = Ok (Some path) -> path <> "" ->
  path ∈ files w ->
  runCommentChecker h resolved input options w
  = match stringify h input with
    | Throw e => (Throw e, emit (ECheck input) w)
    | Ok jsonInput =>
        try_catch
          (do proc <- spawn h (argv_of path options);
           exec write_stdin proc jsonInput;
           exec lift (stdin_end proc);
           do stdout <- lift (stdout_text proc);
           do stderr <- lift (stderr_text proc);
           do exitCode <- lift (exited proc);
           if exitCode =? 0 then ret no_comments
           else if exitCode =? 2 then ret {| hasComments := true; message := stderr |}
           else ret no_comments)%sys
          (fun _ => ret no_comments) (emit (ECheck input) w)
    end.
Proof.
  intros Hbp Hne Hin.
  unfold runCommentChecker. unfold bind at 1, note at 1. unfold bind at 1.
  rewrite (binaryPath_of_noted _ _ _ input _ _ Hbp).
  apply JsFacts.truthy_str_nonempty in Hne. rewrite Hne. cbn [negb].
  unfold bind at 1, existsSync at 1. cbn [files emit].
  rewrite bool_decide_eq_true_2 by done. cbn [negb].
  unfold bind at 1, lift at 1.
  destruct (stringify h input); reflexivity.
Qed.

Lemma runCommentChecker_spawned (h : Host) (resolved : option string)
    (input : HookInput) (options : RunOptions) (w : World) (path : string)
    (jsonInput : string) (proc : Subprocess) :
  located h resolved options w = Ok (Some path) -> path <> "" ->
  path ∈ files w ->
  stringify h input = Ok jsonInput ->
  child h (argv_of path options) = Ok proc ->
  snd (runCommentChecker h resolved input options w)
  = emit (EStdin jsonInput)
      (with_files (union (list_to_set (written proc)))
         (emit (ESpawn (argv_of path options)) (emit (ECheck input) w))).
Proof.
  intros Hbp Hne Hin Hjson Hchild.
  rewrite (runCommentChecker_serialises _ _ _ _ _ _ Hbp Hne Hin), Hjson.
  unfold try_catch, bind at 1, spawn at 1. rewrite Hchild.
  unfold bind at 1, write_stdin at 1.
  destruct (stdin_write proc jsonInput); [|reflexivity].
  unfold bind, lift, ret.
  destruct (stdin_end proc); [|reflexivity].
  destruct (stdout_text proc); [|reflexivity].
  destruct (stderr_text proc); [|reflexivity].
  destruct (exited proc) as [exitCode|]; [|reflexivity].
  destruct (exitCode =? 0); [reflexivity|].
  destruct (exitCode =? 2); reflexivity.
Qed.

(** The history after a check is the history before it, the note of the
    check, and whatever the check went on to do. *)
Lemma runCommentChecker_trace (h : Host) (resolved : option string)
    (input : HookInput) (options : RunOptions) (w : World) :
  exists rest,
    trace (snd (runCommentChecker h resolved input options w))
    = (trace w ++ ECheck input :: rest)%list.
Proof.
  destruct (binaryPath_of_reads h resolved options w) as [bp Hbp].
  assert (Hloc : located h resolved options w = Ok bp)
    by (unfold located; by rewrite Hbp).
  destruct bp as [path|]; cycle 1.
  { unfold runCommentChecker. unfold bind at 1, note at 1. unfold bind at 1.
    rewrite (binaryPath_of_noted _ _ _ input _ _ Hloc). by exists []. }
  destruct (String.eqb_spec path "") as [->|Hne].
  { unfold runCommentChecker. unfold bind at 1, note at 1. unfold bind at 1.
    rewrite (binaryPath_of_noted _ _ _ input _ _ Hloc). by exists []. }
  destruct (decide (path ∈ files w)) as [Hin|Hmissing]; cycle 1.
  { unfold runCommentChecker. unfold bind at 1, note at 1. unfold bind at 1.
    rewrite (binaryPath_of_noted _ _ _ input _ _ Hloc).
    destruct (negb (truthy_str (Some path))); [by exists []|].
    unfold bind at 1, existsSync at 1. cbn [files emit].
    rewrite bool_decide_eq_false_2 by done. by exists []. }
  destruct (stringify h input) as [jsonInput|e] eqn:Hjson; cycle 1.
  { rewrite (runCommentChecker_serialises _ _ _ _ _ _ Hloc Hne Hin), Hjson.
    by exists []. }
  destruct (child h (argv_of path options)) as [proc|e] eqn:Hchild.
  - rewrite (runCommentChecker_spawned _ _ _ _ _ _ _ _ Hloc Hne Hin Hjson Hchild).
    eexists. simpl. by rewrite <- !app_assoc.
  - rewrite (runCommentChecker_serialises _ _ _ _ _ _ Hloc Hne Hin), Hjson.
    unfold try_catch, bind at 1, spawn at 1. rewrite Hchild.
    eexists. simpl. by rewrite <- app_assoc.
Qed.

(** X14. What [runCommentChecker] does to the world. With a binary path
    that is on disk and a hook input that [JSON.stringify] turns into a
    text, it spawns one child and writes that text to its standard input,
    whatever the child does next; when the spawn throws, nothing is
    written. When [JSON.stringify] throws, the check ends in that
    exception before anything is spawned. Without a usable path nothing
    is spawned either. The command line is the path, followed by
    ["--prompt"] and the prompt when the prompt has a code unit that [trim]
    leaves. *)
Theorem runCommentChecker_protocol (h : Host) (resolved : option string)
    (input : HookInput) (options : RunOptions) (w : World) :
  (forall path jsonInput proc,
     located h resolved options w = Ok (Some path) -> path <> "" ->
     path ∈ files w ->
     stringify h input = Ok jsonInput ->
     child h (argv_of path options) = Ok proc ->
     trace (snd (runCommentChecker h resolved input options w))
     = (trace w ++ [ECheck input; ESpawn (argv_of path options);
                    EStdin jsonInput])%list /\
     files (snd (runCommentChecker h resolved input options w))
     = list_to_set (written proc) ∪ files w) /\
  (forall path jsonInput e,
     located h resolved options w = Ok (Some path) -> path <> "" ->
     path ∈ files w ->
     stringify h input = Ok jsonInput ->
     child h (argv_of path options) = Throw e ->
     snd (runCommentChecker h resolved input options w)
     = emit (ESpawn (argv_of path options)) (emit (ECheck input) w)) /\
  (forall path e,
     located h resolved options w = Ok (Some path) -> path <> "" ->
     path ∈ files w ->
     stringify h input = Throw e ->
     runCommentChecker h resolved input options w
     = (Throw e, emit (ECheck input) w)) /\
  (forall bp,
     located h resolved options w = Ok bp ->
     (bp = None \/ bp = Some "" \/ exists path, bp = Some path /\ path ∉ files w) ->
     snd (runCommentChecker h resolved input options w) = emit (ECheck input) w) /\
  (forall path,
     argv_of path options
     = path :: match prompt options with
               | Some text => if nonblank text then ["--prompt"; text] else []
               | None => []
               end).
Proof.
  split; [|split; [|split; [|split]]].
  - intros path jsonInput proc Hbp Hne Hin Hjson Hchild.
    rewrite (runCommentChecker_spawned _ _ _ _ _ _ _ _ Hbp Hne Hin Hjson Hchild).
    simpl. by rewrite <- !app_assoc.
  - intros path jsonInput e Hbp Hne Hin Hjson Hchild.
    rewrite (runCommentChecker_serialises _ _ _ _ _ _ Hbp Hne Hin), Hjson.
    unfold try_catch, bind at 1, spawn at 1. rewrite Hchild. reflexivity.
  - intros path e Hbp Hne Hin Hjson.
    by rewrite (runCommentChecker_serialises _ _ _ _ _ _ Hbp Hne Hin), Hjson.
  - intros bp Hbp Hcase.
    unfold runCommentChecker. unfold bind at 1, note at 1. unfold bind at 1.
    rewrite (binaryPath_of_noted _ _ _ input _ _ Hbp).
    destruct Hcase as [->|[->|(path & -> & Hmissing)]]; [reflexivity|reflexivity|].
    destruct (negb (truthy_str (Some path))); [reflexivity|].
    unfold bind at 1, existsSync at 1. cbn [files emit].
    rewrite bool_decide_eq_false_2 by done. reflexivity.
  - intros path. unfold argv_of.
    destruct (prompt options) as [text|]; [|reflexivity].
    destruct text as [|c text]; [reflexivity|].
    cbn [truthy_str String.eqb negb andb].
    destruct (nonblank (String c text)); reflexivity.
Qed.

Lemma runCommentChecker_protocol_witness :
  let h := Scenario.machine "linux" "x64"
             (Scenario.child_exiting 2 "found 3 comments" []) in
  let options := {| cliPath := None; prompt := Some "Fix it." |} in
  trace (snd (runCommentChecker h (Some "/opt/cc") Scenario.some_input options
                (Scenario.disk ["/opt/cc"])))
  = [ECheck Scenario.some_input; ESpawn ["/opt/cc"; "--prompt"; "Fix it."];
     EStdin "{}"].
Proof.
  intros h options.
  destruct (runCommentChecker_protocol h (Some "/opt/cc") Scenario.some_input
              options (Scenario.disk ["/opt/cc"])) as (Hspawned & _).
  destruct (Hspawned "/opt/cc" "{}" (Scenario.child_exiting 2 "found 3 comments" []))
    as [Htrace _].
  - reflexivity.
  - discriminate.
  - vm_compute. reflexivity.
  - reflexivity.
  - reflexivity.
  - exact Htrace.
Defined.

(** X25. [runCommentChecker] raises nothing but what [JSON.stringify]
    raised, and that only with a binary path that is on disk. Otherwise
    its result is fixed by the binary path and the child: no path, a path
    that is not on disk, a spawn that throws or any error while talking
    to the child give [{hasComments: false, message: ""}]; so do exit
    code 0 and every exit code other than 2; exit code 2 gives
    [hasComments: true] with the child's standard-error text as the
    message. *)
Theorem runCommentChecker_fails_soft (h : Host) (resolved : option string)
    (input : HookInput) (options : RunOptions) (w : World) :
  (forall e,
     checked h resolved input options w = Throw e ->
     stringify h input = Throw e /\
     exists path, located h resolved options w = Ok (Some path) /\
                  path <> "" /\ path ∈ files w) /\
  (located h resolved options w = Ok None \/
   located h resolved options w = Ok (Some "") ->
   checked h resolved input options w = Ok no_comments) /\
  (forall path,
     located h resolved options w = Ok (Some path) -> path ∉ files w ->
     checked h resolved input options w = Ok no_comments) /\
  (forall path jsonInput,
     located h resolved options w = Ok (Some path) -> path <> "" ->
     path ∈ files w ->
     stringify h input = Ok jsonInput ->
     (forall e, child h (argv_of path options) = Throw e ->
        checked h resolved input options w = Ok no_comments) /\
     (forall proc, child h (argv_of path options) = Ok proc ->
        (forall e, conversation proc jsonInput = Throw e ->
           checked h resolved input options w = Ok no_comments) /\
        (forall stderr exitCode,
           conversation proc jsonInput = Ok (stderr, exitCode) ->
           (exitCode = 0 ->
              checked h resolved input options w = Ok no_comments) /\
           (exitCode = 2 ->
              checked h resolved input options w
              = Ok {| hasComments := true; message := stderr |}) /\
           (exitCode <> 0 -> exitCode <> 2 ->
              checked h resolved input options w = Ok no_comments)))).
Proof.
  unfold checked, located.
  destruct (binaryPath_of_reads h resolved options w) as [bp Hbp].
  assert (Hfst : fst (binaryPath_of h resolved options w) = Ok bp)
    by (rewrite Hbp; reflexivity).
  rewrite (runCommentChecker_at _ _ _ _ _ _ Hfst), Hfst.
  split.
  { intros e Hthrow. destruct bp as [path|]; [|discriminate].
    destruct (truthy_str (Some path)) eqn:Htruthy; [|discriminate].
    apply JsFacts.truthy_str_nonempty in Htruthy.
    cbn [negb] in Hthrow. case_bool_decide as Hin; [|discriminate].
    cbn [negb] in Hthrow.
    destruct (stringify h input) as [jsonInput|e']; [discriminate|].
    injection Hthrow as ->. split; [reflexivity|]. by exists path. }
  split.
  { intros [H|H]; injection H as ->; reflexivity. }
  split.
  { intros path H Hmissing. injection H as ->.
    destruct (negb (truthy_str (Some path))); [reflexivity|].
    rewrite bool_decide_eq_false_2 by done. reflexivity. }
  intros path jsonInput H Hne Hin ->. injection H as ->.
  apply JsFacts.truthy_str_nonempty in Hne. rewrite Hne.
  rewrite bool_decide_eq_true_2 by done. simpl.
  split.
  { intros e ->. reflexivity. }
  intros proc ->. split.
  { intros e ->. reflexivity. }
  intros stderr exitCode ->. repeat split.
  - intros ->. reflexivity.
  - intros ->. reflexivity.
  - intros H0 H2.
    destruct (Z.eqb_spec exitCode 0); [contradiction|].
    destruct (Z.eqb_spec exitCode 2); [contradiction|]. reflexivity.
Qed.

(** The three sample runs: exit code 0, exit code 2 with
    ["found 3 comments"] on standard error, exit code 1. *)
Lemma runCommentChecker_fails_soft_witness :
  let options := {| cliPath := Some "/opt/cc"; prompt := None |} in
  let run code :=
    checked (Scenario.machine "linux" "x64"
               (Scenario.child_exiting code "found 3 comments" []))
      None Scenario.some_input options (Scenario.disk ["/opt/cc"]) in
  run 0 = Ok no_comments /\
  run 2 = Ok {| hasComments := true; message := "found 3 comments" |} /\
  run 1 = Ok no_comments.
Proof.
  intros options run.
  assert (Hgo : forall code,
    (code = 0 -> run code = Ok no_comments) /\
    (code = 2 -> run code = Ok {| hasComments := true; message := "found 3 comments" |}) /\
    (code <> 0 -> code <> 2 -> run code = Ok no_comments)).
  { intros code.
    pose proof (runCommentChecker_fails_soft
                  (Scenario.machine "linux" "x64"
                     (Scenario.child_exiting code "found 3 comments" []))
                  None Scenario.some_input options (Scenario.disk ["/opt/cc"]))
      as (_ & _ & _ & Hrun).
    destruct (Hrun "/opt/cc" "{}") as [_ Hchild];
      [reflexivity | discriminate | vm_compute; reflexivity | reflexivity |].
    destruct (Hchild (Scenario.child_exiting code "found 3 comments" []))
      as [_ Hexit]; [reflexivity|].
    exact (Hexit "found 3 comments" code eq_refl). }
  split; [|split].
  - destruct (Hgo 0) as (H & _ & _). apply H. reflexivity.
  - destruct (Hgo 2) as (_ & H & _). apply H. reflexivity.
  - destruct (Hgo 1) as (_ & _ & H). apply H; discriminate.
Defined.

(** ** The prompt, from the configuration to the command line *)

(** X15. The [config] hook throws only on a configuration that is
    [undefined] or [null] and never touches the table. It sets the prompt
    only to the string at [comment_checker.custom_prompt], and only when
    that string has a code unit that [trim] leaves; then the checker's
    command line is the path, ["--prompt"] and that string. In every
    other case, a string of white space and no-break spaces included, the
    prompt is cleared and the command line is the path alone. *)
Theorem custom_prompt_reaches_argv (cfg : value) (st : Hook.Plugin) (path : string) :
  match config cfg st with
  | Ok st' =>
      Hook.pendingCalls st' = Hook.pendingCalls st /\
      match Hook.customPrompt st' with
      | Some text =>
          (exists fields inner,
             cfg = VObject fields /\
             field "comment_checker" fields = VObject inner /\
             field "custom_prompt" inner = VStr text) /\
          nonblank text = true /\
          argv_of path {| cliPath := None; prompt := Some text |}
          = [path; "--prompt"; text]
      | None =>
          argv_of path {| cliPath := None; prompt := None |} = [path]
      end /\
      (forall fields inner text,
         cfg = VObject fields ->
         field "comment_checker" fields = VObject inner ->
         field "custom_prompt" inner = VStr text ->
         Hook.customPrompt st' = if nonblank text then Some text else None)
  | Throw _ => cfg = VUndefined \/ cfg = VNull
  end.
Proof.
  unfold config, resolveCustomPrompt.
  destruct cfg as [| |b|n|s|fields|items]; simpl; auto;
    try (split; [reflexivity|split; [reflexivity|discriminate]]).
  assert (Hskip :
    forall raw, field "comment_checker" fields = raw ->
      (forall inner, raw <> VObject inner) ->
      @eq (gmap string PendingCall) (Hook.pendingCalls st) (Hook.pendingCalls st) /\
      [path] = [path] /\
      (forall fields0 inner text,
         VObject fields = VObject fields0 ->
         field "comment_checker" fields0 = VObject inner ->
         field "custom_prompt" inner = VStr text ->
         None = if nonblank text then Some text else None)).
  { intros raw Hraw Hno. split; [reflexivity|]. split; [reflexivity|].
    intros fields0 inner text Hcfg Hinner _. injection Hcfg as <-.
    rewrite Hraw in Hinner. by apply Hno in Hinner. }
  destruct (field "comment_checker" fields) as [| |b|n|s|inner|items] eqn:Hraw;
    simpl; try (by eapply Hskip; [reflexivity|discriminate]).
  - destruct b; simpl; by eapply Hskip; [reflexivity|discriminate].
  - destruct (negb (n =? 0)); simpl; by eapply Hskip; [reflexivity|discriminate].
  - destruct (negb (s =? "")%string); simpl;
      by eapply Hskip; [reflexivity|discriminate].
  - clear Hskip.
    assert (Hother :
      forall found, field "custom_prompt" inner = found ->
        (forall text, found <> VStr text) ->
        @eq (gmap string PendingCall) (Hook.pendingCalls st) (Hook.pendingCalls st) /\
        [path] = [path] /\
        (forall fields0 inner0 text,
           VObject fields = VObject fields0 ->
           field "comment_checker" fields0 = VObject inner0 ->
           field "custom_prompt" inner0 = VStr text ->
           None = if nonblank text then Some text else None)).
    { intros found Hfound Hno. split; [reflexivity|]. split; [reflexivity|].
      intros fields0 inner0 text Hcfg Hinner Htext. injection Hcfg as <-.
      rewrite Hraw in Hinner. injection Hinner as <-.
      rewrite Hfound in Htext. by apply Hno in Htext. }
    destruct (field "custom_prompt" inner) as [| |b|n|text|inner'|items] eqn:Hprompt;
      simpl; try (by eapply Hother; [reflexivity|discriminate]).
    clear Hother.
    assert (Hsame :
      forall fields0 inner0 text0,
        VObject fields = VObject fields0 ->
        field "comment_checker" fields0 = VObject inner0 ->
        field "custom_prompt" inner0 = VStr text0 -> text0 = text).
    { intros fields0 inner0 text0 Hcfg Hinner Htext. injection Hcfg as <-.
      rewrite Hraw in Hinner. injection Hinner as <-.
      rewrite Hprompt in Htext. by injection Htext. }
    destruct (nonblank text) eqn:Hnonblank; simpl.
    + split; [reflexivity|]. split.
      * split; [by eexists _, _|]. split; [exact Hnonblank|].
        unfold argv_of. simpl. rewrite Hnonblank.
        destruct text; [discriminate Hnonblank|]. reflexivity.
      * intros fields0 inner0 text0 Hcfg Hinner Htext.
        rewrite (Hsame _ _ _ Hcfg Hinner Htext). by rewrite Hnonblank.
    + split; [reflexivity|]. split; [reflexivity|].
      intros fields0 inner0 text0 Hcfg Hinner Htext.
      rewrite (Hsame _ _ _ Hcfg Hinner Htext). by rewrite Hnonblank.
Qed.

(** A prompt of a no-break space and a space is no prompt. *)
Lemma custom_prompt_reaches_argv_witness :
  config
    (VObject [("comment_checker",
               VObject [("custom_prompt", VStr (String "160"%char " "))])])
    Hook.empty_plugin
  = Ok Hook.empty_plugin.
Proof.
  pose proof (custom_prompt_reaches_argv
                (VObject [("comment_checker",
                           VObject [("custom_prompt", VStr (String "160"%char " "))])])
                Hook.empty_plugin "/opt/cc") as Hconfig.
  destruct (config _ Hook.empty_plugin) as [st'|e].
  - destruct Hconfig as (Htable & _ & Hprompt).
    specialize (Hprompt _ _ _ eq_refl eq_refl eq_refl).
    destruct st' as [table text]. simpl in Htable, Hprompt.
    by rewrite Htable, Hprompt.
  - destruct Hconfig; discriminate.
Defined.

End InvokerFacts.

(* ===================================================================== *)
(** * More on the table and the hooks *)
(* ===================================================================== *)

Module TableFacts.
Import Js Types Sys Hook Footprint.
Import HookSpec.

Lemma plugin_eq (a b : Plugin) :
  pendingCalls a = pendingCalls b -> customPrompt a = customPrompt b -> a = b.
Proof. destruct a, b; simpl. by intros -> ->. Qed.

Lemma with_pending_table (f : gmap string PendingCall -> gmap string PendingCall)
    (st : Plugin) :
  pendingCalls (with_pending f st) = f (pendingCalls st).
Proof. reflexivity. Qed.

Lemma cleanup_prompt (now : Z) (st : Plugin) :
  customPrompt (cleanupOldPendingCalls now st) = customPrompt st.
Proof. reflexivity. Qed.

Lemma take_lookup (c k : string) (st : Plugin) :
  pendingCalls (snd (take c st)) !! k
  = if decide (c = k) then None else pendingCalls st !! k.
Proof.
  unfold take. destruct (pendingCalls st !! c) as [v|] eqn:Hc; simpl.
  - rewrite lookup_delete. by destruct (decide (c = k)).
  - destruct (decide (c = k)) as [<-|]; [assumption|reflexivity].
Qed.

Lemma take_prompt (c : string) (st : Plugin) :
  customPrompt (snd (take c st)) = customPrompt st.
Proof. unfold take. by destruct (pendingCalls st !! c). Qed.

Lemma expired_mono (now1 now2 : Z) (call : PendingCall) :
  now1 <= now2 -> expired now1 call = true -> expired now2 call = true.
Proof. rewrite !expired_true. lia. Qed.

(** ** The sweep *)

(** X16. A sweep only removes: what it leaves was there before and is no
    older than the TTL. Sweeping twice at the same time is sweeping once,
    and of two sweeps the later one alone decides. *)
Theorem sweep_only_shrinks (now1 now2 : Z) (st : Plugin) :
  (forall c call,
     pendingCalls (cleanupOldPendingCalls now2 st) !! c = Some call ->
     pendingCalls st !! c = Some call /\ now2 - timestamp call <= 60000) /\
  cleanupOldPendingCalls now2 (cleanupOldPendingCalls now2 st)
  = cleanupOldPendingCalls now2 st /\
  (now1 <= now2 ->
   cleanupOldPendingCalls now2 (cleanupOldPendingCalls now1 st)
   = cleanupOldPendingCalls now2 st /\
   cleanupOldPendingCalls now1 (cleanupOldPendingCalls now2 st)
   = cleanupOldPendingCalls now2 st).
Proof.
  assert (Hlater : forall a b, a <= b ->
            cleanupOldPendingCalls b (cleanupOldPendingCalls a st)
            = cleanupOldPendingCalls b st /\
            cleanupOldPendingCalls a (cleanupOldPendingCalls b st)
            = cleanupOldPendingCalls b st).
  { intros a b Hab. split; (apply plugin_eq; [|reflexivity]); apply map_eq; intros k;
      rewrite !cleanup_lookup;
      destruct (pendingCalls st !! k) as [call|]; try reflexivity;
      destruct (expired a call) eqn:Ha; destruct (expired b call) eqn:Hb;
      try reflexivity; rewrite ?Ha, ?Hb; try reflexivity;
      apply (expired_mono a b call Hab) in Ha; congruence. }
  split; [|split].
  - intros c call. rewrite cleanup_lookup.
    destruct (pendingCalls st !! c) as [call'|]; [|discriminate].
    destruct (expired now2 call') eqn:Hexp; [discriminate|].
    intros H. injection H as <-. split; [reflexivity|].
    by apply expired_false.
  - apply (Hlater now2 now2). lia.
  - apply Hlater.
Qed.

Lemma sweep_only_shrinks_witness :
  let old := pendingCall_of 1000 Scenario.edit_call Scenario.edit_args in
  let young := pendingCall_of 50000 Scenario.edit_call Scenario.edit_args in
  let st := {| pendingCalls := <["stale" := old]> (<["fresh" := young]> ∅);
               customPrompt := Some "Fix it." |} in
  cleanupOldPendingCalls 70000 (cleanupOldPendingCalls 61001 st)
  = cleanupOldPendingCalls 70000 st.
Proof.
  intros old young st.
  destruct (sweep_only_shrinks 61001 70000 st) as (_ & _ & Hlater).
  apply Hlater. lia.
Defined.

Section WithConstants.

Variable COMMENT_CHECKER_EVENT : string.
Variable OUTPUT_FAILURE_PATTERNS : list string.
Variable TOOL_NAMES : gset string.

Local Abbreviation before := (before TOOL_NAMES).
Local Abbreviation after := (after COMMENT_CHECKER_EVENT OUTPUT_FAILURE_PATTERNS).
Local Abbreviation isToolFailure := (isToolFailure OUTPUT_FAILURE_PATTERNS).
Local Abbreviation hookInput_of := (hookInput_of COMMENT_CHECKER_EVENT).

(** A before-hook either ignores its call or stores its record, and which
    of the two does not depend on the table. *)
Lemma before_cases (now : Z) (input : HookIn) (args : gmap string jsval) :
  (forall st, before now input args st = st) \/
  (forall st, before now input args st
              = with_pending (insert (in_callID input) (pendingCall_of now input args)) st).
Proof.
  unfold Hook.before.
  destruct (negb (bool_decide _)); [by left|].
  destruct (negb (truthy _)); [by left|by right].
Qed.

Lemma before_lookup (now : Z) (input : HookIn) (args : gmap string jsval)
    (st : Plugin) (k : string) :
  pendingCalls (before now input args st) !! k
  = if decide (in_callID input = k)
    then pendingCalls (before now input args st) !! in_callID input
    else pendingCalls st !! k.
Proof.
  destruct (decide (in_callID input = k)) as [<-|Hne]; [reflexivity|].
  by apply before_other.
Qed.

(** X17. The sweep and the hooks of a call can run in either order: a
    sweep commutes with the take of the after-hook, and with a before-hook
    whose record is within the TTL at the time of the sweep. *)
Theorem sweep_commutes (now : Z) (st : Plugin) :
  (forall c,
     cleanupOldPendingCalls now (snd (take c st))
     = snd (take c (cleanupOldPendingCalls now st))) /\
  (forall now0 input args,
     now - now0 <= 60000 ->
     cleanupOldPendingCalls now (before now0 input args st)
     = before now0 input args (cleanupOldPendingCalls now st)).
Proof.
  split.
  - intros c. apply plugin_eq.
    + apply map_eq. intros k.
      rewrite cleanup_lookup, !take_lookup, cleanup_lookup.
      by destruct (decide (c = k)).
    + by rewrite cleanup_prompt, !take_prompt.
  - intros now0 input args Hfresh.
    destruct (before_cases now0 input args) as [Hskip|Hput].
    + by rewrite !Hskip.
    + rewrite !Hput. apply plugin_eq; [|reflexivity].
      apply map_eq. intros k. rewrite cleanup_lookup, !with_pending_table.
      destruct (decide (in_callID input = k)) as [<-|Hne].
      * rewrite !lookup_insert_eq.
        assert (Hkeep : expired now (pendingCall_of now0 input args) = false)
          by (apply expired_false; simpl; lia).
        by rewrite Hkeep.
      * rewrite !lookup_insert_ne by done. by rewrite cleanup_lookup.
Qed.

(** X18. Before-hooks compose by call identifier: a before-hook leaves
    the prompt and the entries of all other calls as they were; two
    before-hooks of different calls commute; and a before-hook that
    records makes an earlier before-hook of the same call as if it had
    not happened (the last write wins). *)
Theorem before_hooks_compose (now1 now2 : Z) (input1 input2 : HookIn)
    (args1 args2 : gmap string jsval) (st : Plugin) :
  (customPrompt (before now1 input1 args1 st) = customPrompt st /\
   forall c, c <> in_callID input1 ->
             pendingCalls (before now1 input1 args1 st) !! c = pendingCalls st !! c) /\
  (in_callID input1 <> in_callID input2 ->
   before now1 input1 args1 (before now2 input2 args2 st)
   = before now2 input2 args2 (before now1 input1 args1 st)) /\
  (in_callID input1 = in_callID input2 ->
   toLowerCase (in_tool input2) ∈ TOOL_NAMES ->
   truthy (filePath_arg args2) = true ->
   before now2 input2 args2 (before now1 input1 args1 st)
   = before now2 input2 args2 st).
Proof.
  split; [|split].
  - split.
    + by destruct (before_cases now1 input1 args1) as [-> | ->].
    + intros c Hne. by apply before_other.
  - intros Hne.
    destruct (before_cases now1 input1 args1) as [H1|H1];
      destruct (before_cases now2 input2 args2) as [H2|H2];
      rewrite ?H1, ?H2; try reflexivity.
    apply plugin_eq; [|reflexivity]. simpl. by apply insert_insert_ne.
  - intros Hsame Htool Hpath.
    rewrite !(before_records _ _ _ _ _ Htool Hpath).
    destruct (before_cases now1 input1 args1) as [-> | ->]; [reflexivity|].
    apply plugin_eq; [|reflexivity]. simpl. rewrite Hsame.
    apply insert_insert_eq.
Qed.

(** ** The keys of the path *)

(** Reads of keys other than the one just set. *)
Ltac skip_inserted :=
  repeat match goal with
         | |- context [<[?i := ?x]> ?m !! ?j] =>
             rewrite (lookup_insert_ne m i j x) by done
         end.

Lemma before_ext (now : Z) (input : HookIn) (args args' : gmap string jsval)
    (st : Plugin) :
  pendingCall_of now input args' = pendingCall_of now input args ->
  before now input args' st = before now input args st.
Proof.
  intros Hsame. unfold Hook.before.
  assert (Hpath : filePath_arg args' = filePath_arg args)
    by exact (f_equal filePath Hsame).
  by rewrite Hsame, Hpath.
Qed.

(** X19. The key [filePath] comes first. When it holds a value other
    than [undefined] and [null], the keys [file_path] and [path] are not
    looked at, so that a falsy [filePath] (the empty string, say) means
    that nothing is recorded even if another key holds a path; when it
    holds [null] the before-hook behaves as if the key were missing. *)
Theorem filePath_key_comes_first (now : Z) (input : HookIn)
    (args : gmap string jsval) (st : Plugin) :
  (forall v x,
     args !! "filePath" = Some v -> v <> JUndefined -> v <> JNull ->
     before now input (<["file_path" := x]> args) st = before now input args st /\
     before now input (<["path" := x]> args) st = before now input args st /\
     (truthy v = false -> before now input args st = st)) /\
  (args !! "filePath" = Some JNull ->
   before now input args st = before now input (delete "filePath" args) st).
Proof.
  split.
  - intros v x Hv Hundef Hnull.
    assert (Hpick : forall other, nullish (nullish v other) (prop args "path") = v)
      by (intros other; destruct v; simpl; congruence).
    split; [|split].
    + apply before_ext. unfold pendingCall_of, filePath_arg, prop.
      skip_inserted. rewrite Hv. simpl.
      f_equal. destruct v; simpl; congruence.
    + apply before_ext. unfold pendingCall_of, filePath_arg, prop.
      skip_inserted. rewrite Hv. simpl.
      f_equal. destruct v; simpl; congruence.
    + intros Hfalsy.
      assert (Harg : filePath_arg args = v).
      { unfold filePath_arg, prop at 1. rewrite Hv. apply Hpick. }
      unfold Hook.before. rewrite Harg, Hfalsy.
      by destruct (negb (bool_decide _)).
  - intros Hnull. symmetry. apply before_ext.
    unfold pendingCall_of, filePath_arg, prop.
    rewrite lookup_delete_eq, !lookup_delete_ne by done. rewrite Hnull.
    reflexivity.
Qed.

(** ** The after-hook and the world *)

Section AfterFootprint.
Variable P : effect -> bool.
Variables a b c : nat.
Hypothesis Hcheck : forall input, ((if P (ECheck input) then 1 else 0) <= a)%nat.
Hypothesis Hspawn : forall argv, ((if P (ESpawn argv) then 1 else 0) <= b)%nat.
Hypothesis Hstdin : forall payload, ((if P (EStdin payload) then 1 else 0) <= c)%nat.

Lemma adds_after (h : Host) (cliPathPromise : outcome (option string))
    (resolved : option string) (input : HookIn) (out : ToolOutput) (st : Plugin) :
  adds P (a + b + c) (after h cliPathPromise resolved input out st).
Proof.
  unfold Hook.after.
  destruct (take (in_callID input) st) as [[pendingCall|] st'];
    [|eapply FootprintFacts.adds_mono; [|apply FootprintFacts.adds_ret]; lia].
  destruct (isToolFailure (output out));
    [eapply FootprintFacts.adds_mono; [|apply FootprintFacts.adds_ret]; lia|].
  eapply (FootprintFacts.adds_mono P ((0 + (0 + ((a + b + c) + 0))) + 0)); [lia|].
  apply FootprintFacts.adds_try; [|intros; apply FootprintFacts.adds_ret].
  eapply FootprintFacts.adds_bind; [apply FootprintFacts.adds_lift|].
  intros [path|];
    [|eapply FootprintFacts.adds_mono; [|apply FootprintFacts.adds_ret]; lia].
  eapply FootprintFacts.adds_bind.
  { destruct (negb (truthy_str (Some path))); [apply FootprintFacts.adds_ret|].
    eapply (FootprintFacts.adds_mono P (0 + 0)); [lia|].
    eapply FootprintFacts.adds_bind; [apply FootprintFacts.adds_existsSync|].
    intros present. apply FootprintFacts.adds_ret. }
  intros missing.
  destruct missing;
    [eapply FootprintFacts.adds_mono; [|apply FootprintFacts.adds_ret]; lia|].
  eapply FootprintFacts.adds_bind.
  { by apply InvokerFacts.adds_runCommentChecker. }
  intros result. destruct (hasComments result && _); apply FootprintFacts.adds_ret.
Qed.

End AfterFootprint.

Lemma keeps_after (h : Host) (cliPathPromise : outcome (option string))
    (resolved : option string) (input : HookIn) (out : ToolOutput) (st : Plugin) :
  keeps (fun _ => True) (after h cliPathPromise resolved input out st).
Proof.
  unfold Hook.after.
  destruct (take (in_callID input) st) as [[pendingCall|] st'];
    [|apply FootprintFacts.keeps_ret].
  destruct (isToolFailure (output out)); [apply FootprintFacts.keeps_ret|].
  apply FootprintFacts.keeps_try; [|intros; apply FootprintFacts.keeps_ret].
  apply FootprintFacts.keeps_bind; [apply FootprintFacts.keeps_lift|].
  intros [path|]; [|apply FootprintFacts.keeps_ret].
  apply FootprintFacts.keeps_bind.
  { destruct (negb (truthy_str (Some path))); [apply FootprintFacts.keeps_ret|].
    apply FootprintFacts.keeps_bind; [apply FootprintFacts.keeps_existsSync|].
    intros present. apply FootprintFacts.keeps_ret. }
  intros missing. destruct missing; [apply FootprintFacts.keeps_ret|].
  apply FootprintFacts.keeps_bind; [apply InvokerFacts.keeps_runCommentChecker|].
  intros result. destruct (hasComments result && _); apply FootprintFacts.keeps_ret.
Qed.

(** X20. What one after-hook can do, whatever the host answers: it
    calls the checker at most once and spawns at most one child, makes no
    network request, deletes no file and leaves every file that was on
    disk; in the table it touches the entry of its own call only, and it
    leaves the prompt as it was. *)
Theorem after_hook_footprint (h : Host) (cliPathPromise : outcome (option string))
    (resolved : option string) (input : HookIn) (out : ToolOutput)
    (st : Plugin) (w : World) :
  ((checks (snd (after h cliPathPromise resolved input out st w)) <= checks w + 1)%nat /\
   (tally is_spawn (snd (after h cliPathPromise resolved input out st w))
    <= tally is_spawn w + 1)%nat /\
   (requests (snd (after h cliPathPromise resolved input out st w)) <= requests w)%nat /\
   (tally is_unlink (snd (after h cliPathPromise resolved input out st w))
    <= tally is_unlink w)%nat /\
   (forall f, f ∈ files w ->
              f ∈ files (snd (after h cliPathPromise resolved input out st w)))) /\
  (exists st' out',
     fst (after h cliPathPromise resolved input out st w) = Ok (st', out') /\
     customPrompt st' = customPrompt st /\
     forall k, k <> in_callID input ->
               pendingCalls st' !! k = pendingCalls st !! k).
Proof.
  split.
  - split; [|split; [|split; [|split]]].
    + pose proof (adds_after is_check 1 0 0
                    (fun _ => le_n 1) (fun _ => le_n 0) (fun _ => le_n 0)
                    h cliPathPromise resolved input out st w) as H.
      unfold tally in H. unfold checks. lia.
    + pose proof (adds_after is_spawn 0 1 0
                    (fun _ => le_n 0) (fun _ => le_n 1) (fun _ => le_n 0)
                    h cliPathPromise resolved input out st w) as H. lia.
    + pose proof (adds_after is_fetch 0 0 0
                    (fun _ => le_n 0) (fun _ => le_n 0) (fun _ => le_n 0)
                    h cliPathPromise resolved input out st w) as H.
      unfold tally in H. unfold requests. lia.
    + pose proof (adds_after is_unlink 0 0 0
                    (fun _ => le_n 0) (fun _ => le_n 0) (fun _ => le_n 0)
                    h cliPathPromise resolved input out st w) as H. lia.
    + intros f Hf. by apply keeps_after.
  - destruct (after_returns COMMENT_CHECKER_EVENT OUTPUT_FAILURE_PATTERNS
                h cliPathPromise resolved input out st w) as (out' & w' & Hafter).
    exists (snd (take (in_callID input) st)), out'.
    rewrite Hafter. split; [reflexivity|]. split; [apply take_prompt|].
    intros k Hne. rewrite take_lookup.
    destruct (decide (in_callID input = k)); [congruence|reflexivity].
Qed.

(** X21. The checker is told what the before-hook recorded: when the
    after-hook of a recorded call runs the checker, the hook input it
    passes carries the session, the tool (capitalised) and the arguments
    of the before-hook, and no tool response; the tool and the session
    that the after-hook itself is called with are never read. *)
Theorem checker_receives_the_recorded_call (h : Host) (resolved : option string)
    (now : Z) (input input' : HookIn) (args : gmap string jsval)
    (out : ToolOutput) (st : Plugin) (w : World) (path : string) :
  toLowerCase (in_tool input) ∈ TOOL_NAMES ->
  truthy (filePath_arg args) = true ->
  in_callID input' = in_callID input ->
  isToolFailure (output out) = false ->
  path <> "" ->
  path ∈ files w ->
  exists rest,
    trace (snd (after h (Ok (Some path)) resolved input' out
                  (before now input args st) w))
    = (trace w ++
       ECheck {| session_id := in_sessionID input;
                 tool_name := capitalize (toLowerCase (in_tool input));
                 transcript_path := "";
                 hi_cwd := cwd h;
                 hook_event_name := COMMENT_CHECKER_EVENT;
                 tool_input :=
                   {| file_path := filePath_arg args;
                      ti_content := prop args "content";
                      old_string := nullish (prop args "oldString")
                                      (prop args "old_string");
                      new_string := nullish (prop args "newString")
                                      (prop args "new_string");
                      ti_edits := prop args "edits" |};
                 tool_response := JUndefined |} :: rest)%list.
Proof.
  intros Htool Hpath Hid Hfail Hne Hin.
  assert (Hentry : pendingCalls (before now input args st) !! in_callID input'
                   = Some (pendingCall_of now input args)).
  { rewrite (before_records _ _ _ _ _ Htool Hpath), Hid. simpl.
    apply lookup_insert_eq. }
  destruct (InvokerFacts.runCommentChecker_trace h resolved
              (hookInput_of h (pendingCall_of now input args))
              {| Cli.cliPath := None;
                 Cli.prompt := customPrompt (before now input args st) |} w)
    as [rest Hrest].
  exists rest.
  destruct (Cli.runCommentChecker h resolved
              (hookInput_of h (pendingCall_of now input args))
              {| Cli.cliPath := None;
                 Cli.prompt := customPrompt (before now input args st) |} w)
    as [[result|err] w'] eqn:Hrun.
  - by rewrite (after_checked _ _ _ _ _ _ _ _ _ _ _ _ Hentry Hfail Hne Hin Hrun).
  - by rewrite (after_check_throws _ _ _ _ _ _ _ _ _ _ _ _ Hentry Hfail Hne Hin Hrun).
Qed.

End WithConstants.

(** ** Sample runs *)

Lemma sweep_commutes_witness :
  let st := Hook.before Scenario.tool_names 1000 Scenario.edit_call Scenario.edit_args
              empty_plugin in
  cleanupOldPendingCalls 50000
    (Hook.before Scenario.tool_names 45000
       {| in_tool := "write"; in_sessionID := "s1"; in_callID := "call-2" |}
       {[ "path" := JStr "/work/b.ts" ]} st)
  = Hook.before Scenario.tool_names 45000
      {| in_tool := "write"; in_sessionID := "s1"; in_callID := "call-2" |}
      {[ "path" := JStr "/work/b.ts" ]} (cleanupOldPendingCalls 50000 st).
Proof.
  intros st.
  destruct (sweep_commutes Scenario.tool_names 50000 st) as [_ Hbefore].
  apply Hbefore. lia.
Defined.

Lemma before_hooks_compose_witness :
  let first := Hook.before Scenario.tool_names 1000 Scenario.edit_call
                 {[ "path" := JStr "/work/old.ts" ]} empty_plugin in
  Hook.before Scenario.tool_names 2000 Scenario.edit_call Scenario.edit_args first
  = Hook.before Scenario.tool_names 2000 Scenario.edit_call Scenario.edit_args
      empty_plugin.
Proof.
  intros first.
  destruct (before_hooks_compose Scenario.tool_names 1000 2000 Scenario.edit_call
              Scenario.edit_call {[ "path" := JStr "/work/old.ts" ]}
              Scenario.edit_args empty_plugin) as (_ & _ & Hlast).
  apply Hlast.
  - reflexivity.
  - exact edit_is_recognised.
  - reflexivity.
Defined.

Lemma filePath_key_comes_first_witness :
  let args : gmap string jsval :=
    <["filePath" := JStr ""]> (<["file_path" := JStr "/work/a.ts"]> ∅) in
  Hook.before Scenario.tool_names 1000 Scenario.edit_call args empty_plugin
  = empty_plugin.
Proof.
  intros args.
  destruct (filePath_key_comes_first Scenario.tool_names 1000 Scenario.edit_call
              args empty_plugin) as [Hfirst _].
  destruct (Hfirst (JStr "") JNull) as (_ & _ & Hfalsy).
  - reflexivity.
  - discriminate.
  - discriminate.
  - apply Hfalsy. reflexivity.
Defined.

Lemma checker_receives_the_recorded_call_witness :
  let h := Scenario.machine "linux" "x64" (Scenario.child_exiting 0 "" []) in
  let st := Hook.before Scenario.tool_names 1000 Scenario.edit_call
              Scenario.edit_args empty_plugin in
  let input' := {| in_tool := "ignored"; in_sessionID := "other";
                   in_callID := "call-1" |} in
  exists rest,
    trace (snd (Hook.after Scenario.event_name Scenario.failure_patterns h
                  (Ok (Some Scenario.cache_binary)) (Some Scenario.cache_binary)
                  input' (Scenario.tool_output "Edit applied") st
                  (Scenario.disk [Scenario.cache_binary])))
    = ECheck Scenario.some_input :: rest.
Proof.
  intros h st input'.
  apply (checker_receives_the_recorded_call Scenario.event_name
           Scenario.failure_patterns Scenario.tool_names h
           (Some Scenario.cache_binary) 1000 Scenario.edit_call input'
           Scenario.edit_args (Scenario.tool_output "Edit applied") empty_plugin
           (Scenario.disk [Scenario.cache_binary]) Scenario.cache_binary).
  - exact edit_is_recognised.
  - reflexivity.
  - reflexivity.
  - reflexivity.
  - discriminate.
  - apply (bool_decide_unpack _). vm_compute. exact I.
Defined.

(** ** The name of the tool *)











End TableFacts.
